(** * PAVEDJS: the selection engine of the parallel-coordinates chart

    A shallow embedding of the TypeScript sources of pavedjs (data.ts,
    DefaultAxis.ts, ParameterAxis.ts, ObjectiveAxis.ts, LineBrush.ts,
    ParallelCoordinates.ts, MultiCriteriaParallelCoordinates.ts) and the
    properties of its data preparation, range brushes, throttling, line
    brush, axis layout and data update.

    The file has three parts: the embedding of the sources, the vocabulary
    in which the properties are stated (with a concrete chart for the
    scenarios), and the properties with their proofs.

    Conventions of the embedding.
    - Pixel coordinates are exact rationals ([Q]); data values carry the
      JavaScript number line extended with the infinities and NaN.
    - JavaScript objects used as maps ([axes], [dragging]) are [gmap]s;
      data rows are association lists in property order, because
      [Object.keys] order decides the column order.
    - A method that mutates the chart and may throw is a function from the
      chart to the chart after the call and a [result]; other functions
      that may throw return a [result].
    - The DOM is kept as far as the code reads it back: the selection of
      each brush, the [y] of the brush labels, the class [brushed] and the
      [d] attribute of each polyline.
    - Time is counted in milliseconds; a timeout of the runtime is a record
      with its due time and the direction its closure captured.
    - Functions of d3 and Raphael (scales, line generator, path
      intersection) are section variables: the chart code is verified for
      every behaviour of them. *)

From Stdlib Require Import QArith Qround Qminmax ZArith List Bool Lia.
From Stdlib Require Import Sorting.Sorted Sorting.Permutation.
From stdpp Require Import gmap strings list fin_maps.

Import ListNotations.
Local Open Scope string_scope.

(** ** JavaScript values *)

(** A JavaScript number: a finite value, an infinity, or NaN. *)
Inductive jsnumber : Type :=
| JFin (q : Q)
| JPosInf
| JNegInf
| JNaN.

(** A property value of a data row.  [VOther] stands for [undefined] (the
    result of reading a missing key) and for every value whose [typeof] is
    neither ["number"] nor ["string"]. *)
Inductive value : Type :=
| VNum (n : jsnumber)
| VStr (s : string)
| VOther.

(** The marker of an invalid entry, the string ["NaN"]. *)
Definition NaN_marker : value := VStr "NaN".

(** [val === "NaN"] *)
Definition is_NaN_marker (v : value) : bool :=
  match v with
  | VStr s => bool_decide (s = "NaN")
  | _ => false
  end.

(** [typeof val === "number"] *)
Definition typeof_number (v : value) : bool :=
  match v with VNum _ => true | _ => false end.

(** [typeof val === "string"] *)
Definition typeof_string (v : value) : bool :=
  match v with VStr _ => true | _ => false end.

(** [isNaN] on numbers. *)
Definition isNaN (n : jsnumber) : bool :=
  match n with JNaN => true | _ => false end.

(** [x < y] on rationals, as a boolean. *)
Definition Qlt_bool (x y : Q) : bool := negb (Qle_bool y x).

(** [a < b] on numbers (false as soon as one side is NaN). *)
Definition js_ltb (a b : jsnumber) : bool :=
  match a, b with
  | JNaN, _ | _, JNaN => false
  | JNegInf, JNegInf => false
  | JNegInf, _ => true
  | _, JNegInf => false
  | JPosInf, _ => false
  | JFin _, JPosInf => true
  | JFin x, JFin y => Qlt_bool x y
  end.

(** [a <= b] on numbers. *)
Definition js_leb (a b : jsnumber) : bool :=
  match a, b with
  | JNaN, _ | _, JNaN => false
  | JNegInf, _ => true
  | _, JPosInf => true
  | JPosInf, _ => false
  | _, JNegInf => false
  | JFin x, JFin y => Qle_bool x y
  end.

(** [Math.min] and [Math.max] of two numbers. *)
Definition js_min2 (a b : jsnumber) : jsnumber :=
  match a, b with
  | JNaN, _ | _, JNaN => JNaN
  | _, _ => if js_ltb b a then b else a
  end.

Definition js_max2 (a b : jsnumber) : jsnumber :=
  match a, b with
  | JNaN, _ | _, JNaN => JNaN
  | _, _ => if js_ltb a b then b else a
  end.

(** [Math.min.apply(Math, xs)]: [Infinity] for no arguments. *)
Definition Math_min (xs : list jsnumber) : jsnumber :=
  fold_left js_min2 xs JPosInf.

(** [Math.max.apply(Math, xs)]: [-Infinity] for no arguments. *)
Definition Math_max (xs : list jsnumber) : jsnumber :=
  fold_left js_max2 xs JNegInf.

(** [Number(val)] for the values that reach it in [deriveColumnMetaData]:
    a number is itself, the string ["NaN"] converts to NaN. *)
Definition Number_of (v : value) : jsnumber :=
  match v with
  | VNum n => n
  | _ => JNaN
  end.

(** The number [i], as a number and as a data value. *)
Definition nat_num (i : nat) : jsnumber := JFin (inject_Z (Z.of_nat i)).

Definition num_of_nat (i : nat) : value := VNum (nat_num i).

(** ** Results of functions that may throw *)

Inductive error : Type :=
| ErrAmbiguousColumn (name : string)
    (* "Could not determine attribute type and domain of ..." *)
| ErrTypeChanged (name : string)
    (* "setRows must not change an attribute's type ..." *)
| ErrDimensionMismatch
    (* "Could not set dimensions due to a mismatch ..." *)
| ErrObjectiveNotNumerical
    (* "Cannot create ObjectiveAxis for non-numerical dimensions!" *)
| ErrTypeError.
    (* a TypeError of the runtime: a member of [undefined] was read *)

Inductive result (A : Type) : Type :=
| Ok (a : A)
| Throw (e : error).
Arguments Ok {A} a.
Arguments Throw {A} e.

(** ** types.ts *)

Inductive ATTRIBUTE_TYPE : Type := NOMINAL | NUMERICAL.

Inductive OPTIMIZATION_TYPE : Type := MIN | MAX.

Inductive BRUSHING_DIRECTION : Type := EXTEND | SHRINK.

#[global] Instance ATTRIBUTE_TYPE_eq_dec : EqDecision ATTRIBUTE_TYPE.
Proof. solve_decision. Defined.

#[global] Instance BRUSHING_DIRECTION_eq_dec : EqDecision BRUSHING_DIRECTION.
Proof. solve_decision. Defined.

(** [statistics]: min and max of a numerical attribute, or the distinct
    categories of a nominal one. *)
Inductive statistics_t : Type :=
| StatMinMax (min max : jsnumber)
| StatCategories (cats : list string).

(** The value of an [obj] property: a string or an OPTIMIZATION_TYPE. *)
Inductive obj_value : Type :=
| ObjDir (d : OPTIMIZATION_TYPE)
| ObjString (s : string).

(** [Dimension | Objective]: optional properties are absent when [None];
    [hasTypeObjective] is ["obj" in dim]. *)
Record Dimension : Type := mkDimension {
  name : string;
  unit : option string;
  attr_type : ATTRIBUTE_TYPE;
  color : option string;
  statistics : statistics_t;
  obj : option obj_value
}.

Definition hasTypeObjective (dim : Dimension) : bool :=
  match obj dim with Some _ => true | None => false end.

(** [DimensionPreview = Pick<Dimension, "name">] *)
Record DimensionPreview : Type := mkPreview { pv_name : string }.

(** [PAVEDOptions] (with [PCOptions]); the theme and the color coding only
    style the rendering and are left out. *)
Record PAVEDOptions : Type := mkOptions {
  width : Q;
  height : Q;
  padding_top : Q;
  padding_right : Q;
  padding_bottom : Q;
  padding_left : Q;
  curveSmoothing : bool
}.

(** [DefaultOptions] of constants.ts *)
Definition DefaultOptions : PAVEDOptions :=
  mkOptions 1100 600 25 45 60 65 false.

(** A data row: its own properties in [Object.keys] order. *)
Definition DataRow : Type := list (string * value).
Definition DataRows : Type := list DataRow.

(** [key in row] *)
Definition has_key (k : string) (row : DataRow) : bool :=
  existsb (fun kv => bool_decide (fst kv = k)) row.

(** [row[key]]; a missing key reads as [undefined]. *)
Fixpoint row_get (row : DataRow) (k : string) : value :=
  match row with
  | [] => VOther
  | (k', v) :: rest => if bool_decide (k' = k) then v else row_get rest k
  end.

(** [row[key] = v]: an existing property keeps its place, a new one is
    added after the others. *)
Fixpoint row_set (row : DataRow) (k : string) (v : value) : DataRow :=
  match row with
  | [] => [(k, v)]
  | (k', v') :: rest =>
      if bool_decide (k' = k) then (k', v) :: rest
      else (k', v') :: row_set rest k v
  end.

(** ** data.ts *)

Module Data.

(** [initColumnsFromRows]: the column names are the keys of the first row. *)
Definition initColumnsFromRows (rows : DataRows) : list DimensionPreview :=
  match rows with
  | [] => []
  | r :: _ => map (fun kv => mkPreview (fst kv)) r
  end.

(** ["ID" in row || "id" in row || "Id" in row] *)
Definition has_some_id (row : DataRow) : bool :=
  has_key "ID" row || has_key "id" row || has_key "Id" row.

(** The [forEach] of [insertIDs], from index [i] on: the flag [generated]
    and the rows after the loop. *)
Fixpoint insertIDs_from (i : nat) (rows : DataRows) : bool * DataRows :=
  match rows with
  | [] => (false, [])
  | row :: rest =>
      let '(generated, rest') := insertIDs_from (S i) rest in
      if negb (has_some_id row)
      then (true, row_set row "ID" (num_of_nat i) :: rest')
      else (generated, row :: rest')
  end.

Definition insertIDs (rows : DataRows) : bool * DataRows :=
  insertIDs_from 0 rows.

(** The values of one column, [rows.map(row => row[attr.name])]. *)
Definition attr_values (rows : DataRows) (attr : string) : list value :=
  map (fun row => row_get row attr) rows.

(** [filter((value, index, self) => self.indexOf(value) === index)]:
    keep the first occurrence of each string. *)
Fixpoint unique_strings (seen : list string) (xs : list string) : list string :=
  match xs with
  | [] => []
  | x :: rest =>
      if bool_decide (x ∈ seen) then unique_strings seen rest
      else x :: unique_strings (x :: seen) rest
  end.

(** [val as string], on the strings that reach it. *)
Definition string_of_value (v : value) : string :=
  match v with VStr s => s | _ => EmptyString end.

(** The body of the [forEach] of [deriveColumnMetaData] for one column. *)
Definition deriveColumn (attr : DimensionPreview) (rows : DataRows)
  : result Dimension :=
  let vals := attr_values rows (pv_name attr) in
  if forallb (fun v => typeof_number v || is_NaN_marker v) vals then
    let nums := map Number_of vals in
    let valid := List.filter (fun n => negb (isNaN n)) nums in
    Ok (mkDimension (pv_name attr) None NUMERICAL None
          (StatMinMax (Math_min valid) (Math_max valid)) None)
  else if forallb typeof_string vals then
    Ok (mkDimension (pv_name attr) None NOMINAL None
          (StatCategories (unique_strings [] (map string_of_value vals))) None)
  else Throw (ErrAmbiguousColumn (pv_name attr)).

(** [deriveColumnMetaData]: the columns in order, up to the first throw. *)
Fixpoint deriveColumnMetaData (columns : list DimensionPreview) (rows : DataRows)
  : result (list Dimension) :=
  match columns with
  | [] => Ok []
  | attr :: rest =>
      match deriveColumn attr rows with
      | Throw e => Throw e
      | Ok d =>
          match deriveColumnMetaData rest rows with
          | Throw e => Throw e
          | Ok ds => Ok (d :: ds)
          end
      end
  end.

(** [prepareData] *)
Definition prepareData (rows : DataRows) : result (list Dimension * DataRows) :=
  let columns := initColumnsFromRows rows in
  let '(idsGenerated, modifiedRows) := insertIDs rows in
  let columns := if idsGenerated then mkPreview "ID" :: columns else columns in
  match deriveColumnMetaData columns modifiedRows with
  | Throw e => Throw e
  | Ok cols => Ok (cols, modifiedRows)
  end.

End Data.

(** ** The timer of the runtime ([setTimeout]) *)

(** A pending timeout: its id (a positive number), the time at which it is
    due, and the [direction] captured by its closure. *)
Record Timeout : Type := mkTimeout {
  tm_id : nat;
  tm_due : nat;
  tm_direction : option BRUSHING_DIRECTION
}.

(** One call of the chart's brush handler, [func(name, direction)], with the
    time at which it ran. *)
Record Invocation : Type := mkInvocation {
  inv_time : nat;
  inv_dim : string;
  inv_direction : option BRUSHING_DIRECTION
}.

(** ** DefaultAxis.ts, ParameterAxis.ts, ObjectiveAxis.ts *)

Module Axis.

Inductive AxisClass : Type := DefaultAxisC | ParameterAxisC | ObjectiveAxisC.

(** The d3 scale behind an axis: [scaleLinear] or [scalePoint] (padding
    0.5), with its current domain and range. *)
Inductive scale_kind : Type := LinearScale | PointScale.

Inductive scale_domain : Type :=
| DomNum (lo hi : jsnumber)
| DomCat (cats : list string)
| DomObject.  (* a value that cannot be iterated, the object [{min, max}] *)

Record AxisScale : Type := mkScale {
  sc_kind : scale_kind;
  sc_domain : scale_domain;
  sc_range : Q * Q
}.

(** The DOM state below [brushGroup]: the selection that d3 keeps for the
    brush ([brushSelection(node)], [None] for no selection), the [y]
    attributes of the labels [.upper] and [.lower] ([None] while the
    attribute is absent) and the vertical translation of [.handle--custom]
    ([None] while it has no transform). *)
Record BrushGroup : Type := mkBrushGroup {
  selection : option (Q * Q);
  upper_y : option Q;
  lower_y : option Q;
  handle_custom_y : option Q
}.

(** An axis.  [brushGroup = None] is an axis without a brush group node:
    the d3 selection is empty ([node()] is [null]), or the member is still
    unset, before [registerAxis]; [clearBrush] of [DefaultAxis] tests for
    that, the other methods read the member as its declared type has it.
    Members that only style the rendering are left out.  [timeouts] are
    the timeouts of the runtime that this axis has scheduled and that have
    not run yet; [timer_seq] counts the timeouts it has scheduled so far. *)
Record Axis : Type := mkAxis {
  axis_class : AxisClass;
  dimension : Dimension;
  scale : AxisScale;
  brushGroup : option BrushGroup;
  brushHandlerSet : bool;
  NANIndicatorEnabled : bool;
  timerId : option nat;
  timeouts : list Timeout;
  timer_seq : nat
}.

Definition with_brushGroup (ax : Axis) (bg : option BrushGroup) : Axis :=
  mkAxis (axis_class ax) (dimension ax) (scale ax) bg (brushHandlerSet ax)
    (NANIndicatorEnabled ax) (timerId ax) (timeouts ax) (timer_seq ax).

Definition with_timer (ax : Axis) (tid : option nat) (tms : list Timeout)
  (seq : nat) : Axis :=
  mkAxis (axis_class ax) (dimension ax) (scale ax) (brushGroup ax)
    (brushHandlerSet ax) (NANIndicatorEnabled ax) tid tms seq.

(** [Number(x.toFixed(6))]: [toFixed] picks the integer [n] with
    [n / 10^6] nearest to [|x|], the larger one on a tie, and keeps the
    sign. *)
Definition toFixed6_units (x : Q) : Z :=
  if Qle_bool 0 x then Qfloor (x * 1000000 + (1 # 2))%Q
  else (- Qfloor ((- x) * 1000000 + (1 # 2))%Q)%Z.

Definition round6 (x : Q) : Q := toFixed6_units x # 1000000.

(** [Number(selection.attr("y"))]: [attr] returns [null] for an absent
    attribute and [Number(null)] is 0. *)
Definition Number_attr (a : option Q) : Q :=
  match a with Some q => q | None => 0 end.

(** [x === null] for [x] a result of [Number(...)]: never true. *)
Definition number_is_null (x : Q) : bool := false.

(** The delay passed to [throttleFunction] in the brush listeners. *)
Definition THROTTLE_DELAY : nat := 300.

Section WithD3.

(** [scale(v)] of d3 for a scale of the given kind, domain and range;
    [None] when d3 returns [undefined] or NaN. *)
Variable d3_scale : scale_kind -> scale_domain -> Q * Q -> value -> option Q.

(** [getScale().domainToRange(v)] *)
Definition domainToRange (sc : AxisScale) (v : value) : option Q :=
  d3_scale (sc_kind sc) (sc_domain sc) (sc_range sc) v.

(** [statistics as { min; max }] read into a linear domain: on an array
    both members are [undefined]. *)
Definition linear_domain (st : statistics_t) : scale_domain :=
  match st with
  | StatMinMax lo hi => DomNum lo hi
  | StatCategories _ => DomNum JNaN JNaN
  end.

(** The constructor of [DefaultAxis]; d3 scales start with range [0, 1].
    [scalePoint().domain(x)] iterates [x] and throws on a plain object. *)
Definition new_axis (cls : AxisClass) (dim : Dimension) : result Axis :=
  match attr_type dim with
  | NUMERICAL =>
      Ok (mkAxis cls dim (mkScale LinearScale (linear_domain (statistics dim)) (0%Q, 1%Q))
            None false false None [] 0)
  | NOMINAL =>
      match statistics dim with
      | StatCategories cats =>
          Ok (mkAxis cls dim (mkScale PointScale (DomCat cats) (0%Q, 1%Q))
                None false false None [] 0)
      | StatMinMax _ _ => Throw ErrTypeError
      end
  end.

(** The constructor of [ObjectiveAxis]. *)
Definition new_ObjectiveAxis (dim : Dimension) : result Axis :=
  match attr_type dim with
  | NUMERICAL => new_axis ObjectiveAxisC dim
  | NOMINAL => Throw ErrObjectiveNotNumerical
  end.

Definition setDimension (ax : Axis) (dim : Dimension) : Axis :=
  mkAxis (axis_class ax) dim (scale ax) (brushGroup ax) (brushHandlerSet ax)
    (NANIndicatorEnabled ax) (timerId ax) (timeouts ax) (timer_seq ax).

(** [setScale(range, domain)]: a point scale iterates the domain and throws
    on an object; a linear scale reads it with [Array.from]. *)
Definition setScale (ax : Axis) (range : Q * Q) (domain : scale_domain)
  : result Axis :=
  match sc_kind (scale ax), domain with
  | PointScale, DomObject => Throw ErrTypeError
  | _, _ =>
      Ok (mkAxis (axis_class ax) (dimension ax)
            (mkScale (sc_kind (scale ax)) domain range)
            (brushGroup ax) (brushHandlerSet ax) (NANIndicatorEnabled ax)
            (timerId ax) (timeouts ax) (timer_seq ax))
  end.

Definition setNANIndicatorEnabled (ax : Axis) (enabled : bool) : Axis :=
  mkAxis (axis_class ax) (dimension ax) (scale ax) (brushGroup ax)
    (brushHandlerSet ax) enabled (timerId ax) (timeouts ax) (timer_seq ax).

(** [setBrushHandler]: from now on the brush listeners are registered. *)
Definition setBrushHandler (ax : Axis) : Axis :=
  mkAxis (axis_class ax) (dimension ax) (scale ax) (brushGroup ax) true
    (NANIndicatorEnabled ax) (timerId ax) (timeouts ax) (timer_seq ax).

(** [throttleFunction(func, delay, direction)] at time [now]: nothing when
    a timeout is already scheduled; otherwise a timeout is scheduled whose
    closure keeps [direction]. *)
Definition throttleFunction (now delay : nat)
  (direction : option BRUSHING_DIRECTION) (ax : Axis) : Axis :=
  match timerId ax with
  | Some _ => ax
  | None =>
      let id := S (timer_seq ax) in
      with_timer ax (Some id)
        (timeouts ax ++ [mkTimeout id (now + delay) direction])%list id
  end.

(** The runtime runs the timeout [id] of the axis at time [now], if it is
    pending and due: the closure calls [func(this.dimension.name,
    direction)] and resets [timerId]. *)
Definition run_timeout (now id : nat) (ax : Axis) : Axis * list Invocation :=
  match List.find (fun t => Nat.eqb (tm_id t) id) (timeouts ax) with
  | Some t =>
      if Nat.leb (tm_due t) now then
        (with_timer ax None
           (List.filter (fun t' => negb (Nat.eqb (tm_id t') id)) (timeouts ax))
           (timer_seq ax),
         [mkInvocation now (name (dimension ax)) (tm_direction t)])
      else (ax, [])
  | None => (ax, [])
  end.

(** The direction computed by the "brush" listener of [DefaultAxis] from
    the old bounds (the [y] of the labels) and the new brush range. *)
Definition brush_direction (currUpper currLower nextUpper nextLower : Q)
  : option BRUSHING_DIRECTION :=
  if negb (Qeq_bool (currUpper - currLower) (nextUpper - nextLower)) then
    if number_is_null currUpper || number_is_null currLower then Some SHRINK
    else if Qlt_bool currUpper nextUpper || Qlt_bool nextLower currLower
         then Some SHRINK
         else Some EXTEND
  else None.

(** The "brush" listener registered by [DefaultAxis.setBrushHandler]. *)
Definition on_brush_default (now : nat) (ax : Axis) : Axis :=
  let '(direction, bg') :=
    match brushGroup ax with
    | Some bg =>
        match selection bg with
        | Some (nextUpper, nextLower) =>
            (brush_direction (Number_attr (upper_y bg)) (Number_attr (lower_y bg))
               nextUpper nextLower,
             Some (mkBrushGroup (selection bg) (Some nextUpper) (Some nextLower)
                     (handle_custom_y bg)))
        | None => (None, Some bg)
        end
    | None => (None, None)
    end in
  throttleFunction now THROTTLE_DELAY direction (with_brushGroup ax bg').

(** The "end" listener registered by [DefaultAxis.setBrushHandler]: when
    the brush was removed the handler is called at once with EXTEND. *)
Definition on_end_default (now : nat) (ax : Axis) : list Invocation :=
  match brushGroup ax with
  | Some bg =>
      match selection bg with
      | None => [mkInvocation now (name (dimension ax)) (Some EXTEND)]
      | Some _ => []
      end
  | None => []
  end.

(** [this.dimension.obj === OPTIMIZATION_TYPE.X] *)
Definition obj_is (d : OPTIMIZATION_TYPE) (dim : Dimension) : bool :=
  match obj dim, d with
  | Some (ObjDir MIN), MIN | Some (ObjDir MAX), MAX => true
  | _, _ => false
  end.

(** The "brush" listener registered by [ObjectiveAxis.setBrushHandler]. *)
Definition on_brush_objective (now : nat) (ax : Axis) : Axis :=
  let '(direction, bg') :=
    match brushGroup ax with
    | Some bg =>
        match selection bg with
        | Some (r0, r1) =>
            let nextBound := if obj_is MAX (dimension ax) then r1 else r0 in
            let currBound :=
              match handle_custom_y bg with Some y => y | None => nextBound end in
            let direction :=
              if (obj_is MIN (dimension ax) && Qlt_bool currBound nextBound)
                 || (obj_is MAX (dimension ax) && Qlt_bool nextBound currBound)
              then SHRINK else EXTEND in
            (direction,
             Some (mkBrushGroup (selection bg) (upper_y bg) (lower_y bg)
                     (Some nextBound)))
        | None => (EXTEND, Some bg)
        end
    | None => (EXTEND, None)
    end in
  throttleFunction now THROTTLE_DELAY (Some direction) (with_brushGroup ax bg').

(** The listeners that d3 runs on a "brush" and on an "end" event. *)
Definition on_brush (now : nat) (ax : Axis) : Axis :=
  if brushHandlerSet ax then
    match axis_class ax with
    | ObjectiveAxisC => on_brush_objective now ax
    | _ => on_brush_default now ax
    end
  else ax.

Definition on_end (now : nat) (ax : Axis) : list Invocation :=
  if brushHandlerSet ax then
    match axis_class ax with
    | ObjectiveAxisC => []
    | _ => on_end_default now ax
    end
  else [].


(** [this.brush.move(this.brushGroup, sel)]: d3 stores [sel] as it is given
    and emits "start", "brush" and "end".  Nothing happens on a group
    without a node. *)
Definition brush_move (now : nat) (sel : option (Q * Q)) (ax : Axis)
  : Axis * list Invocation :=
  match brushGroup ax with
  | Some bg =>
      let ax1 :=
        on_brush now
          (with_brushGroup ax
             (Some (mkBrushGroup sel (upper_y bg) (lower_y bg)
                      (handle_custom_y bg)))) in
      (ax1, on_end now ax1)
  | None => (ax, [])
  end.

(** [clearBrush] of [DefaultAxis] (inherited by [ParameterAxis]). *)
Definition clearBrush_default (now : nat) (ax : Axis) : Axis * list Invocation :=
  brush_move now None ax.

(** [clearBrush] of [ObjectiveAxis]: the brush is moved to the full range
    [range[1], range[0]]. *)
Definition clearBrush_objective (now : nat) (ax : Axis) : Axis * list Invocation :=
  let range := sc_range (scale ax) in
  let fullRange := (snd range, fst range) in
  brush_move now (Some fullRange) ax.

Definition clearBrush (now : nat) (ax : Axis) : Axis * list Invocation :=
  match axis_class ax with
  | ObjectiveAxisC => clearBrush_objective now ax
  | _ => clearBrush_default now ax
  end.

(** [registerAxis]: [initCanvas] creates the brush group with its labels;
    the one of [ObjectiveAxis] ends with [clearBrush]. *)
Definition registerAxis (now : nat) (ax : Axis) : Axis * list Invocation :=
  let ax1 := with_brushGroup ax (Some (mkBrushGroup None None None None)) in
  match axis_class ax with
  | ObjectiveAxisC => clearBrush_objective now ax1
  | _ => (ax1, [])
  end.

(** The brush selection that is active on the axis, if any. *)
Definition active_selection (ax : Axis) : option (Q * Q) :=
  match brushGroup ax with
  | Some bg => selection bg
  | None => None
  end.

(** What happens to one axis over time: a "brush" listener calls
    [throttleFunction] with a direction, or the runtime runs a timeout.
    Each event comes [dt] milliseconds after the one before. *)
Inductive event : Type :=
| Call (dt : nat) (direction : option BRUSHING_DIRECTION)
| Fire (dt : nat) (id : nat).

(** The time, the axis and the calls of the brush handler so far. *)
Record Run : Type := mkRun {
  run_now : nat;
  run_axis : Axis;
  run_log : list Invocation
}.

Definition step (r : Run) (ev : event) : Run :=
  match ev with
  | Call dt direction =>
      let now := run_now r + dt in
      mkRun now (throttleFunction now THROTTLE_DELAY direction (run_axis r))
        (run_log r)
  | Fire dt id =>
      let now := run_now r + dt in
      let '(ax', invs) := run_timeout now id (run_axis r) in
      mkRun now ax' (run_log r ++ invs)%list
  end.


(** [isBrushed(domainValue)] *)
Definition isBrushed (ax : Axis) (domainValue : value) : bool :=
  match brushGroup ax with
  | Some bg =>
      match selection bg with
      | Some brushRange =>
          if is_NaN_marker domainValue then false
          else
            let brushedRange := (snd brushRange, fst brushRange) in
            match domainToRange (scale ax) domainValue with
            | Some rangeVal =>
                Qle_bool (round6 rangeVal) (round6 (fst brushedRange))
                && Qle_bool (round6 (snd brushedRange)) (round6 rangeVal)
            | None => false
            end
      | None => true
      end
  | None => true
  end.

End WithD3.

End Axis.

(** ** LineBrush.ts *)

Record Point : Type := mkPoint { px : Q; py : Q }.

Module LineBrush.

(** The closure state of [lineBrush(...)] after [brush(group)] has run.
    [line_d] is the [d] attribute of [path.linebrush] as last rendered, the
    straight line between two points; [shown] is its rendered display.
    [listeners] tells whether the drag listeners of the head and tail
    circles are registered, [dragHeadActive] and [dragTailActive] are their
    flags. *)
Record State : Type := mkState {
  started : bool;
  ended : bool;
  visible : bool;
  start : Point;
  end_ : Point;
  line_d : Point * Point;
  shown : bool;
  listeners : bool;
  dragHeadActive : bool;
  dragTailActive : bool
}.

Definition origin : Point := mkPoint 0 0.

(** The brush after [initCanvas]. *)
Definition init : State :=
  mkState false false false origin origin (origin, origin) false false false false.

(** [brush.render] *)
Definition render (s : State) : State :=
  mkState (started s) (ended s) (visible s) (start s) (end_ s)
    (start s, end_ s) (visible s)
    (listeners s) (dragHeadActive s) (dragTailActive s).

Definition setStart (p : Point) (s : State) : State :=
  mkState (started s) (ended s) (visible s) p (end_ s) (line_d s) (shown s)
    (listeners s) (dragHeadActive s) (dragTailActive s).

Definition setEnd (p : Point) (s : State) : State :=
  mkState (started s) (ended s) (visible s) (start s) p (line_d s) (shown s)
    (listeners s) (dragHeadActive s) (dragTailActive s).

(** [brush.evolve] *)
Definition evolve (position : Point) (s : State) : State :=
  render (if started s && negb (ended s) then setEnd position s else s).

(** [brush.process]: the final state and, when [brushCallback] was called,
    the state the callback saw (the call comes before the last [render]). *)
Definition process (position : Point) (s : State) : State * option State :=
  if negb (started s) then
    (render
       (mkState true false true position position (line_d s) (shown s)
          (listeners s) (dragHeadActive s) (dragTailActive s)),
     None)
  else if negb (ended s) then
    let s1 :=
      mkState (started s) true (visible s) (start s) position (line_d s)
        (shown s) true false false in
    (render s1, Some s1)
  else (render s, None).

(** [brush.cancel] *)
Definition cancel (s : State) : State * option State :=
  let s1 :=
    mkState false false false (start s) (end_ s) (line_d s) (shown s)
      false (dragHeadActive s) (dragTailActive s) in
  (render s1, Some s1).

(** The listeners of the head and tail circles and of the hidden rect. *)
Definition head_mousedown (s : State) : State :=
  if listeners s then
    mkState (started s) (ended s) (visible s) (start s) (end_ s) (line_d s)
      (shown s) (listeners s) true (dragTailActive s)
  else s.

Definition head_mouseup (s : State) : State * option State :=
  if listeners s then
    let s1 :=
      mkState (started s) (ended s) (visible s) (start s) (end_ s) (line_d s)
        (shown s) (listeners s) false (dragTailActive s) in
    (s1, Some s1)
  else (s, None).

Definition tail_mousedown (s : State) : State :=
  if listeners s then
    mkState (started s) (ended s) (visible s) (start s) (end_ s) (line_d s)
      (shown s) (listeners s) (dragHeadActive s) true
  else s.

Definition tail_mouseup (s : State) : State * option State :=
  if listeners s then
    let s1 :=
      mkState (started s) (ended s) (visible s) (start s) (end_ s) (line_d s)
        (shown s) (listeners s) (dragHeadActive s) false in
    (s1, Some s1)
  else (s, None).

(** A mouse move over the rect: [evolve], then the listeners
    [mousemove.dragHead] and [mousemove.dragTail] when registered. *)
Definition mousemove (position : Point) (s : State) : State :=
  let s1 := evolve position s in
  let s2 :=
    if listeners s1 && dragHeadActive s1
    then render (setStart position s1) else s1 in
  if listeners s2 && dragTailActive s2
  then render (setEnd position s2) else s2.

(** The input events of the line brush and what its listeners make of
    them (the calls of [brushCallback] are left to the chart). *)
Inductive event : Type :=
| Click (p : Point)
| MouseMove (p : Point)
| Escape
| HeadDown
| HeadUp
| TailDown
| TailUp.

Definition handle (s : State) (ev : event) : State :=
  match ev with
  | Click p => fst (process p s)
  | MouseMove p => mousemove p s
  | Escape => fst (cancel s)
  | HeadDown => head_mousedown s
  | HeadUp => fst (head_mouseup s)
  | TailDown => tail_mousedown s
  | TailUp => fst (tail_mouseup s)
  end.

(** The brush after a sequence of events, starting from [init]. *)
Definition run (evs : list event) : State := fold_left handle evs init.

Section WithRaphael.

(** The text of a [d] attribute of a data item's path. *)
Variable PathD : Type.

(** [Raphael.pathIntersection(pathDescr, lineDescr)], the second path being
    the straight line between two points. *)
Variable pathIntersection : PathD -> Point * Point -> list Point.

(** [brush.brushed(path)]; the argument is the [d] attribute of the path,
    [None] when it is absent or empty. *)
Definition brushed (s : State) (pathDescr : option PathD) : bool :=
  if visible s then
    match pathDescr with
    | Some descr =>
        negb (Nat.eqb (List.length (pathIntersection descr (line_d s))) 0)
    | None => true
    end
  else true.

End WithRaphael.

End LineBrush.

(** ** ParallelCoordinates.ts, MultiCriteriaParallelCoordinates.ts *)

Module Chart.

Import Axis.

Section WithLibraries.

Variable d3_scale : scale_kind -> scale_domain -> Q * Q -> value -> option Q.

(** [xScale(name)] of the point scale with range [0, width] and the given
    domain; [None] for [undefined]. *)
Variable d3_scalePoint : Q -> list string -> string -> option Q.

Variable PathD : Type.
Variable pathIntersection : PathD -> Point * Point -> list Point.

(** The line generator ([curveSmoothing] selects the curve) applied to the
    points of a path; an [x] is [None] when [position] is [undefined]. *)
Variable d3_line : bool -> list (option Q * Q) -> option PathD.

(** A path of class [polyline] in the foreground group: its bound datum,
    whether it has the class [brushed], and its [d] attribute. *)
Record Polyline : Type := mkPolyline {
  datum : DataRow;
  brushed : bool;
  d : option PathD
}.

(** The chart.  [data] is [None] until [setRows] has assigned it;
    [lineBrush] is [Some] for a [MultiCriteriaParallelCoordinates] and
    [None] for a plain [ParallelCoordinates]; [clock] is the current time
    of the runtime. *)
Record Chart : Type := mkChart {
  data : option DataRows;
  dimensions : list Dimension;
  options : PAVEDOptions;
  canvasHeight : Q;
  canvasWidth : Q;
  xScale_domain : list string;
  axes : gmap string Axis;
  dragging : gmap string (option Q);
  polylines : list Polyline;
  lineBrush : option LineBrush.State;
  clock : nat
}.

Definition set_data (x : option DataRows) (c : Chart) : Chart :=
  mkChart x (dimensions c) (options c)
    (canvasHeight c) (canvasWidth c) (xScale_domain c) (axes c) (dragging c)
    (polylines c) (lineBrush c) (clock c).

Definition set_dimensions (x : list Dimension) (c : Chart) : Chart :=
  mkChart (data c) x (options c)
    (canvasHeight c) (canvasWidth c) (xScale_domain c) (axes c) (dragging c)
    (polylines c) (lineBrush c) (clock c).

Definition set_xScale_domain (x : list string) (c : Chart) : Chart :=
  mkChart (data c) (dimensions c) (options c)
    (canvasHeight c) (canvasWidth c) x (axes c) (dragging c)
    (polylines c) (lineBrush c) (clock c).

Definition set_axes (x : gmap string Axis) (c : Chart) : Chart :=
  mkChart (data c) (dimensions c) (options c)
    (canvasHeight c) (canvasWidth c) (xScale_domain c) x (dragging c)
    (polylines c) (lineBrush c) (clock c).

Definition set_dragging (x : gmap string (option Q)) (c : Chart) : Chart :=
  mkChart (data c) (dimensions c) (options c)
    (canvasHeight c) (canvasWidth c) (xScale_domain c) (axes c) x
    (polylines c) (lineBrush c) (clock c).

Definition set_polylines (x : list Polyline) (c : Chart) : Chart :=
  mkChart (data c) (dimensions c) (options c)
    (canvasHeight c) (canvasWidth c) (xScale_domain c) (axes c) (dragging c)
    x (lineBrush c) (clock c).


(** The chart after the constructors: [initMemberVariables] computes the
    canvas from the options; [multi] tells whether the chart is a
    [MultiCriteriaParallelCoordinates], which has a line brush. *)
Definition initMemberVariables (multi : bool) (opts : PAVEDOptions) (now : nat)
  : Chart :=
  mkChart None [] opts
    (height opts - padding_top opts - padding_bottom opts)
    (width opts - padding_left opts - padding_right opts)
    [] ∅ ∅ []
    (if multi then Some LineBrush.init else None) now.

(** *** Methods that mutate the chart and may throw *)

(** A method: from the chart before the call to the chart after it and
    either the returned value or the error thrown.  The chart that comes
    with an error is the chart as the throw left it. *)
Definition M (A : Type) : Type := Chart -> Chart * result A.

Definition ret {A} (a : A) : M A := fun c => (c, Ok a).

Definition throw {A} (e : error) : M A := fun c => (c, Throw e).

Definition bind {A B} (m : M A) (k : A -> M B) : M B :=
  fun c =>
    match m c with
    | (c', Ok a) => k a c'
    | (c', Throw e) => (c', Throw e)
    end.

Definition get : M Chart := fun c => (c, Ok c).

Definition modify (f : Chart -> Chart) : M Datatypes.unit := fun c => (f c, Ok tt).

Definition lift {A} (r : result A) : M A := fun c => (c, r).

Notation "'do' x <- m ; k" := (bind m (fun x => k))
  (at level 10, x name, m at level 100, k at level 200).
Notation "'run' m ; k" := (bind m (fun _ => k))
  (at level 10, m at level 100, k at level 200).

(** [xs.forEach(f)] *)
Fixpoint forEach {A} (f : A -> M Datatypes.unit) (xs : list A) : M Datatypes.unit :=
  match xs with
  | [] => ret tt
  | x :: rest => run f x; forEach f rest
  end.

(** *** Selection *)

(** [isBrushed(node)] of [ParallelCoordinates]: every axis brushes the
    item's value for the axis's dimension. *)
Definition isBrushed_axes (c : Chart) (item : DataRow) : bool :=
  forallb
    (fun ax => Axis.isBrushed d3_scale ax (row_get item (name (dimension ax))))
    (map snd (map_to_list (axes c))).

(** [isBrushed(node)] of the chart, with the override of
    [MultiCriteriaParallelCoordinates]. *)
Definition isBrushed (c : Chart) (node : Polyline) : bool :=
  let brushedByAxes := isBrushed_axes c (datum node) in
  let brushedByLine :=
    match lineBrush c with
    | Some lb => LineBrush.brushed PathD pathIntersection lb (d node)
    | None => true
    end in
  brushedByAxes && brushedByLine.

Definition set_brushed (b : bool) (node : Polyline) : Polyline :=
  mkPolyline (datum node) b (d node).

(** The body of [brush(dir)] for one polyline of the foreground. *)
Definition brush_node (c : Chart) (dir : option BRUSHING_DIRECTION)
  (node : Polyline) : Polyline :=
  match dir with
  | Some EXTEND =>
      (* .polyline:not(.brushed) *)
      if negb (brushed node) then
        if isBrushed c node then set_brushed true node else node
      else node
  | Some SHRINK =>
      (* .polyline.brushed *)
      if brushed node then
        if negb (isBrushed c node) then set_brushed false node else node
      else node
  | None => set_brushed (isBrushed c node) node
  end.

(** [brush(dir)] *)
Definition brush (dir : option BRUSHING_DIRECTION) (c : Chart) : Chart :=
  set_polylines (map (brush_node c dir) (polylines c)) c.

(** The chart runs its brush handler for the calls an axis made. *)
Definition run_invocations (invs : list Invocation) (c : Chart) : Chart :=
  fold_left (fun c' inv => brush (inv_direction inv) c') invs c.

(** *** Layout *)

(** [this.xScale(name)] *)
Definition xScale (c : Chart) (dim : string) : option Q :=
  d3_scalePoint (canvasWidth c) (xScale_domain c) dim.

(** [position(dim)] *)
Definition position (c : Chart) (dim : string) : option Q :=
  match dragging c !! dim with
  | Some x => x
  | None => xScale c dim
  end.

(** [path(item)]; reading the scale of a missing axis is a TypeError. *)
Fixpoint pathPoints (c : Chart) (item : DataRow) (dims : list Dimension)
  : result (list (option Q * Q)) :=
  match dims with
  | [] => Ok []
  | dim :: rest =>
      match axes c !! name dim with
      | None => Throw ErrTypeError
      | Some ax =>
          let y :=
            match domainToRange d3_scale (scale ax) (row_get item (name dim)) with
            | None => (canvasHeight c + 15)%Q
            | Some rangeVal => rangeVal
            end in
          match pathPoints c item rest with
          | Throw e => Throw e
          | Ok pts => Ok ((position c (name dim), y) :: pts)
          end
      end
  end.

Definition path (c : Chart) (item : DataRow) : result (option PathD) :=
  match pathPoints c item (dimensions c) with
  | Throw e => Throw e
  | Ok pts => Ok (d3_line (curveSmoothing (options c)) pts)
  end.

(** [selectAll(".polyline").attr("d", item => this.path(item))] *)
Fixpoint redraw_lines (c : Chart) (nodes : list Polyline)
  : result (list Polyline) :=
  match nodes with
  | [] => Ok []
  | node :: rest =>
      match path c (datum node) with
      | Throw e => Throw e
      | Ok descr =>
          match redraw_lines c rest with
          | Throw e => Throw e
          | Ok rest' => Ok (mkPolyline (datum node) (brushed node) descr :: rest')
          end
      end
  end.

(** The comparator of the sort in the drag listener,
    [position(dim.name) - position(other.name)], is negative. *)
Definition position_lt (c : Chart) (dim other : Dimension) : bool :=
  match position c (name dim), position c (name other) with
  | Some p, Some q => Qlt_bool p q
  | _, _ => false
  end.

(** [Array.prototype.sort] with that comparator: the sort is stable, an
    element moves before another one only when the comparator says so. *)
Fixpoint sort_insert (c : Chart) (x : Dimension) (sorted : list Dimension)
  : list Dimension :=
  match sorted with
  | [] => [x]
  | y :: rest =>
      if position_lt c y x then y :: sort_insert c x rest
      else x :: y :: rest
  end.

Definition sort_by_position (c : Chart) (dims : list Dimension) : list Dimension :=
  fold_right (sort_insert c) [] dims.

(** The "start" listener of the axis drag. *)
Definition drag_start (dim : Dimension) (c : Chart) : Chart :=
  set_dragging (<[name dim := xScale c (name dim)]> (dragging c)) c.

(** The "drag" listener of the axis drag, for a pointer at [event_x]. *)
Definition drag_move (dim : Dimension) (event_x : Q) : M Datatypes.unit :=
  run modify (fun c =>
       set_dragging
         (<[name dim := Some (Qmin (width (options c)) (Qmax 0 event_x))]>
            (dragging c))
         c);
  run modify (fun c => set_dimensions (sort_by_position c (dimensions c)) c);
  run modify (fun c => set_xScale_domain (map name (dimensions c)) c);
  do c <- get;
  do nodes <- lift (redraw_lines c (polylines c));
  modify (set_polylines nodes).

(** The "end" listener of the axis drag. *)
Definition drag_end (dim : Dimension) : M Datatypes.unit :=
  run modify (fun c => set_dragging (delete (name dim) (dragging c)) c);
  do c <- get;
  do nodes <- lift (redraw_lines c (polylines c));
  run modify (set_polylines nodes);
  modify (fun c => set_xScale_domain (map name (dimensions c)) c).

(** *** Timers and brush events of the axes, seen from the chart *)






(** *** Data update *)

(** [dims.find(d => d.name === n)] *)
Definition find_dim (n : string) (dims : list Dimension) : option Dimension :=
  List.find (fun dim => bool_decide (name dim = n)) dims.

(** [dims.map(d => d.name).indexOf(n) >= 0] *)
Definition has_name (n : string) (dims : list Dimension) : bool :=
  existsb (fun dim => bool_decide (name dim = n)) dims.

(** The body of the [forEach] of [setRows] for one derived column. *)
Definition merge_column (old : list Dimension) (col : Dimension)
  : result Dimension :=
  match find_dim (name col) old with
  | Some existingDim =>
      if bool_decide (attr_type col = attr_type existingDim) then
        Ok (mkDimension (name col)
              (match unit col with Some u => Some u | None => unit existingDim end)
              (attr_type col)
              (match color col with Some x => Some x | None => color existingDim end)
              (statistics col)
              (match obj col with Some o => Some o | None => obj existingDim end))
      else Throw (ErrTypeChanged (name col))
  | None => Ok col
  end.

Fixpoint merge_columns (old : list Dimension) (columns : list Dimension)
  : result (list Dimension) :=
  match columns with
  | [] => Ok []
  | col :: rest =>
      match merge_column old col with
      | Throw e => Throw e
      | Ok col' =>
          match merge_columns old rest with
          | Throw e => Throw e
          | Ok rest' => Ok (col' :: rest')
          end
      end
  end.

(** [generateAxis], with the override of
    [MultiCriteriaParallelCoordinates]. *)
Definition generateAxis (c : Chart) (dim : Dimension) : result Axis :=
  match lineBrush c with
  | Some _ =>
      if hasTypeObjective dim then new_ObjectiveAxis dim
      else new_axis ParameterAxisC dim
  | None => new_axis DefaultAxisC dim
  end.

(** [updateAxis(axis)] *)
Definition updateAxis (ax : Axis) : M Datatypes.unit :=
  do c <- get;
  let dim := dimension ax in
  let range := (canvasHeight c, 0%Q) in
  let domain :=
    match attr_type dim with
    | NUMERICAL => linear_domain (statistics dim)
    | NOMINAL =>
        match statistics dim with
        | StatCategories cats => DomCat cats
        | StatMinMax _ _ => DomObject
        end
    end in
  do ax1 <- lift (setScale ax range domain);
  match data c with
  | None => throw ErrTypeError
  | Some rows =>
      let invalidDimValues :=
        List.filter is_NaN_marker (map (fun item => row_get item (name dim)) rows) in
      let ax2 :=
        setNANIndicatorEnabled ax1 (Nat.ltb 0 (List.length invalidDimValues)) in
      modify (fun c => set_axes (<[name dim := ax2]> (axes c)) c)
  end.

(** [toBeModified.findIndex(...)] and [toBeModified.splice(itemIdx, 1)[0]]:
    the first dimension of that name is taken out; with no such dimension
    the index is -1 and [splice] takes the last element. *)
Fixpoint take_named (n : string) (dims : list Dimension)
  : option (Dimension * list Dimension) :=
  match dims with
  | [] => None
  | dim :: rest =>
      if bool_decide (name dim = n) then Some (dim, rest)
      else
        match take_named n rest with
        | Some (x, rest') => Some (x, dim :: rest')
        | None => None
        end
  end.

Definition splice_named (n : string) (dims : list Dimension)
  : option Dimension * list Dimension :=
  match take_named n dims with
  | Some (x, rest) => (Some x, rest)
  | None => (List.last (map Some dims) None, List.removelast dims)
  end.

(** The loop of [updateAxes] over the copy of [toBeModified]: dimensions
    that became or ceased to be objectives are moved to [toBeRemoved] and
    [toBeAdded].  The lists are (toBeModified, toBeRemoved, toBeAdded); an
    [undefined] pushed to them makes the loops after it throw a TypeError
    before they change anything. *)
Fixpoint regroup (oldDimensions copy : list Dimension)
  (lists : list Dimension * list Dimension * list Dimension)
  : result (list Dimension * list Dimension * list Dimension) :=
  match copy with
  | [] => Ok lists
  | dim :: rest =>
      let '(toBeModified, toBeRemoved, toBeAdded) := lists in
      match find_dim (name dim) oldDimensions with
      | Some oldDim =>
          if xorb (hasTypeObjective dim) (hasTypeObjective oldDim) then
            match splice_named (name dim) toBeModified with
            | (Some toBeGenerated, toBeModified') =>
                regroup oldDimensions rest
                  (toBeModified', (toBeRemoved ++ [toBeGenerated])%list,
                   (toBeAdded ++ [toBeGenerated])%list)
            | (None, _) => Throw ErrTypeError
            end
          else regroup oldDimensions rest lists
      | None => regroup oldDimensions rest lists
      end
  end.

(** [updateAxes(oldDimensions)] *)
Definition updateAxes (oldDimensions : list Dimension) : M Datatypes.unit :=
  run modify (fun c => set_xScale_domain (map name (dimensions c)) c);
  do c <- get;
  let toBeRemoved :=
    List.filter (fun oldDim => negb (has_name (name oldDim) (dimensions c)))
      oldDimensions in
  let toBeAdded :=
    List.filter (fun dim => negb (has_name (name dim) oldDimensions))
      (dimensions c) in
  let toBeModified :=
    List.filter (fun dim => has_name (name dim) oldDimensions) (dimensions c) in
  do lists <- lift (regroup oldDimensions toBeModified
                      (toBeModified, toBeRemoved, toBeAdded));
  let '(toBeModified, toBeRemoved, toBeAdded) := lists in
  run forEach
        (fun dim => modify (fun c => set_axes (delete (name dim) (axes c)) c))
        toBeRemoved;
  run forEach
        (fun dim =>
           do c <- get;
           match axes c !! name dim with
           | None => throw ErrTypeError
           | Some ax =>
               let '(ax', invs) := clearBrush (clock c) (setDimension ax dim) in
               run modify (fun c =>
                     run_invocations invs
                       (set_axes (<[name dim := ax']> (axes c)) c));
               updateAxis ax'
           end)
        toBeModified;
  forEach
    (fun dim =>
       do c <- get;
       do ax <- lift (generateAxis c dim);
       updateAxis (setBrushHandler ax))
    toBeAdded.

(** [dimensions.every(dim => this.data.every(row => dim.name in row))] *)
Definition isSubset (c : Chart) (dims : list Dimension) : result bool :=
  match dims, data c with
  | [], _ => Ok true
  | _ :: _, None => Throw ErrTypeError
  | _ :: _, Some rows =>
      Ok (forallb (fun dim => forallb (has_key (name dim)) rows) dims)
  end.

(** [setDimensions(dimensions)] *)
Definition setDimensions (dims : list Dimension) : M Datatypes.unit :=
  do c <- get;
  let oldDimensions := dimensions c in
  do ok <- lift (isSubset c dims);
  if ok : bool then
    run modify (set_dimensions dims);
    updateAxes oldDimensions
  else throw ErrDimensionMismatch.

(** [setRows(rows)] *)
Definition setRows (rows : DataRows) : M Datatypes.unit :=
  do prepared <- lift (Data.prepareData rows);
  let '(columns, modifiedRows) := prepared in
  run modify (set_data (Some modifiedRows));
  do c <- get;
  do columns' <- lift (merge_columns (dimensions c) columns);
  setDimensions columns'.

(** [setDimensionSubset(dimensions)] *)
Definition setDimensionSubset (names : list string) : M Datatypes.unit :=
  do c <- get;
  setDimensions
    (List.filter (fun oldDim => bool_decide (name oldDim ∈ names)) (dimensions c)).

(** [clearBrushes()] *)
Definition clearBrushes : M Datatypes.unit :=
  do c <- get;
  forEach
    (fun dim =>
       do c <- get;
       match axes c !! name dim with
       | None => throw ErrTypeError
       | Some ax =>
           let '(ax', invs) := clearBrush (clock c) ax in
           modify (fun c =>
             run_invocations invs (set_axes (<[name dim := ax']> (axes c)) c))
       end)
    (dimensions c).

End WithLibraries.

End Chart.

(** * Vocabulary of the properties *)

(** ** Numbers and data *)

Module DataSpec.

(** A number that is not NaN. *)
Definition nonNaN (n : jsnumber) : Prop := isNaN n = false.

(** A value that counts as numerical: a number or the invalid marker. *)
Definition numeric_or_invalid (v : value) : Prop :=
  (exists n, v = VNum n) \/ v = NaN_marker.

(** A value that is a string. *)
Definition is_string (v : value) : Prop := exists s, v = VStr s.

(** The numbers of a column that take part in its statistics. *)
Definition valid_numbers (vals : list value) : list jsnumber :=
  List.filter (fun n => negb (isNaN n)) (map Number_of vals).



End DataSpec.

(** ** Axes *)

Module AxisSpec.

Import Axis.


(** A linear scale in the manner of d3, for the examples: the domain
    [d0, d1] is mapped onto the range [r0, r1] by linear interpolation, a
    degenerate domain onto the middle of the range; everything that is not
    a finite number has no image. *)
Definition linear_example (k : scale_kind) (dom : scale_domain) (range : Q * Q)
  (v : value) : option Q :=
  match k, dom, v with
  | LinearScale, DomNum (JFin d0) (JFin d1), VNum (JFin x) =>
      let t := if Qeq_bool d0 d1 then (1 # 2)%Q else ((x - d0) / (d1 - d0))%Q in
      Some (Qred (fst range + t * (snd range - fst range)))
  | _, _, _ => None
  end.

(** A numerical axis "Speed" with domain [0, 100] and pixel range
    [0, 300], registered, with the given brush selection. *)
Definition speed_axis (sel : option (Q * Q)) : Axis :=
  mkAxis DefaultAxisC
    (mkDimension "Speed" None NUMERICAL None (StatMinMax (JFin 0) (JFin 100)) None)
    (mkScale LinearScale (DomNum (JFin 0) (JFin 100)) (0%Q, 300%Q))
    (Some (mkBrushGroup sel None None None)) true false None [] 0.

End AxisSpec.

(** ** Paths *)

Module LineBrushSpec.

(** The intersection of two segments, for the examples: the point where
    the segment [a b] meets the segment [c d], if the segments are not
    parallel and meet. *)
Definition cross (u v : Q * Q) : Q := (fst u * snd v - snd u * fst v)%Q.

Definition segment_intersection (a b c d : Point) : list Point :=
  let ab := (px b - px a, py b - py a)%Q in
  let cd := (px d - px c, py d - py c)%Q in
  let ac := (px c - px a, py c - py a)%Q in
  let den := cross ab cd in
  if Qeq_bool den 0 then []
  else
    let t := (cross ac cd / den)%Q in
    let u := (cross ac ab / den)%Q in
    if Qle_bool 0 t && Qle_bool t 1 && Qle_bool 0 u && Qle_bool u 1
    then [mkPoint (Qred (px a + t * fst ab)) (Qred (py a + t * snd ab))]
    else [].

(** A path through the given points with straight segments, met with the
    line between two points. *)
Fixpoint polyline_intersection (path : list Point) (line : Point * Point)
  : list Point :=
  match path with
  | a :: (b :: _) as rest =>
      (segment_intersection a b (fst line) (snd line)
       ++ polyline_intersection rest line)%list
  | _ => []
  end.

(** What holds of the line brush between two events: it is shown exactly
    while a line is started, the listeners of the handles are registered
    exactly while the line is complete, and the rendered line and its
    display are those of the current state. *)
Record in_sync (s : LineBrush.State) : Prop := mkInSync {
  sync_visible : LineBrush.visible s = LineBrush.started s;
  sync_ended : LineBrush.ended s = true -> LineBrush.started s = true;
  sync_listeners :
    LineBrush.listeners s = LineBrush.started s && LineBrush.ended s;
  sync_line : LineBrush.line_d s = (LineBrush.start s, LineBrush.end_ s);
  sync_shown : LineBrush.shown s = LineBrush.visible s
}.

(** An event that is not a click on the canvas. *)
Definition not_click (ev : LineBrush.event) : bool :=
  match ev with LineBrush.Click _ => false | _ => true end.

End LineBrushSpec.

(** ** The chart *)

Module ChartSpec.

Import Axis Chart.

Section WithLibraries.

Variable d3_scale : scale_kind -> scale_domain -> Q * Q -> value -> option Q.
Variable d3_scalePoint : Q -> list string -> string -> option Q.
Variable PathD : Type.
Variable pathIntersection : PathD -> Point * Point -> list Point.

(** The range brush of an axis selects an item. *)
Definition axis_selects (ax : Axis) (item : DataRow) : bool :=
  Axis.isBrushed d3_scale ax (row_get item (name (dimension ax))).

(** The line brush of the chart, if it has one, selects a path. *)
Definition line_selects (c : Chart PathD) (descr : option PathD) : bool :=
  match lineBrush PathD c with
  | Some lb => LineBrush.brushed PathD pathIntersection lb descr
  | None => true
  end.

(** The class [brushed] of every polyline tells whether the brushes of the
    chart [c0] select it. *)
Definition consistent (c0 : Chart PathD) (nodes : list (Polyline PathD)) : Prop :=
  Forall
    (fun node =>
       brushed PathD node = Chart.isBrushed d3_scale PathD pathIntersection c0 node)
    nodes.

(** The chart [c] is the chart [c0] with one brush replaced by a brush
    that selects at least what the old one selected. *)
Inductive one_brush_grew (c0 c : Chart PathD) : Prop :=
| axis_brush_grew (key : string) (a0 a1 : Axis) :
    axes PathD c0 !! key = Some a0 ->
    axes PathD c = <[key := a1]> (axes PathD c0) ->
    lineBrush PathD c = lineBrush PathD c0 ->
    (forall item, axis_selects a0 item = true -> axis_selects a1 item = true) ->
    one_brush_grew c0 c
| line_brush_grew :
    axes PathD c = axes PathD c0 ->
    (forall descr, line_selects c0 descr = true -> line_selects c descr = true) ->
    one_brush_grew c0 c.

(** The hint [dir] tells truly how the brushes changed from [c0] to [c]. *)
Definition hint_accurate (dir : option BRUSHING_DIRECTION)
  (c0 c : Chart PathD) : Prop :=
  match dir with
  | None => True
  | Some EXTEND => one_brush_grew c0 c
  | Some SHRINK => one_brush_grew c c0
  end.

(** One step of a run of passes: the brushes change to those of the chart
    [fst step], and the pass with the hint [snd step] follows. *)
Definition next_pass (c : Chart PathD)
  (step : Chart PathD * option BRUSHING_DIRECTION) : Chart PathD :=
  brush d3_scale PathD pathIntersection (snd step)
    (set_polylines PathD (polylines PathD c) (fst step)).

(** Every hint of a run is accurate at the moment of its pass. *)
Fixpoint hints_accurate (c : Chart PathD)
  (steps : list (Chart PathD * option BRUSHING_DIRECTION)) : Prop :=
  match steps with
  | [] => True
  | step :: rest =>
      hint_accurate (snd step) c
        (set_polylines PathD (polylines PathD c) (fst step)) /\
      hints_accurate (next_pass c step) rest
  end.

(** The axis [a] is not to the right of the axis [b]. *)
Definition pos_le (c : Chart PathD) (a b : Dimension) : Prop :=
  exists p q, position d3_scalePoint PathD c (name a) = Some p /\
              position d3_scalePoint PathD c (name b) = Some q /\ (p <= q)%Q.

(** The pointer position as the drag listener stores it. *)
Definition clamp_pointer (c : Chart PathD) (event_x : Q) : Q :=
  Qmin (width (options PathD c)) (Qmax 0 event_x).


(** An axis of class [DefaultAxis] or [ParameterAxis] that is registered
    and has its brush handler set. *)
Definition listening (ax : Axis) : Prop :=
  axis_class ax <> ObjectiveAxisC /\ brushHandlerSet ax = true /\
  is_Some (brushGroup ax).


(** Everything of the chart but its axes and the classes of its polylines
    is in [c'] as it is in [c]. *)
Definition same_frame (c c' : Chart PathD) : Prop :=
  data PathD c' = data PathD c /\
  dimensions PathD c' = dimensions PathD c /\
  options PathD c' = options PathD c /\
  canvasHeight PathD c' = canvasHeight PathD c /\
  canvasWidth PathD c' = canvasWidth PathD c /\
  xScale_domain PathD c' = xScale_domain PathD c /\
  dragging PathD c' = dragging PathD c /\
  lineBrush PathD c' = lineBrush PathD c /\
  clock PathD c' = clock PathD c /\
  map (datum PathD) (polylines PathD c') = map (datum PathD) (polylines PathD c) /\
  map (d PathD) (polylines PathD c') = map (d PathD) (polylines PathD c).

(** The domain that [updateAxis] gives to the scale of an axis for [dim]. *)
Definition axis_domain (dim : Dimension) : scale_domain :=
  match attr_type dim with
  | NUMERICAL => linear_domain (statistics dim)
  | NOMINAL =>
      match statistics dim with
      | StatCategories cats => DomCat cats
      | StatMinMax _ _ => DomObject
      end
  end.

(** The axis [ax] is bound to one of the dimensions [dims], of name [k],
    and scaled for it on the canvas and the rows of the chart [c]; its
    indicator of invalid values is on exactly when a row holds the marker
    ["NaN"] for [k]; and unless it is an objective axis it has no brush
    selection. *)
Definition axis_updated (c : Chart PathD) (dims : list Dimension) (k : string)
  (ax : Axis) : Prop :=
  name (dimension ax) = k /\ dimension ax ∈ dims /\
  sc_range (scale ax) = (canvasHeight PathD c, 0%Q) /\
  sc_domain (scale ax) = axis_domain (dimension ax) /\
  (forall rows, data PathD c = Some rows ->
     (NANIndicatorEnabled ax = true <->
      exists row, row ∈ rows /\ row_get row k = NaN_marker)) /\
  (axis_class ax <> ObjectiveAxisC -> active_selection ax = None).

End WithLibraries.

End ChartSpec.

(** ** A concrete chart *)

Module Scenario.

Import Axis Chart.

(** Stand-ins for d3 and Raphael in the scenarios: the linear scale of
    [AxisFacts.linear_example], evenly spaced axis positions, paths as
    their points and the intersection of straight segments. *)
Definition PathD : Type := list Point.

Fixpoint index_of (n : string) (l : list string) : option nat :=
  match l with
  | [] => None
  | x :: rest =>
      if bool_decide (x = n) then Some 0
      else match index_of n rest with Some i => Some (S i) | None => None end
  end.

Definition point_example (width : Q) (domain : list string) (n : string)
  : option Q :=
  match index_of n domain with
  | None => None
  | Some i =>
      let k := inject_Z (Z.of_nat (Nat.max 1 (length domain - 1))) in
      let last := inject_Z (Z.of_nat (length domain - 1)) in
      let step := (width / k)%Q in
      let start := ((width - step * last) / 2)%Q in
      Some (Qred (start + step * inject_Z (Z.of_nat i)))
  end.

Definition line_example (smoothing : bool) (pts : list (option Q * Q))
  : option PathD :=
  match pts with
  | [] => None
  | _ => Some (map (fun pt => mkPoint (default 0%Q (fst pt)) (snd pt)) pts)
  end.

Definition numerical (n : string) : Dimension :=
  mkDimension n None NUMERICAL None (StatMinMax (JFin 0) (JFin 100)) None.

(** A registered axis for [dim] with pixel range [300, 0]. *)
Definition axis_of (cls : AxisClass) (dim : Dimension) (sel : option (Q * Q))
  : Axis :=
  mkAxis cls dim (mkScale LinearScale (DomNum (JFin 0) (JFin 100)) (300%Q, 0%Q))
    (Some (mkBrushGroup sel None None None)) true false None [] 0.

Definition item (id : nat) (a b s : value) : DataRow :=
  [("ID", num_of_nat id); ("A", a); ("B", b); ("Speed", s)].

Definition items : DataRows :=
  [item 0 (VNum (JFin 10)) (VNum (JFin 20)) (VNum (JFin 10));
   item 1 (VNum (JFin 50)) (VNum (JFin 60)) (VNum (JFin 50));
   item 2 (VNum (JFin 90)) NaN_marker (VNum (JFin 90))].

(** The default options with a height that leaves a canvas 300 high; the
    chart is 1100 wide and its canvas 990. *)
Definition scenario_options : PAVEDOptions :=
  mkOptions 1100 385 25 45 60 65 false.

Definition empty_chart : Chart PathD :=
  Eval vm_compute in initMemberVariables PathD false scenario_options 0.

(** That chart with the rows [items], the axes A, B and Speed, the given
    selection on Speed and the given classes of the three polylines. *)
Definition chart (speed_sel : option (Q * Q)) (classes : list bool)
  : Chart PathD :=
  mkChart PathD (Some items)
    [numerical "A"; numerical "B"; numerical "Speed"]
    (options PathD empty_chart)
    (canvasHeight PathD empty_chart) (canvasWidth PathD empty_chart)
    ["A"; "B"; "Speed"]
    (<["A" := axis_of DefaultAxisC (numerical "A") None]>
       (<["B" := axis_of DefaultAxisC (numerical "B") None]>
          (<["Speed" := axis_of DefaultAxisC (numerical "Speed") speed_sel]> ∅)))
    ∅
    (zip_with (fun it b => mkPolyline PathD it b None) items classes)
    None 0.

(** New rows in which the attribute A, numerical so far, holds strings. *)
Definition rows_A_as_strings : DataRows :=
  [[("ID", num_of_nat 0); ("A", VStr "low")];
   [("ID", num_of_nat 1); ("A", VStr "high")]].

Definition columns_A_as_strings : list Dimension :=
  [mkDimension "ID" None NUMERICAL None (StatMinMax (nat_num 0) (nat_num 1)) None;
   mkDimension "A" None NOMINAL None (StatCategories ["low"; "high"]) None].

(** The objective "Cost", to be minimized. *)
Definition cost : Dimension :=
  mkDimension "Cost" None NUMERICAL None (StatMinMax (JFin 0) (JFin 100))
    (Some (ObjDir MIN)).





End Scenario.

(** * Properties *)

(** Case analysis on every condition of the goal. *)
Ltac case_ifs :=
  repeat match goal with
         | |- context [if ?b then _ else _] => destruct b; cbn
         end.

(** ** Numbers *)

Module NumberFacts.

Import DataSpec.

Lemma Qlt_bool_iff (x y : Q) : Qlt_bool x y = true <-> (x < y)%Q.
Proof.
  unfold Qlt_bool. rewrite negb_true_iff. split.
  - intros H. apply Qnot_le_lt. intros Hle.
    apply Qle_bool_iff in Hle. congruence.
  - intros H. destruct (Qle_bool y x) eqn:E; [|reflexivity].
    apply Qle_bool_iff in E. exfalso. exact (Qlt_not_le _ _ H E).
Qed.

Lemma Qlt_bool_false_iff (x y : Q) : Qlt_bool x y = false <-> (y <= x)%Q.
Proof.
  unfold Qlt_bool. rewrite negb_false_iff. apply Qle_bool_iff.
Qed.

Lemma js_leb_refl (a : jsnumber) : nonNaN a -> js_leb a a = true.
Proof.
  destruct a; cbn; try reflexivity; try discriminate.
  intros _. apply Qle_bool_iff. apply Qle_refl.
Qed.

Lemma js_leb_trans (a b c : jsnumber) :
  js_leb a b = true -> js_leb b c = true -> js_leb a c = true.
Proof.
  destruct a, b, c; cbn; try reflexivity; try discriminate.
  rewrite !Qle_bool_iff. apply Qle_trans.
Qed.

Lemma js_ltb_false_leb (a b : jsnumber) :
  nonNaN a -> nonNaN b -> js_ltb b a = false -> js_leb a b = true.
Proof.
  destruct a, b; cbn; try reflexivity; try discriminate.
  intros _ _ H. apply Qlt_bool_false_iff in H. now apply Qle_bool_iff.
Qed.

Lemma js_ltb_leb (a b : jsnumber) : js_ltb a b = true -> js_leb a b = true.
Proof.
  destruct a, b; cbn; try reflexivity; try discriminate.
  intros H. apply Qlt_bool_iff in H. apply Qle_bool_iff. now apply Qlt_le_weak.
Qed.

Lemma js_min2_spec (a b : jsnumber) :
  nonNaN a -> nonNaN b ->
  nonNaN (js_min2 a b) /\ (js_min2 a b = a \/ js_min2 a b = b) /\
  js_leb (js_min2 a b) a = true /\ js_leb (js_min2 a b) b = true.
Proof.
  intros Ha Hb.
  assert (E : js_min2 a b = if js_ltb b a then b else a).
  { destruct a, b; try reflexivity; discriminate. }
  rewrite E. destruct (js_ltb b a) eqn:L.
  - repeat split; auto using js_ltb_leb, js_leb_refl.
  - repeat split; auto using js_ltb_false_leb, js_leb_refl.
Qed.

Lemma js_max2_spec (a b : jsnumber) :
  nonNaN a -> nonNaN b ->
  nonNaN (js_max2 a b) /\ (js_max2 a b = a \/ js_max2 a b = b) /\
  js_leb a (js_max2 a b) = true /\ js_leb b (js_max2 a b) = true.
Proof.
  intros Ha Hb.
  assert (E : js_max2 a b = if js_ltb a b then b else a).
  { destruct a, b; try reflexivity; discriminate. }
  rewrite E. destruct (js_ltb a b) eqn:L.
  - repeat split; auto using js_ltb_leb, js_leb_refl.
  - repeat split; auto using js_ltb_false_leb, js_leb_refl.
Qed.

(** The running minimum of a fold is below its start and below every
    element, and it is the start or one of the elements. *)
Lemma fold_min_spec (xs : list jsnumber) : forall acc,
  nonNaN acc -> Forall nonNaN xs ->
  let m := fold_left js_min2 xs acc in
  nonNaN m /\ (m = acc \/ In m xs) /\ js_leb m acc = true /\
  Forall (fun x => js_leb m x = true) xs.
Proof.
  induction xs as [|x xs IH]; intros acc Hacc Hxs; cbn.
  - repeat split; auto using js_leb_refl.
  - inversion Hxs as [|? ? Hx Hxs']; subst.
    destruct (js_min2_spec acc x Hacc Hx) as (Hn & Hor & Hla & Hlx).
    destruct (IH (js_min2 acc x) Hn Hxs') as (Hn' & Hor' & Hl' & Hall).
    repeat split.
    + exact Hn'.
    + destruct Hor' as [E|Hin]; [|right; now right].
      rewrite E. destruct Hor as [E'|E']; rewrite E'; [now left|right; now left].
    + eapply js_leb_trans; eauto.
    + constructor; [eapply js_leb_trans; eauto | exact Hall].
Qed.

Lemma fold_max_spec (xs : list jsnumber) : forall acc,
  nonNaN acc -> Forall nonNaN xs ->
  let m := fold_left js_max2 xs acc in
  nonNaN m /\ (m = acc \/ In m xs) /\ js_leb acc m = true /\
  Forall (fun x => js_leb x m = true) xs.
Proof.
  induction xs as [|x xs IH]; intros acc Hacc Hxs; cbn.
  - repeat split; auto using js_leb_refl.
  - inversion Hxs as [|? ? Hx Hxs']; subst.
    destruct (js_max2_spec acc x Hacc Hx) as (Hn & Hor & Hla & Hlx).
    destruct (IH (js_max2 acc x) Hn Hxs') as (Hn' & Hor' & Hl' & Hall).
    repeat split.
    + exact Hn'.
    + destruct Hor' as [E|Hin]; [|right; now right].
      rewrite E. destruct Hor as [E'|E']; rewrite E'; [now left|right; now left].
    + eapply js_leb_trans; eauto.
    + constructor; [eapply js_leb_trans; eauto | exact Hall].
Qed.

Lemma Math_min_spec (xs : list jsnumber) :
  Forall nonNaN xs ->
  (Math_min xs = JPosInf \/ In (Math_min xs) xs) /\
  Forall (fun x => js_leb (Math_min xs) x = true) xs.
Proof.
  intros H. destruct (fold_min_spec xs JPosInf eq_refl H) as (_ & Hor & _ & Hall).
  split; assumption.
Qed.

Lemma Math_max_spec (xs : list jsnumber) :
  Forall nonNaN xs ->
  (Math_max xs = JNegInf \/ In (Math_max xs) xs) /\
  Forall (fun x => js_leb x (Math_max xs) = true) xs.
Proof.
  intros H. destruct (fold_max_spec xs JNegInf eq_refl H) as (_ & Hor & _ & Hall).
  split; assumption.
Qed.

End NumberFacts.

(** ** Data preparation *)

Module DataFacts.

Import Data DataSpec NumberFacts.

Lemma numeric_or_invalid_iff (v : value) :
  typeof_number v || is_NaN_marker v = true <-> numeric_or_invalid v.
Proof.
  unfold numeric_or_invalid, NaN_marker. destruct v as [n|s|]; cbn.
  - split; [intros _; left; eauto | reflexivity].
  - rewrite bool_decide_eq_true. split.
    + intros ->. now right.
    + intros [[n H]|H]; [discriminate | now inversion H].
  - split; [discriminate | intros [[n H]|H]; discriminate].
Qed.

Lemma is_string_iff (v : value) : typeof_string v = true <-> is_string v.
Proof.
  unfold is_string. destruct v; cbn; split; try discriminate; eauto.
  - intros [s H]; discriminate.
  - intros [s H]; discriminate.
Qed.

Lemma forallb_Forall_iff {A} (f : A -> bool) (P : A -> Prop) (l : list A) :
  (forall x, f x = true <-> P x) ->
  forallb f l = true <-> Forall P l.
Proof.
  intros H. rewrite forallb_forall, Forall_forall.
  split; intros G x Hx.
  - apply H, G. now apply list_elem_of_In.
  - apply H, G. now apply list_elem_of_In.
Qed.

Lemma valid_numbers_nonNaN (vals : list value) :
  Forall nonNaN (valid_numbers vals).
Proof.
  unfold valid_numbers. apply Forall_forall. intros n Hn.
  apply list_elem_of_In, filter_In in Hn. destruct Hn as [_ Hn].
  now apply negb_true_iff in Hn.
Qed.

Lemma valid_numbers_In (vals : list value) (n : jsnumber) :
  In n (valid_numbers vals) <->
  nonNaN n /\ exists v, In v vals /\ Number_of v = n.
Proof.
  unfold valid_numbers. rewrite filter_In, in_map_iff, negb_true_iff.
  unfold nonNaN. split.
  - intros [(v & E & Hv) Hn]. eauto.
  - intros [Hn (v & Hv & E)]. eauto.
Qed.

(** A string with another text than ["NaN"] keeps a column from being
    numerical. *)
Lemma strings_not_numeric (vals : list value) :
  Forall is_string vals ->
  (~ Forall numeric_or_invalid vals <-> Exists (fun v => v <> NaN_marker) vals).
Proof.
  intros Hs. split.
  - intros Hn. apply Exists_exists.
    apply not_Forall_Exists in Hn.
    + apply Exists_exists in Hn. destruct Hn as (v & Hv & Hnv).
      exists v. split; [exact Hv|]. intros E. apply Hnv. now right.
    + intros v. destruct (typeof_number v || is_NaN_marker v) eqn:E.
      * left. now apply numeric_or_invalid_iff.
      * right. intros H. apply numeric_or_invalid_iff in H. congruence.
  - intros He Hn. apply Exists_exists in He. destruct He as (v & Hv & Hne).
    rewrite Forall_forall in Hs, Hn.
    destruct (Hn v Hv) as [[n E]|E]; [|contradiction].
    destruct (Hs v Hv) as [s E']. congruence.
Qed.

(** [deriveColumnMetaData] derives the columns one by one and throws as
    soon as one of them does. *)
Lemma deriveColumnMetaData_Ok (columns : list DimensionPreview)
  (rows : DataRows) (dims : list Dimension) :
  deriveColumnMetaData columns rows = Ok dims <->
  Forall2 (fun attr dim => deriveColumn attr rows = Ok dim) columns dims.
Proof.
  revert dims. induction columns as [|attr rest IH]; intros dims; cbn.
  - split.
    + intros E. inversion E. constructor.
    + intros H. inversion H. reflexivity.
  - destruct (deriveColumn attr rows) as [dim|e] eqn:E1.
    + destruct (deriveColumnMetaData rest rows) as [ds|e] eqn:E2.
      * split.
        -- intros E. inversion E; subst. constructor; [exact E1|]. now apply IH.
        -- intros H. inversion H as [|? ? ? ? Hd Hrest]; subst.
           apply IH in Hrest. congruence.
      * split; [discriminate|].
        intros H. inversion H as [|? ? ? ? Hd Hrest]; subst.
        apply IH in Hrest. discriminate.
    + split; [discriminate|].
      intros H. inversion H; subst. congruence.
Qed.

Lemma deriveColumnMetaData_Throw (columns : list DimensionPreview)
  (rows : DataRows) (e : error) :
  deriveColumnMetaData columns rows = Throw e <->
  exists before attr after,
    columns = (before ++ attr :: after)%list /\
    Forall (fun a => exists dim, deriveColumn a rows = Ok dim) before /\
    deriveColumn attr rows = Throw e.
Proof.
  induction columns as [|attr rest IH]; cbn.
  - split; [discriminate|].
    intros (before & a & after & E & _). destruct before; discriminate.
  - destruct (deriveColumn attr rows) as [dim|e'] eqn:E1.
    + destruct (deriveColumnMetaData rest rows) as [ds|e'] eqn:E2.
      * split; [discriminate|].
        intros (before & a & after & E & Hb & Ha).
        destruct before as [|b before]; cbn in E; inversion E; subst.
        -- congruence.
        -- inversion Hb; subst.
           assert (@Ok (list Dimension) ds = Throw e); [|discriminate].
           apply IH. eauto 6.
      * split.
        -- intros E. inversion E; subst e'.
           destruct (proj1 IH eq_refl) as (before & a & after & -> & Hb & Ha).
           exists (attr :: before), a, after. repeat split; eauto.
        -- intros (before & a & after & E & Hb & Ha).
           destruct before as [|b before]; cbn in E; inversion E; subst.
           ++ congruence.
           ++ inversion Hb; subst. f_equal.
              assert (H : @Throw (list Dimension) e' = Throw e);
                [apply IH; eauto 6 | now inversion H].
    + split.
      * intros E. inversion E; subst e'.
        exists [], attr, rest. repeat split; auto.
      * intros (before & a & after & E & Hb & Ha).
        destruct before as [|b before]; cbn in E; inversion E; subst.
        -- congruence.
        -- inversion Hb as [|? ? [dim Hd] _]; subst. congruence.
Qed.

(** C6 (as amended).  [deriveColumnMetaData] derives the columns in
    order with [deriveColumn] and throws what the first failing column
    throws.  [deriveColumn] classifies a column as NUMERICAL
    exactly when every value is a number or the marker ["NaN"], as NOMINAL
    exactly when every value is a string and some value is not the marker
    ["NaN"], and throws exactly for the other columns.  The statistics of a
    numerical column are the minimum and maximum of its valid numbers:
    they bound every valid number, and each is one of them unless the
    column has none (then they are [Infinity] and [-Infinity]). *)
Theorem deriveColumn_classification (columns : list DimensionPreview)
  (attr : DimensionPreview) (rows : DataRows) :
  let vals := attr_values rows (pv_name attr) in
  (forall dims,
     deriveColumnMetaData columns rows = Ok dims <->
     Forall2 (fun a dim => deriveColumn a rows = Ok dim) columns dims) /\
  (forall e,
     deriveColumnMetaData columns rows = Throw e <->
     exists before a after,
       columns = (before ++ a :: after)%list /\
       Forall (fun a' => exists dim, deriveColumn a' rows = Ok dim) before /\
       deriveColumn a rows = Throw e) /\
  (Forall numeric_or_invalid vals <->
     exists dim, deriveColumn attr rows = Ok dim /\ attr_type dim = NUMERICAL) /\
  (Forall is_string vals /\ Exists (fun v => v <> NaN_marker) vals <->
     exists dim, deriveColumn attr rows = Ok dim /\ attr_type dim = NOMINAL) /\
  (~ Forall numeric_or_invalid vals /\ ~ Forall is_string vals <->
     deriveColumn attr rows = Throw (ErrAmbiguousColumn (pv_name attr))) /\
  (forall dim,
     deriveColumn attr rows = Ok dim -> attr_type dim = NUMERICAL ->
     exists lo hi,
       statistics dim = StatMinMax lo hi /\
       (forall n, In n (valid_numbers vals) ->
          js_leb lo n = true /\ js_leb n hi = true) /\
       (valid_numbers vals = [] -> lo = JPosInf /\ hi = JNegInf) /\
       (valid_numbers vals <> [] ->
          In lo (valid_numbers vals) /\ In hi (valid_numbers vals))).
Proof.
  intros vals.
  split; [intros dims; apply deriveColumnMetaData_Ok|].
  split; [intros e; apply deriveColumnMetaData_Throw|].
  pose proof (forallb_Forall_iff _ _ vals numeric_or_invalid_iff) as HN.
  pose proof (forallb_Forall_iff _ _ vals is_string_iff) as HS.
  unfold deriveColumn. fold vals.
  destruct (forallb (fun v => typeof_number v || is_NaN_marker v) vals) eqn:EN.
  - assert (Hnum : Forall numeric_or_invalid vals) by now apply HN.
    split; [|split; [|split]].
    + split; [intros _; eexists; split; reflexivity | intros _; exact Hnum].
    + split.
      * intros [Hs He]. exfalso.
        apply (strings_not_numeric vals Hs) in He. contradiction.
      * intros (dim & E & T). inversion E; subst. discriminate.
    + split; [intros [Hn _]; contradiction | discriminate].
    + intros dim E _. inversion E; subst; cbn. clear E.
      fold (valid_numbers vals).
      pose proof (valid_numbers_nonNaN vals) as Hv.
      destruct (Math_min_spec _ Hv) as [Hmin_in Hmin].
      destruct (Math_max_spec _ Hv) as [Hmax_in Hmax].
      exists (Math_min (valid_numbers vals)), (Math_max (valid_numbers vals)).
      split; [reflexivity|]. split; [|split].
      * intros n Hn. rewrite Forall_forall in Hmin, Hmax.
        split; [apply Hmin | apply Hmax]; now apply list_elem_of_In.
      * intros ->. split; reflexivity.
      * intros Hne. split.
        -- destruct Hmin_in as [E|Hin]; [|exact Hin].
           destruct (valid_numbers vals) as [|x xs] eqn:Ex; [contradiction|].
           rewrite Forall_forall in Hmin.
           assert (Hx : js_leb (Math_min (x :: xs)) x = true)
             by (apply Hmin; now left).
           rewrite E in Hx. inversion Hv as [|? ? Hnx _]; subst.
           destruct x; cbn in Hx; try discriminate. now left.
        -- destruct Hmax_in as [E|Hin]; [|exact Hin].
           destruct (valid_numbers vals) as [|x xs] eqn:Ex; [contradiction|].
           rewrite Forall_forall in Hmax.
           assert (Hx : js_leb x (Math_max (x :: xs)) = true)
             by (apply Hmax; now left).
           rewrite E in Hx. inversion Hv as [|? ? Hnx _]; subst.
           destruct x; cbn in Hx; try discriminate. now left.
  - assert (Hnum : ~ Forall numeric_or_invalid vals).
    { intros H. apply HN in H. congruence. }
    destruct (forallb typeof_string vals) eqn:ES.
    + assert (Hstr : Forall is_string vals) by now apply HS.
      split; [|split; [|split]].
      * split; [intros H; contradiction|].
        intros (dim & E & T). inversion E; subst. discriminate.
      * split; [intros _; eexists; split; reflexivity|].
        intros _. split; [exact Hstr|].
        apply (strings_not_numeric vals Hstr). exact Hnum.
      * split; [intros [_ Hn]; contradiction | discriminate].
      * intros dim E T. inversion E; subst. discriminate.
    + assert (Hstr : ~ Forall is_string vals).
      { intros H. apply HS in H. congruence. }
      split; [|split; [|split]].
      * split; [intros H; contradiction|].
        intros (dim & E & T). discriminate.
      * split; [intros [Hs _]; contradiction|].
        intros (dim & E & T). discriminate.
      * split; [reflexivity | intros _; split; assumption].
      * intros dim E. discriminate.
Qed.

(** C6, the claim as stated fails: a column whose every value is the
    string ["NaN"] consists of strings only, and is classified NUMERICAL,
    not NOMINAL. *)
Lemma deriveColumn_all_NaN_strings_is_numerical :
  let rows : DataRows := [[("X", VStr "NaN")]; [("X", VStr "NaN")]] in
  Forall is_string (attr_values rows "X") /\
  deriveColumn (mkPreview "X") rows
    = Ok (mkDimension "X" None NUMERICAL None (StatMinMax JPosInf JNegInf) None) /\
  ~ (Forall is_string (attr_values rows "X") <->
     exists dim, deriveColumn (mkPreview "X") rows = Ok dim /\
                 attr_type dim = NOMINAL).
Proof.
  cbn zeta. split; [|split].
  - repeat constructor; eexists; reflexivity.
  - reflexivity.
  - intros [H _].
    destruct H as (dim & E & T).
    + repeat constructor; eexists; reflexivity.
    + vm_compute in E. inversion E; subst. discriminate.
Qed.

(** *** Generated IDs *)
















(** *** The columns that [prepareData] derives *)

Lemma has_key_false_row_get (row : DataRow) (k : string) :
  has_key k row = false -> row_get row k = VOther.
Proof.
  induction row as [|[k' v] rest IH]; cbn; [reflexivity|].
  destruct (bool_decide (k' = k)); cbn; [discriminate | exact IH].
Qed.

Lemma deriveColumn_Ok_inv (attr : DimensionPreview) (rows : DataRows)
  (dim : Dimension) :
  deriveColumn attr rows = Ok dim ->
  name dim = pv_name attr /\ unit dim = None /\ color dim = None /\
  obj dim = None /\
  Forall (fun row => has_key (pv_name attr) row = true) rows.
Proof.
  unfold deriveColumn.
  assert (Hkeys : forall f : value -> bool, f VOther = false ->
            forallb f (attr_values rows (pv_name attr)) = true ->
            Forall (fun row => has_key (pv_name attr) row = true) rows).
  { intros f Hf. induction rows as [|row rest IH]; cbn; [constructor|].
    intros [Hrow Hrest]%andb_true_iff. constructor; [|now apply IH].
    destruct (has_key (pv_name attr) row) eqn:K; [reflexivity|].
    rewrite (has_key_false_row_get _ _ K), Hf in Hrow. discriminate. }
  intros E. destruct (forallb _ _) eqn:E1.
  - inversion E; subst; cbn. repeat split. now apply (Hkeys _ eq_refl) in E1.
  - destruct (forallb typeof_string _) eqn:E2; [|discriminate].
    inversion E; subst; cbn. repeat split. now apply (Hkeys _ eq_refl) in E2.
Qed.

Lemma deriveColumnMetaData_Ok_inv (columns : list DimensionPreview)
  (rows : DataRows) (dims : list Dimension) :
  deriveColumnMetaData columns rows = Ok dims ->
  map name dims = map pv_name columns /\
  Forall (fun dim => unit dim = None /\ color dim = None /\ obj dim = None) dims /\
  Forall (fun dim => Forall (fun row => has_key (name dim) row = true) rows) dims.
Proof.
  intros H%deriveColumnMetaData_Ok.
  induction H as [|attr dim columns dims Hd _ IH]; cbn.
  - repeat split; constructor.
  - destruct (deriveColumn_Ok_inv _ _ _ Hd) as (N & U & C & O & K).
    destruct IH as (IH1 & IH2 & IH3).
    rewrite N, IH1. repeat split; constructor; auto. now rewrite N.
Qed.

(** X1.  The columns are named after the keys of the first row, in their
    order, behind a column [ID] when IDs were generated; they carry no
    unit, colour or optimization direction; and every row has a property
    for every column. *)
Theorem prepareData_columns (rows : DataRows) (cols : list Dimension)
  (modifiedRows : DataRows) :
  prepareData rows = Ok (cols, modifiedRows) ->
  map name cols =
    ((if fst (insertIDs rows) then ["ID"] else []) ++
     match rows with [] => [] | row :: _ => map fst row end)%list /\
  Forall (fun col => unit col = None /\ color col = None /\ obj col = None) cols /\
  Forall (fun col => Forall (fun row => has_key (name col) row = true) modifiedRows)
    cols.
Proof.
  unfold prepareData. destruct (insertIDs rows) as [generated rows'] eqn:Eins.
  destruct (deriveColumnMetaData _ rows') as [dims|e] eqn:Eder; [|discriminate].
  intros E; inversion E; subst.
  destruct (deriveColumnMetaData_Ok_inv _ _ _ Eder) as (N & U & K).
  split; [|split; assumption].
  rewrite N. cbn [fst]. unfold initColumnsFromRows.
  destruct generated, rows as [|row rest]; cbn; try reflexivity;
    now rewrite map_map.
Qed.

(** X1, a dataset without IDs on which the theorem applies; the key [c]
    of the second row gives no column. *)
Lemma prepareData_columns_witness :
  let rows : DataRows :=
    [[("a", VNum (JFin 1)); ("b", VStr "x")];
     [("a", VStr "NaN"); ("b", VStr "y"); ("c", VStr "z")]] in
  exists cols modifiedRows,
    prepareData rows = Ok (cols, modifiedRows) /\
    map name cols = ["ID"; "a"; "b"] /\
    Forall (fun col => unit col = None /\ color col = None /\ obj col = None) cols /\
    Forall (fun col => Forall (fun row => has_key (name col) row = true) modifiedRows)
      cols.
Proof.
  intros rows. eexists _, _. split; [vm_compute; reflexivity|].
  eapply (prepareData_columns rows). vm_compute; reflexivity.
Defined.

(** *** Preparing prepared rows again *)

Lemma has_key_row_set (row : DataRow) (k : string) (v : value) :
  has_key k (row_set row k v) = true.
Proof.
  induction row as [|[k' v'] rest IH]; cbn.
  - now rewrite bool_decide_eq_true_2.
  - destruct (bool_decide (k' = k)) eqn:E; cbn; rewrite E; [reflexivity | exact IH].
Qed.

Lemma keys_row_set (row : DataRow) (k : string) (v : value) :
  map fst (row_set row k v) =
  if has_key k row then map fst row else (map fst row ++ [k])%list.
Proof.
  unfold has_key.
  induction row as [|[k' v'] rest IH]; cbn; [reflexivity|].
  destruct (bool_decide (k' = k)) eqn:E; cbn; [reflexivity|].
  rewrite IH. now destruct (existsb _ rest).
Qed.

Lemma insertIDs_from_have_ids (rows : DataRows) : forall i,
  Forall (fun row => has_some_id row = true) (snd (insertIDs_from i rows)).
Proof.
  induction rows as [|row rest IH]; intros i; cbn; [constructor|].
  specialize (IH (S i)). destruct (insertIDs_from (S i) rest) as [g rest'].
  destruct (has_some_id row) eqn:E; cbn; constructor; auto.
  unfold has_some_id. now rewrite has_key_row_set.
Qed.

Lemma insertIDs_from_id (rows : DataRows) : forall i,
  Forall (fun row => has_some_id row = true) rows ->
  insertIDs_from i rows = (false, rows).
Proof.
  induction rows as [|row rest IH]; intros i H; cbn; [reflexivity|].
  inversion H as [|? ? Hrow Hrest]; subst.
  now rewrite (IH (S i) Hrest), Hrow.
Qed.

Lemma insertIDs_from_none (rows : DataRows) : forall i rows',
  insertIDs_from i rows = (false, rows') -> rows' = rows.
Proof.
  induction rows as [|row rest IH]; intros i rows'; cbn.
  - now intros [= <-].
  - destruct (insertIDs_from (S i) rest) as [g rest'] eqn:E.
    destruct (has_some_id row); cbn; [|discriminate].
    intros [= -> <-]. now rewrite (IH _ _ E).
Qed.

Lemma deriveColumnMetaData_app (xs ys : list DimensionPreview) (rows : DataRows)
  (ds es : list Dimension) :
  deriveColumnMetaData xs rows = Ok ds ->
  deriveColumnMetaData ys rows = Ok es ->
  deriveColumnMetaData (xs ++ ys) rows = Ok (ds ++ es)%list.
Proof.
  rewrite !deriveColumnMetaData_Ok. apply Forall2_app.
Qed.

Lemma deriveColumnMetaData_In (columns : list DimensionPreview) (rows : DataRows)
  (dims : list Dimension) (attr : DimensionPreview) (dim : Dimension) :
  deriveColumnMetaData columns rows = Ok dims ->
  In attr columns -> deriveColumn attr rows = Ok dim -> In dim dims.
Proof.
  intros H%deriveColumnMetaData_Ok. induction H as [|a d columns dims Hd _ IH]; cbn.
  - contradiction.
  - intros [->|Hin] E; [left; congruence | right; auto].
Qed.

(** X2.  [prepareData] accepts the rows it returns: they come back
    unchanged, with the same columns.  Only the place of a generated
    column [ID] differs, which now stands where the key [ID] stands in the
    first row: last when the first row got its ID from [insertIDs]. *)
Theorem prepareData_idempotent (rows : DataRows) (cols : list Dimension)
  (modifiedRows : DataRows) :
  prepareData rows = Ok (cols, modifiedRows) ->
  exists cols2,
    prepareData modifiedRows = Ok (cols2, modifiedRows) /\
    insertIDs modifiedRows = (false, modifiedRows) /\
    (forall col, In col cols2 <-> In col cols) /\
    (fst (insertIDs rows) = false -> modifiedRows = rows /\ cols2 = cols) /\
    (forall row rest, rows = row :: rest -> has_some_id row = false ->
       exists idcol others,
         name idcol = "ID" /\ cols = idcol :: others /\
         cols2 = (others ++ [idcol])%list).
Proof.
  unfold prepareData. destruct (insertIDs rows) as [generated rows'] eqn:Eins.
  destruct (deriveColumnMetaData _ rows') as [dims|e] eqn:Eder; [|discriminate].
  intros E; inversion E; subst; clear E. cbn [fst].
  assert (Hids : insertIDs modifiedRows = (false, modifiedRows)).
  { apply insertIDs_from_id. unfold insertIDs in Eins.
    pose proof (insertIDs_from_have_ids rows 0) as H. now rewrite Eins in H. }
  rewrite Hids.
  destruct generated.
  - (* IDs were generated *)
    cbn [deriveColumnMetaData] in Eder.
    destruct (deriveColumn (mkPreview "ID") modifiedRows) as [idcol|] eqn:Eid;
      [|discriminate].
    destruct (deriveColumnMetaData (initColumnsFromRows rows) modifiedRows)
      as [others|] eqn:Eothers; [|discriminate].
    injection Eder as <-.
    destruct (deriveColumn_Ok_inv _ _ _ Eid) as (Nid & _ & _ & _ & Kid).
    destruct rows as [|row rest]; [discriminate|].
    unfold insertIDs in Eins. cbn in Eins.
    destruct (insertIDs_from 1 rest) as [g rest'] eqn:Erest.
    destruct (has_some_id row) eqn:Hrow; cbn in Eins.
    + (* the first row had an ID of its own *)
      injection Eins as -> <-. cbn [initColumnsFromRows] in *.
      exists others. rewrite Eothers.
      split; [reflexivity|]. split; [reflexivity|]. split; [|split].
      * intros col; cbn. split; [auto|]. intros [<-|H]; [|exact H].
        inversion Kid as [|? ? Krow _]; subst. cbn in Krow.
        apply (deriveColumnMetaData_In _ _ _ (mkPreview "ID") _ Eothers);
          [|exact Eid].
        apply in_map_iff. unfold has_key in Krow.
        apply existsb_exists in Krow as ([k v] & Hin & Hk).
        apply bool_decide_eq_true in Hk. cbn in Hk. subst k.
        exists ("ID", v). split; [reflexivity | exact Hin].
      * discriminate.
      * intros row0 rest0 [= <- <-] H. congruence.
    + (* the first row got its ID from insertIDs *)
      injection Eins as <-. cbn [initColumnsFromRows] in *.
      assert (Hno : has_key "ID" row = false).
      { unfold has_some_id in Hrow. now destruct (has_key "ID" row). }
      assert (Ekeys : map (fun kv : string * value => mkPreview (fst kv))
                        (row_set row "ID" (num_of_nat 0))
                      = (map (fun kv : string * value => mkPreview (fst kv)) row
                         ++ [mkPreview "ID"])%list).
      { rewrite <- !(map_map fst mkPreview), keys_row_set, Hno.
        now rewrite map_app. }
      exists (others ++ [idcol])%list. rewrite Ekeys.
      rewrite (deriveColumnMetaData_app _ [mkPreview "ID"] _ others [idcol] Eothers)
        by (cbn; now rewrite Eid).
      split; [reflexivity|]. split; [reflexivity|]. split; [|split].
      * intros col. rewrite in_app_iff. cbn. tauto.
      * discriminate.
      * intros row0 rest0 [= <- <-] _. now exists idcol, others.
  - (* every row had an ID *)
    unfold insertIDs in Eins. apply insertIDs_from_none in Eins. subst modifiedRows.
    exists cols. rewrite Eder.
    split; [reflexivity|]. split; [reflexivity|]. split; [tauto|]. split; [tauto|].
    intros row rest -> Hrow. unfold insertIDs in Hids. cbn in Hids.
    destruct (insertIDs_from 1 rest). rewrite Hrow in Hids. discriminate.
Qed.

(** X2, a dataset whose first row has an ID and whose second row has none: the
    column [ID] is derived twice, and once when the rows are prepared
    again. *)
Lemma prepareData_idempotent_witness :
  let rows : DataRows :=
    [[("ID", VNum (JFin 7)); ("a", VStr "x")]; [("a", VStr "y")]] in
  exists cols modifiedRows cols2,
    prepareData rows = Ok (cols, modifiedRows) /\
    map name cols = ["ID"; "ID"; "a"] /\
    prepareData modifiedRows = Ok (cols2, modifiedRows) /\
    map name cols2 = ["ID"; "a"] /\
    forall col, In col cols2 <-> In col cols.
Proof.
  intros rows.
  destruct (prepareData rows) as [[cols modifiedRows]|] eqn:E;
    [|vm_compute in E; discriminate].
  destruct (prepareData_idempotent rows cols modifiedRows E)
    as (cols2 & E2 & _ & Hin & _).
  exists cols, modifiedRows, cols2.
  vm_compute in E. injection E as <- <-.
  split; [reflexivity|]. split; [reflexivity|]. split; [exact E2|].
  split; [|exact Hin].
  vm_compute in E2. injection E2 as <-. reflexivity.
Defined.

(** *** The categories of a nominal column *)

Lemma unique_strings_spec (xs : list string) : forall seen k s,
  unique_strings seen xs !! k = Some s ->
  exists i,
    xs !! i = Some s /\ ~ s ∈ take i xs /\ ~ s ∈ seen /\
    forall t, t ∈ take k (unique_strings seen xs) <-> t ∈ take i xs /\ ~ t ∈ seen.
Proof.
  induction xs as [|x rest IH]; intros seen k s; cbn; [discriminate|].
  case_bool_decide as Hx.
  - intros H. destruct (IH _ _ _ H) as (i & Hi & Hfirst & Hseen & Hpre).
    exists (S i). cbn. split; [exact Hi|]. split; [|split; [exact Hseen|]].
    + rewrite elem_of_cons. intros [->|?]; auto.
    + intros t. rewrite Hpre, elem_of_cons. split; [tauto|].
      intros [[->|?] ?]; tauto.
  - destruct k as [|k]; cbn.
    + intros [= ->]. exists 0. cbn. split; [reflexivity|].
      split; [apply not_elem_of_nil|]. split; [exact Hx|].
      intros t. split; [intros []%elem_of_nil | intros [[]%elem_of_nil _]].
    + intros H. destruct (IH _ _ _ H) as (i & Hi & Hfirst & Hseen & Hpre).
      exists (S i). cbn. split; [exact Hi|].
      rewrite elem_of_cons in Hseen. split; [|split; [tauto|]].
      * rewrite elem_of_cons. tauto.
      * intros t. rewrite !elem_of_cons, Hpre, elem_of_cons.
        destruct (decide (t = x)) as [->|]; tauto.
Qed.

Lemma unique_strings_NoDup (xs : list string) : forall seen,
  NoDup (unique_strings seen xs) /\
  forall s, s ∈ unique_strings seen xs <-> s ∈ xs /\ ~ s ∈ seen.
Proof.
  induction xs as [|x rest IH]; intros seen; cbn.
  - split; [constructor|]. intros s. rewrite elem_of_nil. tauto.
  - case_bool_decide as Hx.
    + destruct (IH seen) as [ND El]. split; [exact ND|].
      intros s. rewrite El, elem_of_cons. split; [tauto|].
      intros [[->|?] ?]; tauto.
    + destruct (IH (x :: seen)) as [ND El]. split.
      * constructor; [|exact ND]. rewrite El, elem_of_cons. tauto.
      * intros s. rewrite !elem_of_cons, El, elem_of_cons.
        destruct (decide (s = x)) as [->|]; tauto.
Qed.

(** X3.  The statistics of a nominal column are its distinct strings, each
    once, in the order of their first occurrence: the categories before
    the one at index [k] are the strings that occur before its first
    occurrence in the column. *)
Theorem deriveColumn_categories (attr : DimensionPreview) (rows : DataRows)
  (dim : Dimension) :
  deriveColumn attr rows = Ok dim -> attr_type dim = NOMINAL ->
  let strs := map string_of_value (attr_values rows (pv_name attr)) in
  attr_values rows (pv_name attr) = map VStr strs /\
  exists cats,
    statistics dim = StatCategories cats /\
    NoDup cats /\
    (forall s, s ∈ cats <-> s ∈ strs) /\
    (forall k s, cats !! k = Some s ->
       exists i, strs !! i = Some s /\ ~ s ∈ take i strs /\
                 forall t, t ∈ take k cats <-> t ∈ take i strs).
Proof.
  intros E T strs. unfold deriveColumn in E.
  destruct (forallb _ _) eqn:E1 in E; [inversion E; subst; discriminate|].
  destruct (forallb typeof_string _) eqn:E2 in E; [|discriminate].
  inversion E; subst; clear E T. cbn [statistics]. split.
  - subst strs. clear E1. revert E2.
    induction (attr_values rows (pv_name attr)) as [|v vs IH]; cbn; [reflexivity|].
    intros [Hv Hvs]%andb_true_iff. destruct v; try discriminate.
    cbn. f_equal. exact (IH Hvs).
  - exists (unique_strings [] strs). split; [reflexivity|].
    destruct (unique_strings_NoDup strs []) as [ND El].
    split; [exact ND|]. split.
    + intros s. rewrite El, elem_of_nil. tauto.
    + intros k s Hk.
      destruct (unique_strings_spec strs [] k s Hk) as (i & Hi & Hfirst & _ & Hpre).
      exists i. split; [exact Hi|]. split; [exact Hfirst|].
      intros t. rewrite Hpre, elem_of_nil. tauto.
Qed.

(** X3, a column in which a category comes back after another one. *)
Lemma deriveColumn_categories_witness :
  let rows : DataRows :=
    [[("b", VStr "x")]; [("b", VStr "y")]; [("b", VStr "x")]] in
  exists dim,
    deriveColumn (mkPreview "b") rows = Ok dim /\
    statistics dim = StatCategories ["x"; "y"] /\
    exists cats,
      statistics dim = StatCategories cats /\
      NoDup cats /\
      (forall s, s ∈ cats <-> s ∈ ["x"; "y"; "x"]) /\
      (forall k s, cats !! k = Some s ->
         exists i, ["x"; "y"; "x"] !! i = Some s /\
                   ~ s ∈ take i ["x"; "y"; "x"] /\
                   forall t, t ∈ take k cats <-> t ∈ take i ["x"; "y"; "x"]).
Proof.
  intros rows. eexists. split; [vm_compute; reflexivity|].
  split; [reflexivity|].
  apply (deriveColumn_categories (mkPreview "b") rows); reflexivity.
Defined.

End DataFacts.

(** ** Range brushes *)

Module AxisFacts.

Import Axis AxisSpec NumberFacts.







Section WithD3.

Variable d3_scale : scale_kind -> scale_domain -> Q * Q -> value -> option Q.

Lemma isBrushed_no_selection (ax : Axis) (v : value) :
  active_selection ax = None -> Axis.isBrushed d3_scale ax v = true.
Proof.
  unfold active_selection, Axis.isBrushed.
  destruct (brushGroup ax) as [bg|]; [|reflexivity].
  now intros ->.
Qed.





End WithD3.

(** The scenario of the specification: the extent [150, 300] selects the
    values 50 and 90 and excludes 10 and ["NaN"]. *)
Example speed_axis_selects :
  let ax := speed_axis (Some (150%Q, 300%Q)) in
  Axis.isBrushed linear_example ax (VNum (JFin 10)) = false /\
  Axis.isBrushed linear_example ax (VNum (JFin 50)) = true /\
  Axis.isBrushed linear_example ax (VNum (JFin 90)) = true /\
  Axis.isBrushed linear_example ax NaN_marker = false /\
  Axis.isBrushed linear_example (speed_axis None) NaN_marker = true.
Proof. vm_compute. repeat split. Qed.


(** Such a selection arises when [clearBrush] of an objective axis runs on
    a scale whose range was set in ascending order: the brush is moved to
    [range[1], range[0]], here [300, 0], and no value is brushed. *)
Remark clearBrush_objective_on_ascending_range :
  let ax :=
    mkAxis ObjectiveAxisC
      (mkDimension "Cost" None NUMERICAL None (StatMinMax (JFin 0) (JFin 100))
         (Some (ObjDir MIN)))
      (mkScale LinearScale (DomNum (JFin 0) (JFin 100)) (0%Q, 300%Q))
      (Some (mkBrushGroup None None None None)) true false None [] 0 in
  let ax' := fst (clearBrush 0 ax) in
  active_selection ax' = Some (300%Q, 0%Q) /\
  Axis.isBrushed linear_example ax' (VNum (JFin 50)) = false.
Proof. split; reflexivity. Qed.

(** *** The direction of a brush adjustment *)






(** The listener takes the old extent from the labels, so a brush that is
    being created is compared with [0, 0] (or with the labels of a brush
    that was removed before): created at the very top of the axis it counts
    as EXTEND. *)
Remark brush_direction_of_new_brush :
  brush_direction (Number_attr None) (Number_attr None) 0 50 = Some EXTEND /\
  brush_direction (Number_attr None) (Number_attr None) 20 50 = Some SHRINK.
Proof. split; reflexivity. Qed.



(** *** Throttling *)











End AxisFacts.

(** ** The line brush *)

Module LineBrushFacts.

Import LineBrush LineBrushSpec.



Section WithRaphael.

Variable PathD : Type.
Variable pathIntersection : PathD -> Point * Point -> list Point.


End WithRaphael.

(** The round trip of the specification: a path that crosses the segment
    is brushed, a path apart from it is not, and after [cancel] both are. *)
Example line_brush_round_trip :
  let p1 := mkPoint 0 0 in
  let p2 := mkPoint 10 10 in
  let crossing := [mkPoint 0 10; mkPoint 10 0] in
  let apart := [mkPoint 20 0; mkPoint 30 10] in
  let s2 := run [Click p1; MouseMove (mkPoint 5 5); Click p2] in
  brushed _ polyline_intersection (run []) (Some apart) = true /\
  brushed _ polyline_intersection s2 (Some crossing) = true /\
  brushed _ polyline_intersection s2 (Some apart) = false /\
  brushed _ polyline_intersection (handle s2 Escape) (Some apart) = true.
Proof. vm_compute. repeat split. Qed.


(** *** The states that the events reach *)

Lemma handle_in_sync (s : State) (ev : event) :
  in_sync s -> in_sync (handle s ev).
Proof.
  intros [V E L D S]. destruct s as [st en vi a b ld sh li dh dt]. cbn in *. subst.
  destruct ev as [p|p| | | | |]; cbn.
  - destruct st; cbn; [destruct en; cbn|]; constructor; cbn; auto.
  - unfold mousemove, evolve; cbn.
    destruct st, en, dh, dt; cbn; constructor; cbn; auto.
  - constructor; cbn; auto.
  - destruct st, en; cbn; constructor; cbn; auto.
  - destruct st, en; cbn; constructor; cbn; auto.
  - destruct st, en; cbn; constructor; cbn; auto.
  - destruct st, en; cbn; constructor; cbn; auto.
Qed.

Lemma fold_handle_in_sync (evs : list event) : forall s,
  in_sync s -> in_sync (fold_left handle evs s).
Proof.
  induction evs as [|ev evs IH]; intros s H; cbn; [exact H|].
  apply IH, handle_in_sync, H.
Qed.

Lemma init_in_sync : in_sync init.
Proof. constructor; cbn; auto. Qed.

(** X4.  After every sequence of clicks, pointer moves, handle events and
    Escape keys, the line brush is shown exactly while a line is started,
    the handles listen exactly while the line is complete, and the line
    and the display that were rendered last are those of the current
    start and end points. *)
Theorem run_in_sync (evs : list event) : in_sync (run evs).
Proof. apply fold_handle_in_sync, init_in_sync. Qed.

(** X5.  On a complete line brush a further click changes nothing and does
    not call the callback of the chart, and without a handle held down a
    pointer move changes nothing either: only a handle drag or Escape
    alters a complete brush. *)
Theorem complete_brush_ignores_clicks (evs : list event) (p : Point) :
  started (run evs) = true -> ended (run evs) = true ->
  process p (run evs) = (run evs, None) /\
  handle (run evs) (Click p) = run evs /\
  (dragHeadActive (run evs) = false -> dragTailActive (run evs) = false ->
   handle (run evs) (MouseMove p) = run evs).
Proof.
  pose proof (fold_handle_in_sync evs init init_in_sync) as [V E L D S].
  fold (run evs) in *.
  destruct (run evs) as [st en vi a b ld sh li dh dt]. cbn in *.
  intros -> ->. subst. cbn. repeat split.
  intros -> ->. reflexivity.
Qed.

(** *** Dragging the handles of a complete brush *)

Section WithRaphael.

Variable PathD : Type.
Variable pathIntersection : PathD -> Point * Point -> list Point.

(** X6.  On a complete line brush, pressing the head circle, moving the
    pointer to [p] and releasing the circle moves the start point to [p]
    and leaves the end point; the callback of the chart runs at the
    release and sees the line from [p] to the end point, which is the line
    that [brushed] tests from then on.  The tail circle moves the end
    point in the same way. *)
Theorem handle_drag_moves_endpoint (evs : list event) (p : Point)
  (descr : PathD) :
  started (run evs) = true -> ended (run evs) = true ->
  (dragTailActive (run evs) = false ->
   let s1 := handle (handle (run evs) HeadDown) (MouseMove p) in
   let s' := handle s1 HeadUp in
   head_mouseup s1 = (s', Some s') /\
   start s' = p /\ end_ s' = end_ (run evs) /\
   started s' = true /\ ended s' = true /\
   line_d s' = (p, end_ (run evs)) /\
   (brushed PathD pathIntersection s' (Some descr) = true <->
    pathIntersection descr (p, end_ (run evs)) <> [])) /\
  (dragHeadActive (run evs) = false ->
   let s1 := handle (handle (run evs) TailDown) (MouseMove p) in
   let s' := handle s1 TailUp in
   tail_mouseup s1 = (s', Some s') /\
   start s' = start (run evs) /\ end_ s' = p /\
   started s' = true /\ ended s' = true /\
   line_d s' = (start (run evs), p) /\
   (brushed PathD pathIntersection s' (Some descr) = true <->
    pathIntersection descr (start (run evs), p) <> [])).
Proof.
  pose proof (fold_handle_in_sync evs init init_in_sync) as [V E L D S].
  fold (run evs) in *.
  destruct (run evs) as [st en vi a b ld sh li dh dt]. cbn in *.
  intros -> ->. subst. cbn.
  assert (Hlen : forall l : list Point, negb (Nat.eqb (List.length l) 0) = true <-> l <> []).
  { intros [|x l]; cbn; split; congruence. }
  split; intros ->; cbn; unfold brushed; cbn; rewrite Hlen;
    repeat split; auto; destruct dh, dt; cbn; rewrite ?Hlen; auto.
Qed.

(** X7.  After Escape the line brush stays hidden and keeps its points
    until the next click: pointer moves and handle events do nothing, since
    [cancel] has removed the listeners of the handles, and [brushed] holds
    of every path. *)
Theorem cancelled_brush_ignores_moves (evs evs' : list event)
  (path : option PathD) :
  forallb not_click evs' = true ->
  let s := run evs in
  let s' := fold_left handle evs' (handle s Escape) in
  started s' = false /\ visible s' = false /\ listeners s' = false /\
  start s' = start s /\ end_ s' = end_ s /\
  brushed PathD pathIntersection s' path = true.
Proof.
  intros Hev s.
  assert (H0 : started (handle s Escape) = false /\
               visible (handle s Escape) = false /\
               listeners (handle s Escape) = false /\
               start (handle s Escape) = start s /\
               end_ (handle s Escape) = end_ s) by (cbn; auto).
  revert Hev H0. generalize (handle s Escape) as s0.
  induction evs' as [|ev evs' IH]; intros s0 Hev H0; cbn.
  - destruct H0 as (? & Hv & ? & ? & ?). repeat split; auto.
    unfold brushed. now rewrite Hv.
  - cbn in Hev. apply andb_true_iff in Hev as [Hnc Hev].
    apply IH; [exact Hev|].
    destruct H0 as (Hs & Hv & Hl & Ha & Hb).
    destruct s0 as [st en vi a b ld sh li dh dt]. cbn in *. subst.
    destruct ev; try discriminate; cbn; auto.
Qed.

End WithRaphael.

(** X5, a brush completed by two clicks. *)
Lemma complete_brush_ignores_clicks_witness :
  let evs := [Click (mkPoint 0 0); MouseMove (mkPoint 5 5); Click (mkPoint 10 10)] in
  let p := mkPoint 3 4 in
  process p (run evs) = (run evs, None) /\
  handle (run evs) (Click p) = run evs /\
  (dragHeadActive (run evs) = false -> dragTailActive (run evs) = false ->
   handle (run evs) (MouseMove p) = run evs).
Proof.
  intros evs p. apply complete_brush_ignores_clicks; reflexivity.
Defined.

(** X6, the brush from (0, 0) to (10, 10), its head dragged to (0, 10),
    and the path from (0, 10) to (10, 0). *)
Lemma handle_drag_moves_endpoint_witness :
  let evs := [Click (mkPoint 0 0); Click (mkPoint 10 10)] in
  let p := mkPoint 0 10 in
  let s' := fold_left handle [HeadDown; MouseMove p; HeadUp] (run evs) in
  start s' = p /\ end_ s' = mkPoint 10 10 /\ line_d s' = (p, mkPoint 10 10) /\
  (brushed _ polyline_intersection s' (Some [mkPoint 0 10; mkPoint 10 0]) = true <->
   polyline_intersection [mkPoint 0 10; mkPoint 10 0] (p, mkPoint 10 10) <> []).
Proof.
  intros evs p s'.
  destruct (handle_drag_moves_endpoint _ polyline_intersection evs p
              [mkPoint 0 10; mkPoint 10 0] eq_refl eq_refl) as [Hhead _].
  destruct (Hhead eq_refl) as (_ & Hs & He & _ & _ & Hd & Hb).
  exact (conj Hs (conj He (conj Hd Hb))).
Defined.

(** X7, a completed brush that is cancelled; the pointer then moves and a
    handle is pressed. *)
Lemma cancelled_brush_ignores_moves_witness :
  let evs := [Click (mkPoint 0 0); Click (mkPoint 10 10)] in
  let evs' := [MouseMove (mkPoint 3 3); HeadDown; MouseMove (mkPoint 4 4); HeadUp] in
  let s := run evs in
  let s' := fold_left handle evs' (handle s Escape) in
  started s' = false /\ visible s' = false /\ listeners s' = false /\
  start s' = start s /\ end_ s' = end_ s /\
  brushed _ polyline_intersection s' (Some [mkPoint 20 0; mkPoint 30 10]) = true.
Proof.
  intros evs evs'. apply cancelled_brush_ignores_moves. reflexivity.
Defined.

End LineBrushFacts.

(** ** The chart *)

Module ChartFacts.

Import Axis Chart ChartSpec.

Section WithLibraries.

Variable d3_scale : scale_kind -> scale_domain -> Q * Q -> value -> option Q.
Variable d3_scalePoint : Q -> list string -> string -> option Q.
Variable PathD : Type.
Variable pathIntersection : PathD -> Point * Point -> list Point.
Variable d3_line : bool -> list (option Q * Q) -> option PathD.

(** *** Selection passes *)

Lemma isBrushed_axes_true (c : Chart PathD) (item : DataRow) :
  isBrushed_axes d3_scale PathD c item = true <->
  forall key ax, axes PathD c !! key = Some ax -> axis_selects d3_scale ax item = true.
Proof.
  unfold isBrushed_axes. rewrite forallb_forall. split.
  - intros H key ax Hk. apply (H ax).
    apply in_map_iff. exists (key, ax). split; [reflexivity|].
    apply list_elem_of_In. now apply elem_of_map_to_list.
  - intros H ax Hin. apply in_map_iff in Hin.
    destruct Hin as ([key ax'] & E & Hin). cbn in E. subst ax'.
    apply list_elem_of_In, elem_of_map_to_list in Hin. eauto.
Qed.

Lemma isBrushed_conj (c : Chart PathD) (node : Polyline PathD) :
  Chart.isBrushed d3_scale PathD pathIntersection c node =
  isBrushed_axes d3_scale PathD c (datum PathD node)
  && line_selects PathD pathIntersection c (d PathD node).
Proof. reflexivity. Qed.

Lemma one_brush_grew_isBrushed (c0 c : Chart PathD) (node : Polyline PathD) :
  one_brush_grew d3_scale PathD pathIntersection c0 c ->
  Chart.isBrushed d3_scale PathD pathIntersection c0 node = true ->
  Chart.isBrushed d3_scale PathD pathIntersection c node = true.
Proof.
  intros Hg. rewrite !isBrushed_conj, !andb_true_iff. intros [Ha Hl].
  destruct Hg as [key a0 a1 Hk Hax Hlb Hsel | Hax Hline].
  - split.
    + apply isBrushed_axes_true. intros key' ax Hk'.
      rewrite isBrushed_axes_true in Ha. rewrite Hax in Hk'.
      destruct (decide (key = key')) as [<-|Hne].
      * rewrite lookup_insert_eq in Hk'. inversion Hk'; subst. eauto.
      * rewrite lookup_insert_ne in Hk' by exact Hne. eauto.
    + unfold line_selects in *. now rewrite Hlb.
  - split.
    + apply isBrushed_axes_true. rewrite isBrushed_axes_true in Ha.
      now rewrite Hax.
    + now apply Hline.
Qed.


Lemma brush_node_datum (c : Chart PathD) (dir : option BRUSHING_DIRECTION)
  (node : Polyline PathD) :
  datum PathD (brush_node d3_scale PathD pathIntersection c dir node)
    = datum PathD node /\
  d PathD (brush_node d3_scale PathD pathIntersection c dir node) = d PathD node.
Proof.
  unfold brush_node. destruct dir as [[|]|]; cbn;
    case_ifs; split; reflexivity.
Qed.

Lemma isBrushed_brush_node (c c' : Chart PathD) (dir : option BRUSHING_DIRECTION)
  (node : Polyline PathD) :
  Chart.isBrushed d3_scale PathD pathIntersection c'
    (brush_node d3_scale PathD pathIntersection c dir node)
  = Chart.isBrushed d3_scale PathD pathIntersection c' node.
Proof.
  rewrite !isBrushed_conj.
  destruct (brush_node_datum c dir node) as [-> ->]. reflexivity.
Qed.

(** A full pass, an EXTEND pass on a polyline without the class, and a
    SHRINK pass on a polyline with the class set the class to the result
    of the full test. *)
Lemma brush_node_retested (c : Chart PathD) (dir : option BRUSHING_DIRECTION)
  (node : Polyline PathD) :
  match dir with
  | None => True
  | Some EXTEND => brushed PathD node = false
  | Some SHRINK => brushed PathD node = true
  end ->
  brushed PathD (brush_node d3_scale PathD pathIntersection c dir node)
  = Chart.isBrushed d3_scale PathD pathIntersection c node.
Proof.
  unfold brush_node. destruct dir as [[|]|]; intros H.
  - rewrite H. cbn.
    destruct (Chart.isBrushed d3_scale PathD pathIntersection c node) eqn:E;
      cbn; [reflexivity | exact H].
  - rewrite H. cbn.
    destruct (Chart.isBrushed d3_scale PathD pathIntersection c node) eqn:E;
      cbn; [exact H | reflexivity].
  - reflexivity.
Qed.

(** After an accurate pass the classes are those computed for [c]: the
    next pass can start from them. *)
Lemma brush_pass_consistent (c0 c : Chart PathD)
  (dir : option BRUSHING_DIRECTION) :
  consistent d3_scale PathD pathIntersection c0 (polylines PathD c) ->
  hint_accurate d3_scale PathD pathIntersection dir c0 c ->
  consistent d3_scale PathD pathIntersection c
    (polylines PathD (brush d3_scale PathD pathIntersection dir c)).
Proof.
  intros Hcons Hacc. apply Forall_forall. intros node' Hin.
  apply list_elem_of_In in Hin.
  unfold brush in Hin. cbn in Hin. apply in_map_iff in Hin.
  destruct Hin as (node & <- & Hin).
  rewrite isBrushed_brush_node.
  unfold consistent in Hcons. rewrite Forall_forall in Hcons.
  assert (Hnode := Hcons node (proj2 (list_elem_of_In _ _) Hin)).
  destruct dir as [[|]|]; cbn in Hacc.
  - (* EXTEND *)
    destruct (brushed PathD node) eqn:Eb.
    + unfold brush_node. rewrite Eb. cbn. rewrite Eb.
      symmetry. apply (one_brush_grew_isBrushed c0 c node Hacc).
      now rewrite <- Hnode.
    + now apply brush_node_retested.
  - (* SHRINK *)
    destruct (brushed PathD node) eqn:Eb.
    + now apply brush_node_retested.
    + unfold brush_node. rewrite Eb. cbn. rewrite Eb. symmetry.
      destruct (Chart.isBrushed d3_scale PathD pathIntersection c node) eqn:E;
        [|reflexivity].
      rewrite (one_brush_grew_isBrushed c c0 node Hacc E) in Hnode.
      discriminate.
  - now apply brush_node_retested.
Qed.


(** In a run of passes that starts from classes computed by a full pass
    and in which every hint is accurate, the classes are at the end those
    of the last brushes. *)
Lemma passes_consistent
  (steps : list (Chart PathD * option BRUSHING_DIRECTION)) :
  forall c,
    consistent d3_scale PathD pathIntersection c (polylines PathD c) ->
    hints_accurate d3_scale PathD pathIntersection c steps ->
    let c' := fold_left (next_pass d3_scale PathD pathIntersection) steps c in
    consistent d3_scale PathD pathIntersection c' (polylines PathD c').
Proof.
  induction steps as [|step rest IH]; intros c Hc Hacc; cbn; [exact Hc|].
  destruct Hacc as [H1 H2]. apply IH; [|exact H2].
  unfold next_pass.
  pose proof (brush_pass_consistent c
                (set_polylines PathD (polylines PathD c) (fst step)) (snd step)
                Hc H1) as H.
  unfold consistent in *. eapply Forall_impl; [exact H|].
  cbn. intros node ->. reflexivity.
Qed.

(** *** Clearing a brush *)




(** *** A data update that changes the type of an attribute *)

Lemma merge_columns_type_change (old columns : list Dimension)
  (col existingDim : Dimension) :
  In col columns ->
  find_dim (name col) old = Some existingDim ->
  attr_type col <> attr_type existingDim ->
  exists n, merge_columns old columns = Throw (ErrTypeChanged n) /\
            exists col' existingDim',
              In col' columns /\ name col' = n /\
              find_dim n old = Some existingDim' /\
              attr_type col' <> attr_type existingDim'.
Proof.
  induction columns as [|c0 rest IH]; intros Hin Hfind Hty; [contradiction|].
  cbn [merge_columns]. unfold merge_column at 1.
  destruct (find_dim (name c0) old) as [ex0|] eqn:E0.
  - destruct (decide (attr_type c0 = attr_type ex0)) as [Heq|Hne].
    + rewrite (bool_decide_eq_true_2 _ Heq).
      destruct Hin as [->|Hin]; [congruence|].
      destruct (IH Hin Hfind Hty) as (n & -> & col' & ex' & H1 & H2 & H3 & H4).
      exists n. split; [reflexivity|]. exists col', ex'.
      repeat split; auto. now right.
    + rewrite (bool_decide_eq_false_2 _ Hne).
      exists (name c0). split; [reflexivity|]. exists c0, ex0.
      repeat split; auto. now left.
  - destruct Hin as [->|Hin]; [congruence|].
    destruct (IH Hin Hfind Hty) as (n & -> & col' & ex' & H1 & H2 & H3 & H4).
    exists n. split; [reflexivity|]. exists col', ex'.
    repeat split; auto. now right.
Qed.

(** C5 (as amended: the stored rows are not covered).  When the columns
    derived from the new rows contain a column whose name is the name of a
    present dimension and whose type differs from that dimension's type,
    [setRows] throws the type-change error for the first such column; the
    error reaches the caller, and the dimensions, the axes, the order of
    the axes in the positional scale, the drag positions, the polylines
    and the line brush are those from before the call. *)
Theorem setRows_type_change_spec (c : Chart PathD) (rows : DataRows)
  (columns : list Dimension) (modifiedRows : DataRows)
  (col existingDim : Dimension) :
  Data.prepareData rows = Ok (columns, modifiedRows) ->
  In col columns ->
  find_dim (name col) (dimensions PathD c) = Some existingDim ->
  attr_type col <> attr_type existingDim ->
  exists n,
    setRows d3_scale PathD pathIntersection rows c
      = (set_data PathD (Some modifiedRows) c, Throw (ErrTypeChanged n)) /\
    (exists col' existingDim',
       In col' columns /\ name col' = n /\
       find_dim n (dimensions PathD c) = Some existingDim' /\
       attr_type col' <> attr_type existingDim') /\
    let c' := fst (setRows d3_scale PathD pathIntersection rows c) in
    dimensions PathD c' = dimensions PathD c /\
    xScale_domain PathD c' = xScale_domain PathD c /\
    axes PathD c' = axes PathD c /\
    dragging PathD c' = dragging PathD c /\
    polylines PathD c' = polylines PathD c /\
    lineBrush PathD c' = lineBrush PathD c.
Proof.
  intros Hprep Hin Hfind Hty.
  destruct (merge_columns_type_change _ _ _ _ Hin Hfind Hty)
    as (n & Hmerge & Hwhy).
  exists n.
  assert (E : setRows d3_scale PathD pathIntersection rows c
              = (set_data PathD (Some modifiedRows) c, Throw (ErrTypeChanged n))).
  { unfold setRows, bind, lift, modify, get. rewrite Hprep. cbn.
    rewrite Hmerge. reflexivity. }
  split; [exact E|]. split; [exact Hwhy|].
  rewrite E. cbn. repeat split; reflexivity.
Qed.

(** A data update whose columns cannot be typed throws before anything is
    assigned. *)
Lemma setRows_ambiguous_column (c : Chart PathD) (rows : DataRows) (e : error) :
  Data.prepareData rows = Throw e ->
  setRows d3_scale PathD pathIntersection rows c = (c, Throw e).
Proof.
  intros H. unfold setRows, bind, lift. now rewrite H.
Qed.

(** *** Dragging an axis *)

Lemma sort_insert_Permutation (c : Chart PathD) (x : Dimension)
  (l : list Dimension) :
  Permutation (sort_insert d3_scalePoint PathD c x l) (x :: l).
Proof.
  induction l as [|y rest IH]; cbn; [reflexivity|].
  destruct (position_lt d3_scalePoint PathD c y x); [|reflexivity].
  rewrite IH. apply perm_swap.
Qed.

Lemma sort_by_position_Permutation (c : Chart PathD) (l : list Dimension) :
  Permutation (sort_by_position d3_scalePoint PathD c l) l.
Proof.
  induction l as [|x rest IH]; cbn; [reflexivity|].
  rewrite sort_insert_Permutation. now constructor.
Qed.

Lemma pos_le_trans (c : Chart PathD) (a b e : Dimension) :
  pos_le d3_scalePoint PathD c a b -> pos_le d3_scalePoint PathD c b e -> pos_le d3_scalePoint PathD c a e.
Proof.
  intros (p & q & Hp & Hq & Hle) (q' & r & Hq' & Hr & Hle').
  rewrite Hq in Hq'. inversion Hq'; subst q'.
  exists p, r. repeat split; auto. eapply Qle_trans; eauto.
Qed.

Lemma position_lt_pos_le (c : Chart PathD) (a b : Dimension) :
  position_lt d3_scalePoint PathD c a b = true -> pos_le d3_scalePoint PathD c a b.
Proof.
  unfold position_lt, pos_le.
  destruct (position d3_scalePoint PathD c (name a)) as [p|]; [|discriminate].
  destruct (position d3_scalePoint PathD c (name b)) as [q|]; [|discriminate].
  intros H. apply NumberFacts.Qlt_bool_iff in H.
  exists p, q. repeat split; auto. now apply Qlt_le_weak.
Qed.

Lemma position_not_lt_pos_le (c : Chart PathD) (a b : Dimension) :
  is_Some (position d3_scalePoint PathD c (name a)) ->
  is_Some (position d3_scalePoint PathD c (name b)) ->
  position_lt d3_scalePoint PathD c a b = false -> pos_le d3_scalePoint PathD c b a.
Proof.
  unfold position_lt, pos_le. intros [p ->] [q ->] H.
  apply NumberFacts.Qlt_bool_false_iff in H. eauto.
Qed.

Lemma sort_insert_sorted (c : Chart PathD) (x : Dimension) (l : list Dimension) :
  (forall dim, In dim (x :: l) ->
     is_Some (position d3_scalePoint PathD c (name dim))) ->
  StronglySorted (pos_le d3_scalePoint PathD c) l ->
  StronglySorted (pos_le d3_scalePoint PathD c) (sort_insert d3_scalePoint PathD c x l).
Proof.
  induction l as [|y rest IH]; intros Hpos Hs; cbn.
  - repeat constructor.
  - inversion Hs as [|? ? Hrest Hy]; subst.
    destruct (position_lt d3_scalePoint PathD c y x) eqn:E.
    + constructor.
      * apply IH; [|exact Hrest].
        intros dim [<-|Hin]; apply Hpos; [now left | right; now right].
      * apply (Permutation_Forall
                 (Permutation_sym (sort_insert_Permutation c x rest))).
        constructor; [now apply position_lt_pos_le | exact Hy].
    + assert (Hxy : pos_le d3_scalePoint PathD c x y).
      { apply position_not_lt_pos_le; [| |exact E]; apply Hpos;
          [right; now left | now left]. }
      constructor; [exact Hs|]. constructor; [exact Hxy|].
      eapply Forall_impl; [exact Hy|]. cbn. intros e He.
      eapply pos_le_trans; eauto.
Qed.

Lemma sort_by_position_sorted (c : Chart PathD) (l : list Dimension) :
  (forall dim, In dim l ->
     is_Some (position d3_scalePoint PathD c (name dim))) ->
  StronglySorted (pos_le d3_scalePoint PathD c) (sort_by_position d3_scalePoint PathD c l).
Proof.
  induction l as [|x rest IH]; intros Hpos; cbn; [constructor|].
  apply sort_insert_sorted.
  - intros dim [<-|Hin]; [apply Hpos; now left|].
    apply Hpos. right.
    eapply Permutation_in; [apply sort_by_position_Permutation | exact Hin].
  - apply IH. intros dim Hin. apply Hpos. now right.
Qed.

(** The sort leaves a list alone whose order already fits the positions. *)
Lemma sort_by_position_of_sorted (c : Chart PathD) (l : list Dimension) :
  (forall dim, In dim l ->
     is_Some (position d3_scalePoint PathD c (name dim))) ->
  StronglySorted (pos_le d3_scalePoint PathD c) l ->
  sort_by_position d3_scalePoint PathD c l = l.
Proof.
  induction l as [|x rest IH]; intros Hpos Hs; [reflexivity|].
  inversion Hs as [|? ? Hrest Hx]; subst.
  change (sort_by_position d3_scalePoint PathD c (x :: rest))
    with (sort_insert d3_scalePoint PathD c x
            (sort_by_position d3_scalePoint PathD c rest)).
  rewrite IH; [|intros; apply Hpos; now right|exact Hrest].
  destruct rest as [|y rest']; cbn; [reflexivity|].
  inversion Hx as [|? ? Hxy _]; subst.
  destruct (position_lt d3_scalePoint PathD c y x) eqn:E; [|reflexivity].
  exfalso. unfold position_lt in E.
  destruct Hxy as (p & q & Hp & Hq & Hle). rewrite Hp, Hq in E.
  apply NumberFacts.Qlt_bool_iff in E. exact (Qlt_not_le _ _ E Hle).
Qed.

(** C7 (as amended: the pointer is clamped to [0, options.width]).
    [position] is the drag position of an axis that is being dragged and
    the position in the positional scale of every other axis.  A drag-move
    event stores the pointer's x clamped to [0, options.width] as the drag
    position of the axis, sorts all dimensions by their positions at that
    moment (the sort permutes them and puts them in ascending order), and
    makes the names in the new order the domain of the positional scale. *)
Theorem drag_move_spec (c : Chart PathD) (dim : Dimension) (event_x : Q) :
  let c1 :=
    set_dragging PathD
      (<[name dim := Some (clamp_pointer PathD c event_x)]> (dragging PathD c)) c in
  (forall other, In other (dimensions PathD c) ->
     is_Some (position d3_scalePoint PathD c1 (name other))) ->
  let c' := fst (drag_move d3_scale d3_scalePoint PathD d3_line dim event_x c) in
  (forall (c2 : Chart PathD) (n : string),
     position d3_scalePoint PathD c2 n =
       match dragging PathD c2 !! n with
       | Some x => x
       | None => xScale d3_scalePoint PathD c2 n
       end) /\
  dragging PathD c' =
    <[name dim := Some (clamp_pointer PathD c event_x)]> (dragging PathD c) /\
  position d3_scalePoint PathD c' (name dim) = Some (clamp_pointer PathD c event_x) /\
  ((0 <= width (options PathD c))%Q ->
     (0 <= clamp_pointer PathD c event_x)%Q /\
     (clamp_pointer PathD c event_x <= width (options PathD c))%Q) /\
  dimensions PathD c' = sort_by_position d3_scalePoint PathD c1 (dimensions PathD c) /\
  Permutation (dimensions PathD c') (dimensions PathD c) /\
  StronglySorted (pos_le d3_scalePoint PathD c1) (dimensions PathD c') /\
  xScale_domain PathD c' = map name (dimensions PathD c') /\
  (forall n, dragging PathD c' !! n = None ->
     position d3_scalePoint PathD c' n =
       d3_scalePoint (canvasWidth PathD c) (map name (dimensions PathD c')) n).
Proof.
  intros c1 Hpos c'.
  set (c3 := set_xScale_domain PathD
               (map name (sort_by_position d3_scalePoint PathD c1 (dimensions PathD c)))
               (set_dimensions PathD
                  (sort_by_position d3_scalePoint PathD c1 (dimensions PathD c)) c1)).
  assert (Hc' : c' = c3 \/ exists nodes, c' = set_polylines PathD nodes c3).
  { unfold c', drag_move, bind, modify, get, lift. cbn.
    fold (clamp_pointer PathD c event_x). fold c1.
    destruct (redraw_lines d3_scale d3_scalePoint PathD d3_line _ _) as [nodes|e];
      cbn; [right; eexists; reflexivity | now left]. }
  assert (Hdrag : dragging PathD c' =
                  <[name dim := Some (clamp_pointer PathD c event_x)]> (dragging PathD c)).
  { destruct Hc' as [->|[nodes ->]]; reflexivity. }
  assert (Hdims : dimensions PathD c' =
                  sort_by_position d3_scalePoint PathD c1 (dimensions PathD c)).
  { destruct Hc' as [->|[nodes ->]]; reflexivity. }
  assert (Hdom : xScale_domain PathD c' = map name (dimensions PathD c')).
  { destruct Hc' as [->|[nodes ->]]; reflexivity. }
  assert (Hw : canvasWidth PathD c' = canvasWidth PathD c).
  { destruct Hc' as [->|[nodes ->]]; reflexivity. }
  split; [reflexivity|]. split; [exact Hdrag|]. split; [|split].
  - unfold position. rewrite Hdrag, lookup_insert_eq. reflexivity.
  - intros Hwidth. unfold clamp_pointer. split.
    + apply Q.min_glb; [exact Hwidth | apply Q.le_max_l].
    + apply Q.le_min_l.
  - split; [exact Hdims|]. rewrite Hdims.
    split; [apply sort_by_position_Permutation|].
    split; [now apply sort_by_position_sorted|].
    split; [now rewrite <- Hdims|].
    intros n Hn. unfold position, xScale. rewrite Hn, Hdom, Hw, Hdims.
    reflexivity.
Qed.

End WithLibraries.

End ChartFacts.

(** ** Brush events and the classes of the polylines *)

Module BrushFacts.

Import Axis Chart ChartSpec NumberFacts AxisFacts ChartFacts.

(** *** Clearing twice *)


(** *** The hint of an objective axis *)

Section WithD3.

Variable d3_scale : scale_kind -> scale_domain -> Q * Q -> value -> option Q.


End WithD3.

(** *** From a brush event to the classes of the polylines *)

Section WithLibraries.

Variable d3_scale : scale_kind -> scale_domain -> Q * Q -> value -> option Q.
Variable PathD : Type.
Variable pathIntersection : PathD -> Point * Point -> list Point.



(** *** The callback of the line brush *)



(** *** Clearing all brushes *)

Variable d3_scalePoint : Q -> list string -> string -> option Q.
Variable d3_line : bool -> list (option Q * Q) -> option PathD.

Lemma clearBrush_listening (now : nat) (ax : Axis) :
  listening ax ->
  exists ax1,
    clearBrush now ax =
      (ax1, [mkInvocation now (name (dimension ax)) (Some EXTEND)]) /\
    listening ax1 /\ active_selection ax1 = None.
Proof.
  intros (Hcls & Hhs & [bg Hbg]).
  destruct ax as [cls dim sc bgo hs nan [tid|] tms sq]; cbn in *; subst;
    destruct cls; try contradiction; cbn; eexists;
    (split; [reflexivity|]); (split; [|reflexivity]);
    (split; [exact Hcls|]); (split; [reflexivity|]); cbn; eauto.
Qed.

(** The loop of [clearBrushes] over the dimensions [dims]. *)
Lemma clearBrushes_loop (dims : list Dimension) : forall c : Chart PathD,
  (forall path, line_selects PathD pathIntersection c path = true) ->
  (forall key ax, axes PathD c !! key = Some ax ->
     listening ax /\ (active_selection ax = None \/ key ∈ map name dims)) ->
  (forall dim, dim ∈ dims -> is_Some (axes PathD c !! name dim)) ->
  exists c',
    forEach PathD
      (fun dim =>
         bind PathD (get PathD) (fun c0 =>
           match axes PathD c0 !! name dim with
           | None => throw PathD ErrTypeError
           | Some ax =>
               let '(ax', invs) := clearBrush (clock PathD c0) ax in
               modify PathD (fun c1 =>
                 run_invocations d3_scale PathD pathIntersection invs
                   (set_axes PathD (<[name dim := ax']> (axes PathD c1)) c1))
           end)) dims c = (c', Ok tt) /\
    (forall key ax, axes PathD c' !! key = Some ax ->
       listening ax /\ active_selection ax = None) /\
    (forall path, line_selects PathD pathIntersection c' path = true) /\
    (dims <> [] ->
     Forall (fun node => brushed PathD node = true) (polylines PathD c')) /\
    map (datum PathD) (polylines PathD c') = map (datum PathD) (polylines PathD c) /\
    dimensions PathD c' = dimensions PathD c.
Proof.
  induction dims as [|dim rest IH]; intros c Hline Hax Hdims.
  - exists c. split; [reflexivity|]. split; [|split; [exact Hline|]].
    + intros key ax Hk. destruct (Hax key ax Hk) as [Hl [Hs|Hin]]; [auto|].
      now apply elem_of_nil in Hin.
    + split; [congruence|]. split; reflexivity.
  - destruct (Hdims dim) as [ax Hk]; [apply elem_of_cons; now left|].
    destruct (Hax _ _ Hk) as [Hl _].
    destruct (clearBrush_listening (clock PathD c) ax Hl) as (ax1 & Hclear & Hl1 & Hs1).
    set (cA := set_axes PathD (<[name dim := ax1]> (axes PathD c)) c).
    set (c1 := brush d3_scale PathD pathIntersection (Some EXTEND) cA).
    assert (Hax1 : forall key ax0, axes PathD c1 !! key = Some ax0 ->
              listening ax0 /\
              (active_selection ax0 = None \/ key ∈ map name rest)).
    { intros key ax0. unfold c1, cA. cbn.
      destruct (decide (name dim = key)) as [<-|Hne].
      - rewrite lookup_insert_eq. intros [= <-]. auto.
      - rewrite lookup_insert_ne by exact Hne. intros Hk0.
        destruct (Hax _ _ Hk0) as [Hl0 [Hs0|Hin]]; [auto|].
        split; [exact Hl0|]. right. cbn in Hin.
        apply elem_of_cons in Hin as [->|Hin]; [contradiction | exact Hin]. }
    destruct (IH c1) as (c' & Hrun & Haxes & Hline' & Hall & Hdatum & Hdim).
    + exact Hline.
    + exact Hax1.
    + intros dim' Hin. unfold c1, cA. cbn.
      apply lookup_insert_is_Some'. right. apply Hdims, elem_of_cons. now right.
    + exists c'. split.
      * cbn [forEach]. unfold bind at 1 2. cbn [get]. rewrite Hk, Hclear.
        exact Hrun.
      * split; [exact Haxes|]. split; [exact Hline'|]. split; [|split].
        -- intros _. destruct rest as [|dim' rest']; [|apply Hall; discriminate].
           cbn in Hrun. injection Hrun as <-.
           apply Forall_forall. intros node' Hin.
           apply list_elem_of_In in Hin. unfold c1, brush in Hin. cbn in Hin.
           apply in_map_iff in Hin. destruct Hin as (node & <- & _).
           assert (Hb : Chart.isBrushed d3_scale PathD pathIntersection cA node
                        = true).
           { rewrite isBrushed_conj. apply andb_true_iff. split; [|apply Hline].
             apply isBrushed_axes_true. intros key ax0 Hk0.
             destruct (Hax1 key ax0 Hk0) as [_ [Hs0|Hin]];
               [|now apply elem_of_nil in Hin].
             now apply isBrushed_no_selection. }
           unfold brush_node. destruct (brushed PathD node) eqn:Eb; cbn;
             [exact Eb | now rewrite Hb].
        -- rewrite Hdatum. unfold c1, brush. cbn. rewrite map_map.
           apply map_ext. intros node. apply brush_node_datum.
        -- rewrite Hdim. reflexivity.
Qed.

(** X13.  On a chart without a visible line brush, whose axes are all
    registered axes of class [DefaultAxis] or [ParameterAxis] with their
    brush handler set, one for every dimension, [clearBrushes] removes the
    selection of every axis and leaves every polyline with the class
    [brushed]: the selected set is the whole dataset. *)
Theorem clearBrushes_selects_all (c : Chart PathD) :
  (forall path, line_selects PathD pathIntersection c path = true) ->
  dimensions PathD c <> [] ->
  (forall key ax, axes PathD c !! key = Some ax ->
     listening ax /\ key ∈ map name (dimensions PathD c)) ->
  (forall dim, dim ∈ dimensions PathD c -> is_Some (axes PathD c !! name dim)) ->
  exists c',
    clearBrushes d3_scale PathD pathIntersection c = (c', Ok tt) /\
    (forall key ax, axes PathD c' !! key = Some ax -> active_selection ax = None) /\
    Forall (fun node => brushed PathD node = true) (polylines PathD c') /\
    consistent d3_scale PathD pathIntersection c' (polylines PathD c') /\
    map (datum PathD) (polylines PathD c') = map (datum PathD) (polylines PathD c) /\
    dimensions PathD c' = dimensions PathD c.
Proof.
  intros Hline Hne Hax Hdims.
  destruct (clearBrushes_loop (dimensions PathD c) c Hline) as
    (c' & Hrun & Haxes & Hline' & Hall & Hdatum & Hdim).
  - intros key ax Hk. destruct (Hax key ax Hk). auto.
  - exact Hdims.
  - exists c'. split; [exact Hrun|]. split; [|split; [auto|split; [|auto]]].
    + intros key ax Hk. now destruct (Haxes key ax Hk).
    + eapply Forall_impl; [exact (Hall Hne)|]. cbn. intros node ->. symmetry.
      rewrite isBrushed_conj. apply andb_true_iff. split; [|apply Hline'].
      apply isBrushed_axes_true. intros key ax Hk.
      destruct (Haxes key ax Hk) as [_ Hs]. now apply isBrushed_no_selection.
Qed.

End WithLibraries.

End BrushFacts.

(** ** Updates of the data and of the dimensions *)

Module UpdateFacts.

Import Axis Chart ChartSpec DataFacts ChartFacts.

Section WithLibraries.

Variable d3_scale : scale_kind -> scale_domain -> Q * Q -> value -> option Q.
Variable PathD : Type.
Variable pathIntersection : PathD -> Point * Point -> list Point.

(** *** Loops over the chart *)

(** A loop keeps an invariant [I] of the elements done so far as long as
    its body returns; a throw of the body, which ends the loop, is
    described by [E]. *)
Lemma forEach_post {A} (f : A -> M PathD Datatypes.unit) (P : A -> Prop)
  (I : list A -> Chart PathD -> Prop) (E : Chart PathD -> error -> Prop)
  (xs : list A) :
  (forall done x c, P x -> I done c ->
     match f x c with
     | (c', Ok _) => I (done ++ [x])%list c'
     | (c', Throw e) => E c' e
     end) ->
  Forall P xs ->
  forall done c, I done c ->
    match forEach PathD f xs c with
    | (c', Ok _) => I (done ++ xs)%list c'
    | (c', Throw e) => E c' e
    end.
Proof.
  intros Hbody HP. induction HP as [|x xs Hx _ IH]; intros done c HI; cbn.
  - now rewrite app_nil_r.
  - unfold bind. specialize (Hbody done x c Hx HI).
    destruct (f x c) as [c1 [[]|e]]; [|exact Hbody].
    specialize (IH (done ++ [x])%list c1 Hbody).
    now rewrite <- app_assoc in IH.
Qed.

(** *** What the parts of [updateAxes] keep *)

Lemma same_frame_refl (c : Chart PathD) : same_frame PathD c c.
Proof. repeat split. Qed.

Lemma same_frame_trans (c1 c2 c3 : Chart PathD) :
  same_frame PathD c1 c2 -> same_frame PathD c2 c3 -> same_frame PathD c1 c3.
Proof.
  unfold same_frame. intros H1 H2.
  repeat match goal with H : _ /\ _ |- _ => destruct H end.
  repeat split; congruence.
Qed.

Lemma same_frame_set_axes (c : Chart PathD) (m : gmap string Axis) :
  same_frame PathD c (set_axes PathD m c).
Proof. repeat split. Qed.

Lemma same_frame_brush (c : Chart PathD) (dir : option BRUSHING_DIRECTION) :
  same_frame PathD c (brush d3_scale PathD pathIntersection dir c).
Proof.
  repeat split; cbn; rewrite map_map; apply map_ext; intros node;
    apply (brush_node_datum d3_scale PathD pathIntersection).
Qed.

Lemma run_invocations_keeps (invs : list Invocation) : forall c : Chart PathD,
  same_frame PathD c (run_invocations d3_scale PathD pathIntersection invs c) /\
  axes PathD (run_invocations d3_scale PathD pathIntersection invs c) = axes PathD c.
Proof.
  induction invs as [|inv invs IH]; intros c; cbn.
  - split; [apply same_frame_refl | reflexivity].
  - destruct (IH (brush d3_scale PathD pathIntersection (inv_direction inv) c))
      as [Hf Ha].
    split; [|exact Ha].
    eapply same_frame_trans; [apply same_frame_brush | exact Hf].
Qed.

(** *** The lists of [updateAxes] *)

Lemma take_named_elem (n : string) (dims : list Dimension) :
  forall x rest, take_named n dims = Some (x, rest) ->
  forall y, y ∈ dims <-> y = x \/ y ∈ rest.
Proof.
  induction dims as [|dim dims IH]; intros x rest; cbn; [discriminate|].
  case_bool_decide.
  - intros [= <- <-] y. apply elem_of_cons.
  - destruct (take_named n dims) as [[x' rest']|]; [|discriminate].
    intros [= <- <-] y. rewrite !elem_of_cons, (IH x' rest' eq_refl y). tauto.
Qed.

Lemma last_removelast_elem (dims : list Dimension) (x : Dimension) :
  List.last (map Some dims) None = Some x ->
  forall y, y ∈ dims <-> y = x \/ y ∈ List.removelast dims.
Proof.
  induction dims as [|dim dims IH]; [discriminate|].
  destruct dims as [|dim' dims].
  - cbn. intros [= <-] y. rewrite elem_of_cons, elem_of_nil. tauto.
  - intros H y. change (List.removelast (dim :: dim' :: dims))
      with (dim :: List.removelast (dim' :: dims)).
    specialize (IH H y). rewrite !elem_of_cons. rewrite elem_of_cons in IH. tauto.
Qed.

Lemma splice_named_elem (n : string) (dims : list Dimension)
  (x : Dimension) (rest : list Dimension) :
  splice_named n dims = (Some x, rest) ->
  forall y, y ∈ dims <-> y = x \/ y ∈ rest.
Proof.
  unfold splice_named.
  destruct (take_named n dims) as [[x' rest']|] eqn:E.
  - intros [= <- <-]. now apply take_named_elem with n.
  - intros [= H <-]. now apply last_removelast_elem.
Qed.

(** The loop over the copy of [toBeModified] moves dimensions from
    [toBeModified] to [toBeRemoved] and [toBeAdded], and throws nothing but
    a TypeError. *)
Lemma regroup_elem (old copy : list Dimension) :
  forall M R A,
    match regroup old copy (M, R, A) with
    | Ok (M', R', A') =>
        (forall y, y ∈ M' \/ y ∈ A' <-> y ∈ M \/ y ∈ A) /\
        (forall y, y ∈ M' -> y ∈ M) /\
        (forall y, y ∈ R -> y ∈ R') /\
        (forall y, y ∈ R' -> y ∈ R \/ y ∈ M)
    | Throw e => e = ErrTypeError
    end.
Proof.
  induction copy as [|dim copy IH]; intros M R A; cbn.
  - repeat split; tauto.
  - destruct (find_dim (name dim) old) as [oldDim|]; [|apply IH].
    destruct (xorb _ _); [|apply IH].
    destruct (splice_named (name dim) M) as [[x|] M'] eqn:E; [|reflexivity].
    pose proof (splice_named_elem _ _ _ _ E) as HM.
    specialize (IH M' (R ++ [x])%list (A ++ [x])%list).
    destruct (regroup old copy (M', (R ++ [x])%list, (A ++ [x])%list))
      as [[[M2 R2] A2]|e]; [|exact IH].
    destruct IH as (H1 & H2 & H3 & H4). repeat split.
    + intros Hy. apply H1 in Hy. rewrite elem_of_app, list_elem_of_singleton in Hy.
      rewrite HM. tauto.
    + intros Hy. apply H1. rewrite elem_of_app, list_elem_of_singleton.
      rewrite HM in Hy. tauto.
    + intros y Hy. apply HM. right. now apply H2.
    + intros y Hy. apply H3. rewrite elem_of_app. now left.
    + intros y Hy. apply H4 in Hy.
      rewrite elem_of_app, list_elem_of_singleton in Hy. rewrite HM. tauto.
Qed.

(** *** One axis *)

Lemma is_NaN_marker_iff (v : value) : is_NaN_marker v = true <-> v = NaN_marker.
Proof.
  destruct v as [n|s|]; cbn; try (split; discriminate).
  rewrite bool_decide_eq_true. unfold NaN_marker. split; congruence.
Qed.

Lemma invalid_values_iff (rows : DataRows) (k : string) :
  Nat.ltb 0 (List.length
               (List.filter is_NaN_marker (map (fun item => row_get item k) rows)))
    = true <->
  exists row, row ∈ rows /\ row_get row k = NaN_marker.
Proof.
  induction rows as [|row rows IH]; cbn.
  - split; [discriminate|]. intros (row & Hin & _). now apply elem_of_nil in Hin.
  - destruct (is_NaN_marker (row_get row k)) eqn:E; cbn.
    + split; [|reflexivity]. intros _. exists row.
      split; [apply elem_of_cons; now left | now apply is_NaN_marker_iff].
    + rewrite IH. split.
      * intros (r & Hin & Hr). exists r. split; [apply elem_of_cons; now right|exact Hr].
      * intros (r & Hin & Hr). apply elem_of_cons in Hin as [->|Hin]; [|eauto].
        apply is_NaN_marker_iff in Hr. congruence.
Qed.

Lemma updateAxis_post (ax : Axis) (c : Chart PathD) :
  match updateAxis PathD ax c with
  | (c', Ok _) =>
      exists ax2,
        c' = set_axes PathD (<[name (dimension ax) := ax2]> (axes PathD c)) c /\
        dimension ax2 = dimension ax /\ axis_class ax2 = axis_class ax /\
        brushGroup ax2 = brushGroup ax /\
        sc_range (scale ax2) = (canvasHeight PathD c, 0%Q) /\
        sc_domain (scale ax2) = axis_domain (dimension ax) /\
        (forall rows, data PathD c = Some rows ->
           (NANIndicatorEnabled ax2 = true <->
            exists row, row ∈ rows /\
                        row_get row (name (dimension ax)) = NaN_marker))
  | (c', Throw e) => c' = c /\ e = ErrTypeError
  end.
Proof.
  unfold updateAxis, bind, get, lift, throw, modify. cbn.
  fold (axis_domain (dimension ax)).
  unfold setScale.
  destruct (sc_kind (scale ax)) eqn:Ek, (axis_domain (dimension ax)) eqn:Ed;
    cbn; try (split; reflexivity);
    (destruct (data PathD c) as [rows|] eqn:Edata; [|split; reflexivity]);
    cbn -[Nat.ltb]; eexists; (split; [reflexivity|]); cbn -[Nat.ltb];
    (do 5 (split; [reflexivity|])); intros rows' [= <-];
    apply invalid_values_iff.
Qed.

Lemma clearBrush_keeps (now : nat) (ax : Axis) :
  dimension (fst (clearBrush now ax)) = dimension ax /\
  axis_class (fst (clearBrush now ax)) = axis_class ax /\
  (axis_class ax <> ObjectiveAxisC ->
   active_selection (fst (clearBrush now ax)) = None).
Proof.
  destruct ax as [cls dim sc [[sel up lo hc]|] hs nan [tid|] tms sq];
    destruct cls, hs; cbn; repeat split; try reflexivity; try contradiction;
    destruct (obj_is MAX dim), (obj_is MIN dim); cbn; reflexivity.
Qed.

Lemma generateAxis_post (c : Chart PathD) (dim : Dimension) :
  match generateAxis PathD c dim with
  | Ok ax => dimension ax = dim /\ brushGroup ax = None
  | Throw e =>
      e = ErrTypeError \/
      (e = ErrObjectiveNotNumerical /\ is_Some (lineBrush PathD c) /\
       hasTypeObjective dim = true /\ attr_type dim = NOMINAL)
  end.
Proof.
  unfold generateAxis, new_ObjectiveAxis, new_axis.
  destruct (lineBrush PathD c) as [lb|]; [destruct (hasTypeObjective dim) eqn:Eo|];
    destruct (attr_type dim) eqn:Et; try destruct (statistics dim);
    cbn; auto.
Qed.

(** The body of the loop of [updateAxes] over [toBeModified]. *)
Lemma modify_body_post (dims : list Dimension) (c0 : Chart PathD)
  (dim : Dimension) (c : Chart PathD) :
  dim ∈ dims -> same_frame PathD c0 c ->
  match
    bind PathD (get PathD) (fun c1 =>
      match axes PathD c1 !! name dim with
      | None => throw PathD ErrTypeError
      | Some ax =>
          let '(ax', invs) := clearBrush (clock PathD c1) (setDimension ax dim) in
          bind PathD
            (modify PathD (fun c2 =>
               run_invocations d3_scale PathD pathIntersection invs
                 (set_axes PathD (<[name dim := ax']> (axes PathD c2)) c2)))
            (fun _ => updateAxis PathD ax')
      end) c
  with
  | (c', Ok _) =>
      same_frame PathD c0 c' /\
      exists ax2, axes PathD c' = <[name dim := ax2]> (axes PathD c) /\
                  axis_updated PathD c0 dims (name dim) ax2
  | (c', Throw e) => same_frame PathD c0 c' /\ e = ErrTypeError
  end.
Proof.
  intros Hin Hf. unfold bind at 1. cbn [get].
  destruct (axes PathD c !! name dim) as [ax|]; [|split; [exact Hf | reflexivity]].
  pose proof (clearBrush_keeps (clock PathD c) (setDimension ax dim))
    as (Hdim & Hcls & Hsel).
  destruct (clearBrush (clock PathD c) (setDimension ax dim)) as [ax' invs].
  cbn [fst] in *. unfold bind, modify.
  set (c1 := run_invocations d3_scale PathD pathIntersection invs
               (set_axes PathD (<[name dim := ax']> (axes PathD c)) c)).
  destruct (run_invocations_keeps invs
              (set_axes PathD (<[name dim := ax']> (axes PathD c)) c))
    as [Hf1 Ha1]. fold c1 in Hf1, Ha1. cbn [axes set_axes] in Ha1.
  assert (Hf01 : same_frame PathD c0 c1).
  { eapply same_frame_trans; [exact Hf|].
    eapply same_frame_trans; [apply same_frame_set_axes | exact Hf1]. }
  pose proof (updateAxis_post ax' c1) as Hu.
  destruct (updateAxis PathD ax' c1) as [c' [[]|e]].
  - destruct Hu as (ax2 & -> & Hd2 & Hc2 & Hb2 & Hr2 & Hdom2 & Hnan2).
    split; [eapply same_frame_trans; [exact Hf01 | apply same_frame_set_axes]|].
    exists ax2. cbn [axes set_axes]. rewrite Hdim in *. cbn [setDimension dimension] in *.
    split; [now rewrite Ha1, insert_insert_eq|].
    destruct Hf01 as (Hdata & _ & _ & Hh & _).
    unfold axis_updated. rewrite Hd2, Hr2, Hdom2, Hh.
    split; [reflexivity|]. split; [exact Hin|]. split; [reflexivity|].
    split; [reflexivity|]. split.
    + intros rows Hrows. apply Hnan2. now rewrite Hdata.
    + intros Hne. unfold active_selection. rewrite Hb2.
      apply Hsel. now rewrite <- Hcls, <- Hc2.
  - destruct Hu as [-> ->]. split; [exact Hf01 | reflexivity].
Qed.

(** The body of the loop of [updateAxes] over [toBeAdded]. *)
Lemma add_body_post (dims : list Dimension) (c0 : Chart PathD)
  (dim : Dimension) (c : Chart PathD) :
  dim ∈ dims -> same_frame PathD c0 c ->
  match
    bind PathD (get PathD) (fun c1 =>
      bind PathD (lift PathD (generateAxis PathD c1 dim)) (fun ax =>
        updateAxis PathD (setBrushHandler ax))) c
  with
  | (c', Ok _) =>
      same_frame PathD c0 c' /\
      exists ax2, axes PathD c' = <[name dim := ax2]> (axes PathD c) /\
                  axis_updated PathD c0 dims (name dim) ax2
  | (c', Throw e) =>
      same_frame PathD c0 c' /\
      (e = ErrTypeError \/
       (e = ErrObjectiveNotNumerical /\ is_Some (lineBrush PathD c0) /\
        exists dim', dim' ∈ dims /\ hasTypeObjective dim' = true /\
                     attr_type dim' = NOMINAL))
  end.
Proof.
  intros Hin Hf. unfold bind at 1. cbn [get]. unfold bind, lift.
  pose proof (generateAxis_post c dim) as Hg.
  destruct (generateAxis PathD c dim) as [ax|e].
  - destruct Hg as [Hdim Hbg].
    pose proof (updateAxis_post (setBrushHandler ax) c) as Hu.
    destruct (updateAxis PathD (setBrushHandler ax) c) as [c' [[]|e]].
    + destruct Hu as (ax2 & -> & Hd2 & Hc2 & Hb2 & Hr2 & Hdom2 & Hnan2).
      cbn [setBrushHandler dimension brushGroup] in *. rewrite Hdim in *.
      split; [eapply same_frame_trans; [exact Hf | apply same_frame_set_axes]|].
      exists ax2. split; [reflexivity|].
      destruct Hf as (Hdata & _ & _ & Hh & _).
      unfold axis_updated. rewrite Hd2, Hr2, Hdom2, Hh.
      split; [reflexivity|]. split; [exact Hin|]. split; [reflexivity|].
      split; [reflexivity|]. split.
      * intros rows Hrows. apply Hnan2. now rewrite Hdata.
      * intros _. unfold active_selection. now rewrite Hb2, Hbg.
    + destruct Hu as [-> ->]. split; [exact Hf | now left].
  - split; [exact Hf|]. destruct Hg as [->|(-> & Hlb & Ho & Ht)]; [now left|].
    right. split; [reflexivity|]. split.
    + destruct Hf as (_ & _ & _ & _ & _ & _ & _ & <- & _). exact Hlb.
    + exists dim. auto.
Qed.

Lemma has_name_iff (n : string) (dims : list Dimension) :
  has_name n dims = true <-> n ∈ map name dims.
Proof.
  unfold has_name. induction dims as [|dim dims IH]; cbn.
  - split; [discriminate | intros []%elem_of_nil].
  - rewrite orb_true_iff, bool_decide_eq_true, elem_of_cons, IH.
    split; intros [H|H]; auto.
Qed.

Lemma elem_of_filter_iff {A} (f : A -> bool) (l : list A) (x : A) :
  x ∈ List.filter f l <-> x ∈ l /\ f x = true.
Proof. rewrite !list_elem_of_In. apply filter_In. Qed.

Lemma elem_of_names (dims : list Dimension) (dim : Dimension) :
  dim ∈ dims -> name dim ∈ map name dims.
Proof. intros H. apply list_elem_of_In, in_map, list_elem_of_In, H. Qed.

(** *** [updateAxes] *)

(** [updateAxes] after the dimensions of the chart were replaced: what it
    leaves when it returns and what it can throw. *)
Lemma updateAxes_post (old : list Dimension) (c : Chart PathD) :
  let dims := dimensions PathD c in
  let c0 := set_xScale_domain PathD (map name dims) c in
  match updateAxes d3_scale PathD pathIntersection old c with
  | (c', r) =>
      same_frame PathD c0 c' /\
      match r with
      | Ok _ =>
          (forall dim, dim ∈ dims ->
             exists ax, axes PathD c' !! name dim = Some ax /\
                        axis_updated PathD c dims (name dim) ax) /\
          (forall o, o ∈ old -> ~ name o ∈ map name dims ->
             axes PathD c' !! name o = None) /\
          (forall k, ~ k ∈ map name dims -> ~ k ∈ map name old ->
             axes PathD c' !! k = axes PathD c !! k)
      | Throw e =>
          e = ErrTypeError \/
          (e = ErrObjectiveNotNumerical /\ is_Some (lineBrush PathD c) /\
           exists dim, dim ∈ dims /\ hasTypeObjective dim = true /\
                       attr_type dim = NOMINAL)
      end
  end.
Proof.
  intros dims c0. unfold updateAxes.
  unfold bind at 1. unfold modify at 1. unfold bind at 1. cbn [get].
  change (dimensions PathD (set_xScale_domain PathD
            (map name (dimensions PathD c)) c)) with dims.
  fold dims. fold c0.
  set (R := List.filter (fun oldDim => negb (has_name (name oldDim) dims)) old).
  set (A := List.filter (fun dim => negb (has_name (name dim) old)) dims).
  set (M := List.filter (fun dim => has_name (name dim) old) dims).
  unfold bind at 1. unfold lift at 1.
  pose proof (regroup_elem old M M R A) as Hre.
  destruct (regroup old M (M, R, A)) as [[[M' R'] A']|e];
    [|split; [apply same_frame_refl | now left]].
  destruct Hre as (HMA & HM' & HR & HR').
  assert (HMdims : forall y, y ∈ M -> y ∈ dims).
  { intros y Hy. now apply elem_of_filter_iff in Hy as [Hy _]. }
  assert (HAdims : forall y, y ∈ A -> y ∈ dims).
  { intros y Hy. now apply elem_of_filter_iff in Hy as [Hy _]. }
  assert (HM'dims : Forall (fun y => y ∈ dims) M').
  { apply Forall_forall. auto. }
  assert (HA'dims : Forall (fun y => y ∈ dims) A').
  { apply Forall_forall. intros y Hy.
    destruct (proj1 (HMA y) (or_intror Hy)); auto. }
  (* the loop over toBeRemoved *)
  unfold bind at 1.
  match goal with
  | |- context [forEach PathD ?f R' c0] =>
      pose proof (forEach_post f (fun _ => True)
                    (fun done c1 =>
                       same_frame PathD c0 c1 /\
                       forall k, (k ∈ map name done -> axes PathD c1 !! k = None) /\
                                 (~ k ∈ map name done ->
                                  axes PathD c1 !! k = axes PathD c !! k))
                    (fun _ _ => False) R') as H1
  end.
  specialize (H1 ltac:(
    intros done x c1 _ [Hf Hk]; cbn; split;
      [eapply same_frame_trans; [exact Hf | apply same_frame_set_axes]|];
      intros k; rewrite map_app, elem_of_app; cbn [map];
      rewrite list_elem_of_singleton;
      destruct (decide (k = name x)) as [->|Hne];
      [rewrite lookup_delete_eq; split; [reflexivity | tauto]
      |rewrite lookup_delete_ne by congruence;
       destruct (Hk k) as [Hk1 Hk2]; split; [intros [?|?]; [auto | contradiction]
                                            | intros ?; apply Hk2; tauto]])).
  specialize (H1 ltac:(apply Forall_forall; auto) [] c0
                 ltac:(split; [apply same_frame_refl|];
                       intros k; split; [intros []%elem_of_nil | reflexivity])).
  cbn [app] in H1.
  destruct (forEach PathD _ R' c0) as [c1 [[]|e1]]; [|contradiction].
  destruct H1 as [Hf1 Hk1].
  (* the loop over toBeModified *)
  unfold bind at 1.
  match goal with
  | |- context [forEach PathD ?f M' c1] =>
      pose proof (forEach_post f (fun y => y ∈ dims)
                    (fun done c2 =>
                       same_frame PathD c0 c2 /\
                       forall k,
                         (k ∈ map name done ->
                          exists ax, axes PathD c2 !! k = Some ax /\
                                     axis_updated PathD c dims k ax) /\
                         (~ k ∈ map name done ->
                          axes PathD c2 !! k = axes PathD c1 !! k))
                    (fun c2 e => same_frame PathD c0 c2 /\ e = ErrTypeError) M') as H2
  end.
  specialize (H2 ltac:(
    intros done x c2 Hx [Hf Hk];
    pose proof (modify_body_post dims c0 x c2 Hx Hf) as Hb;
    match goal with |- match ?t with _ => _ end =>
      change t with (bind PathD (get PathD) (fun c1 =>
        match axes PathD c1 !! name x with
        | None => throw PathD ErrTypeError
        | Some ax =>
            let '(ax', invs) := clearBrush (clock PathD c1) (setDimension ax x) in
            bind PathD
              (modify PathD (fun c2 =>
                 run_invocations d3_scale PathD pathIntersection invs
                   (set_axes PathD (<[name x := ax']> (axes PathD c2)) c2)))
              (fun _ => updateAxis PathD ax')
        end) c2)
    end;
    destruct (bind PathD (get PathD) _ c2) as [c3 [[]|e]]; [|exact Hb];
    destruct Hb as (Hf3 & ax2 & Ha3 & Hup); split; [exact Hf3|];
    intros k; rewrite map_app, elem_of_app; cbn [map];
    rewrite list_elem_of_singleton, Ha3;
    destruct (decide (k = name x)) as [->|Hne];
    [rewrite lookup_insert_eq; split; [eauto | tauto]
    |rewrite lookup_insert_ne by congruence;
     destruct (Hk k) as [Hk1' Hk2']; split;
     [intros [?|?]; [auto | contradiction] | intros ?; apply Hk2'; tauto]])).
  specialize (H2 HM'dims [] c1
                 ltac:(split; [exact Hf1|];
                       intros k; split; [intros []%elem_of_nil | reflexivity])).
  cbn [app] in H2.
  destruct (forEach PathD _ M' c1) as [c2 [[]|e2]];
    [|destruct H2 as [Hf2 ->]; split; [exact Hf2 | now left]].
  destruct H2 as [Hf2 Hk2].
  (* the loop over toBeAdded *)
  match goal with
  | |- context [forEach PathD ?f A' c2] =>
      pose proof (forEach_post f (fun y => y ∈ dims)
                    (fun done c3 =>
                       same_frame PathD c0 c3 /\
                       forall k,
                         (k ∈ map name done ->
                          exists ax, axes PathD c3 !! k = Some ax /\
                                     axis_updated PathD c dims k ax) /\
                         (~ k ∈ map name done ->
                          axes PathD c3 !! k = axes PathD c2 !! k))
                    (fun c3 e =>
                       same_frame PathD c0 c3 /\
                       (e = ErrTypeError \/
                        (e = ErrObjectiveNotNumerical /\
                         is_Some (lineBrush PathD c0) /\
                         exists dim', dim' ∈ dims /\ hasTypeObjective dim' = true /\
                                      attr_type dim' = NOMINAL))) A') as H3
  end.
  specialize (H3 ltac:(
    intros done x c3 Hx [Hf Hk];
    pose proof (add_body_post dims c0 x c3 Hx Hf) as Hb;
    match goal with |- match ?t with _ => _ end =>
      change t with (bind PathD (get PathD) (fun c1 =>
        bind PathD (lift PathD (generateAxis PathD c1 x)) (fun ax =>
          updateAxis PathD (setBrushHandler ax))) c3)
    end;
    destruct (bind PathD (get PathD) _ c3) as [c4 [[]|e]]; [|exact Hb];
    destruct Hb as (Hf4 & ax2 & Ha4 & Hup); split; [exact Hf4|];
    intros k; rewrite map_app, elem_of_app; cbn [map];
    rewrite list_elem_of_singleton, Ha4;
    destruct (decide (k = name x)) as [->|Hne];
    [rewrite lookup_insert_eq; split; [eauto | tauto]
    |rewrite lookup_insert_ne by congruence;
     destruct (Hk k) as [Hk1' Hk2']; split;
     [intros [?|?]; [auto | contradiction] | intros ?; apply Hk2'; tauto]])).
  specialize (H3 HA'dims [] c2
                 ltac:(split; [exact Hf2|];
                       intros k; split; [intros []%elem_of_nil | reflexivity])).
  cbn [app] in H3.
  destruct (forEach PathD _ A' c2) as [c3 [[]|e3]];
    [|destruct H3 as [Hf3 He3]; split; [exact Hf3 | exact He3]].
  destruct H3 as [Hf3 Hk3]. split; [exact Hf3|].
  assert (Hnames : forall (l : list Dimension) k,
            k ∈ map name l -> exists y, y ∈ l /\ name y = k).
  { intros l k Hk. apply list_elem_of_In, in_map_iff in Hk as (y & <- & Hy).
    exists y. split; [now apply list_elem_of_In | reflexivity]. }
  split; [|split].
  - intros dim Hdim.
    assert (HMA0 : dim ∈ M \/ dim ∈ A).
    { destruct (has_name (name dim) old) eqn:E.
      - left. now apply elem_of_filter_iff.
      - right. apply elem_of_filter_iff. now rewrite E. }
    apply HMA in HMA0.
    destruct (decide (name dim ∈ map name A')) as [HA|HA].
    + now apply (Hk3 (name dim)).
    + destruct HMA0 as [HM0|HA0]; [|now apply elem_of_names in HA0].
      rewrite (proj2 (Hk3 (name dim)) HA).
      apply (Hk2 (name dim)). now apply elem_of_names.
  - intros o Ho Hno.
    assert (HoR : o ∈ R').
    { apply HR, elem_of_filter_iff. split; [exact Ho|].
      destruct (has_name (name o) dims) eqn:E; [|reflexivity].
      now apply has_name_iff in E. }
    assert (Hnot : forall l, (forall y, y ∈ l -> y ∈ dims) ->
              ~ name o ∈ map name l).
    { intros l Hl Hk. apply Hnames in Hk as (y & Hy & Hn).
      apply Hno. rewrite <- Hn. apply elem_of_names. auto. }
    rewrite (proj2 (Hk3 (name o))) by (apply Hnot; rewrite <- Forall_forall; exact HA'dims).
    rewrite (proj2 (Hk2 (name o))) by (apply Hnot; rewrite <- Forall_forall; exact HM'dims).
    apply (Hk1 (name o)). now apply elem_of_names.
  - intros k Hkd Hko.
    assert (Hnot : forall l, (forall y, y ∈ l -> y ∈ dims \/ y ∈ old) ->
              ~ k ∈ map name l).
    { intros l Hl Hk. apply Hnames in Hk as (y & Hy & <-).
      destruct (Hl y Hy) as [H|H]; apply elem_of_names in H; contradiction. }
    rewrite (proj2 (Hk3 k)) by
      (apply Hnot; intros y Hy; left; revert y Hy; rewrite <- Forall_forall;
       exact HA'dims).
    rewrite (proj2 (Hk2 k)) by
      (apply Hnot; intros y Hy; left; revert y Hy; rewrite <- Forall_forall;
       exact HM'dims).
    apply (Hk1 k). apply Hnot. intros y Hy.
    destruct (HR' y Hy) as [H|H]; [|left; auto].
    right. now apply elem_of_filter_iff in H as [H _].
Qed.

(** *** [setDimensions] *)

Lemma forallb_false_elem {A} (f : A -> bool) (l : list A) :
  forallb f l = false -> exists x, x ∈ l /\ f x = false.
Proof.
  induction l as [|x l IH]; cbn; [discriminate|].
  intros [H|H]%andb_false_iff.
  - exists x. split; [apply elem_of_cons; now left | exact H].
  - destruct (IH H) as (y & Hin & Hy).
    exists y. split; [apply elem_of_cons; now right | exact Hy].
Qed.

Lemma isSubset_false (c : Chart PathD) (dims : list Dimension) :
  isSubset PathD c dims = Ok false ->
  exists rows dim row,
    data PathD c = Some rows /\ dim ∈ dims /\ row ∈ rows /\
    has_key (name dim) row = false.
Proof.
  unfold isSubset. destruct dims as [|dim0 dims0]; [discriminate|].
  destruct (data PathD c) as [rows|]; [|discriminate].
  intros H. exists rows.
  assert (H' : forallb (fun dim => forallb (has_key (name dim)) rows)
                 (dim0 :: dims0) = false) by congruence.
  apply forallb_false_elem in H' as (dim & Hd & H').
  apply forallb_false_elem in H' as (row & Hr & H').
  exists dim, row. auto.
Qed.

Lemma isSubset_true (c : Chart PathD) (dims : list Dimension) :
  isSubset PathD c dims = Ok true ->
  dims = [] \/
  exists rows, data PathD c = Some rows /\
    forall dim row, dim ∈ dims -> row ∈ rows -> has_key (name dim) row = true.
Proof.
  unfold isSubset. destruct dims as [|dim0 dims0]; [now left|].
  destruct (data PathD c) as [rows|]; [|discriminate].
  intros H. right. exists rows. split; [reflexivity|].
  assert (H' : forallb (fun dim => forallb (has_key (name dim)) rows)
                 (dim0 :: dims0) = true) by congruence.
  intros dim row Hd Hr. rewrite forallb_forall in H'.
  specialize (H' dim (proj1 (list_elem_of_In _ _) Hd)).
  rewrite forallb_forall in H'. apply H'. now apply list_elem_of_In.
Qed.

Lemma setDimensions_unfold (dims : list Dimension) (c : Chart PathD) :
  setDimensions d3_scale PathD pathIntersection dims c =
  match isSubset PathD c dims with
  | Ok true =>
      updateAxes d3_scale PathD pathIntersection (dimensions PathD c)
        (set_dimensions PathD dims c)
  | Ok false => (c, Throw ErrDimensionMismatch)
  | Throw e => (c, Throw e)
  end.
Proof.
  unfold setDimensions. unfold bind at 1. cbn [get]. unfold bind at 1, lift.
  destruct (isSubset PathD c dims) as [[|]|e]; reflexivity.
Qed.

(** X14.  [setDimensions] either rejects the dimensions before it changes
    anything (with the mismatch error when a row lacks the property of a
    dimension, with a TypeError when the chart has no rows yet), or it
    installs them and then updates the axes.  It is not atomic: when the
    update of the axes throws, the new dimensions and the domain of the
    horizontal scale stay installed.  The error of [ObjectiveAxis] for a
    nominal objective is such a throw: it leaves the new dimensions in a
    chart with a line brush. *)
Theorem setDimensions_outcome (dims : list Dimension) (c : Chart PathD) :
  let c' := fst (setDimensions d3_scale PathD pathIntersection dims c) in
  let installed :=
    dimensions PathD c' = dims /\ xScale_domain PathD c' = map name dims /\
    data PathD c' = data PathD c /\ lineBrush PathD c' = lineBrush PathD c /\
    dragging PathD c' = dragging PathD c /\
    map (datum PathD) (polylines PathD c') = map (datum PathD) (polylines PathD c) in
  match snd (setDimensions d3_scale PathD pathIntersection dims c) with
  | Ok _ =>
      installed /\
      (dims = [] \/
       exists rows, data PathD c = Some rows /\
         forall dim row, dim ∈ dims -> row ∈ rows ->
                         has_key (name dim) row = true)
  | Throw ErrDimensionMismatch =>
      c' = c /\
      exists rows dim row,
        data PathD c = Some rows /\ dim ∈ dims /\ row ∈ rows /\
        has_key (name dim) row = false
  | Throw ErrObjectiveNotNumerical =>
      installed /\ is_Some (lineBrush PathD c) /\
      exists dim, dim ∈ dims /\ hasTypeObjective dim = true /\
                  attr_type dim = NOMINAL
  | Throw ErrTypeError =>
      (c' = c /\ data PathD c = None /\ dims <> []) \/ installed
  | Throw _ => False
  end.
Proof.
  intros c' installed. subst c' installed. rewrite setDimensions_unfold.
  destruct (isSubset PathD c dims) as [[|]|e] eqn:Esub.
  - (* the dimensions are accepted *)
    pose proof (updateAxes_post (dimensions PathD c) (set_dimensions PathD dims c))
      as Hpost.
    cbn [dimensions set_dimensions] in Hpost.
    destruct (updateAxes d3_scale PathD pathIntersection (dimensions PathD c)
                (set_dimensions PathD dims c)) as [c' r].
    destruct Hpost as [Hf Hr]. cbn [fst snd].
    assert (Hinst : dimensions PathD c' = dims /\
                    xScale_domain PathD c' = map name dims /\
                    data PathD c' = data PathD c /\
                    lineBrush PathD c' = lineBrush PathD c /\
                    dragging PathD c' = dragging PathD c /\
                    map (datum PathD) (polylines PathD c')
                    = map (datum PathD) (polylines PathD c)).
    { destruct Hf as (H1 & H2 & _ & _ & _ & H3 & H4 & H5 & _ & H6 & _).
      repeat split; assumption. }
    destruct r as [[]|e].
    + split; [exact Hinst | now apply isSubset_true].
    + destruct Hr as [->|(-> & Hlb & Hdim)]; [now right|].
      split; [exact Hinst|]. split; [exact Hlb | exact Hdim].
  - (* a row lacks a property *)
    cbn. split; [reflexivity | now apply isSubset_false].
  - (* the chart has no rows *)
    cbn. unfold isSubset in Esub. destruct dims as [|dim0 dims0]; [discriminate|].
    destruct (data PathD c) as [rows|]; [discriminate|].
    injection Esub as <-. left. repeat split. discriminate.
Qed.

(** X15.  When [setDimensions] returns, every dimension has an axis under
    its name: the axis is bound to a dimension of that name (to the
    dimension itself when the names are pairwise different), its scale has
    the range from the canvas height to 0 and the domain of the
    dimension's statistics, its indicator of invalid values is on exactly
    when a row holds the marker ["NaN"] for the dimension, and unless it is
    an objective axis its brush selection is gone.  The axes of the
    dimensions that are no longer present are deleted, and no other axis
    is touched. *)
Theorem setDimensions_axes (dims : list Dimension) (c c' : Chart PathD) :
  setDimensions d3_scale PathD pathIntersection dims c = (c', Ok tt) ->
  (forall dim, dim ∈ dims ->
     exists ax, axes PathD c' !! name dim = Some ax /\
                axis_updated PathD c dims (name dim) ax /\
                (NoDup (map name dims) -> dimension ax = dim)) /\
  (forall o, o ∈ dimensions PathD c -> ~ name o ∈ map name dims ->
     axes PathD c' !! name o = None) /\
  (forall k, ~ k ∈ map name dims -> ~ k ∈ map name (dimensions PathD c) ->
     axes PathD c' !! k = axes PathD c !! k).
Proof.
  rewrite setDimensions_unfold.
  destruct (isSubset PathD c dims) as [[|]|e]; try discriminate.
  pose proof (updateAxes_post (dimensions PathD c) (set_dimensions PathD dims c))
    as Hpost.
  cbn [dimensions set_dimensions] in Hpost.
  destruct (updateAxes d3_scale PathD pathIntersection (dimensions PathD c)
              (set_dimensions PathD dims c)) as [c1 r].
  intros [= -> ->]. destruct Hpost as (_ & Hax & Hrem & Hother).
  split; [|split; [exact Hrem | exact Hother]].
  intros dim Hdim. destruct (Hax dim Hdim) as (ax & Hk & Hup).
  exists ax. split; [exact Hk|]. split; [exact Hup|].
  intros Hnd. destruct Hup as (Hn & Hin & _).
  clear - Hnd Hn Hin Hdim.
  induction dims as [|x dims IH]; [now apply elem_of_nil in Hdim|].
  cbn in Hnd. apply NoDup_cons in Hnd as [Hx Hnd].
  apply elem_of_cons in Hdim as [->|Hdim], Hin as [Hax|Hin]; auto.
  - exfalso. apply Hx. rewrite <- Hn.
    apply list_elem_of_In, in_map, list_elem_of_In, Hin.
  - exfalso. apply Hx. rewrite <- Hax, Hn.
    apply list_elem_of_In, in_map, list_elem_of_In, Hdim.
Qed.

(** *** When the update of the axes cannot throw *)

Lemma updateAxis_ok (ax : Axis) (c : Chart PathD) :
  is_Some (data PathD c) -> axis_domain (dimension ax) <> DomObject ->
  snd (updateAxis PathD ax c) = Ok tt.
Proof.
  intros [rows Hrows] Hdom.
  unfold updateAxis, bind, get, lift, throw, modify. cbn.
  fold (axis_domain (dimension ax)). unfold setScale.
  destruct (sc_kind (scale ax)), (axis_domain (dimension ax));
    try contradiction; cbn; rewrite Hrows; reflexivity.
Qed.

Lemma regroup_same (old copy : list Dimension)
  (lists : list Dimension * list Dimension * list Dimension) :
  (forall dim o, dim ∈ copy -> find_dim (name dim) old = Some o ->
     hasTypeObjective dim = hasTypeObjective o) ->
  regroup old copy lists = Ok lists.
Proof.
  induction copy as [|dim copy IH]; intros H; cbn; [reflexivity|].
  destruct lists as [[M R] A].
  assert (IH' : regroup old copy (M, R, A) = Ok (M, R, A)).
  { apply IH. intros d o Hd. apply H. apply elem_of_cons. now right. }
  destruct (find_dim (name dim) old) as [o|] eqn:E; [|exact IH'].
  rewrite (H dim o) by (try (apply elem_of_cons; now left); exact E).
  now rewrite xorb_nilpotent.
Qed.

Lemma find_dim_Some (n : string) (dims : list Dimension) :
  n ∈ map name dims -> is_Some (find_dim n dims).
Proof.
  unfold find_dim. induction dims as [|dim dims IH]; cbn.
  - intros []%elem_of_nil.
  - intros [->|H]%elem_of_cons.
    + rewrite bool_decide_eq_true_2 by reflexivity. eauto.
    + destruct (bool_decide (name dim = n)); [eauto | auto].
Qed.

Lemma find_dim_name (n : string) (dims : list Dimension) (o : Dimension) :
  find_dim n dims = Some o -> o ∈ dims /\ name o = n.
Proof.
  unfold find_dim. intros H. apply find_some in H as [Hin Hn].
  apply bool_decide_eq_true in Hn. split; [now apply list_elem_of_In | exact Hn].
Qed.

(** With rows in the chart, an axis for every old dimension, no dimension
    that became or ceased to be an objective, no nominal dimension without
    categories and no new objective, [updateAxes] returns. *)
Lemma updateAxes_succeeds (old : list Dimension) (c : Chart PathD) :
  is_Some (data PathD c) ->
  (forall o, o ∈ old -> is_Some (axes PathD c !! name o)) ->
  (forall dim o, dim ∈ dimensions PathD c ->
     find_dim (name dim) old = Some o ->
     hasTypeObjective dim = hasTypeObjective o) ->
  (forall dim, dim ∈ dimensions PathD c -> axis_domain dim <> DomObject) ->
  (forall dim, dim ∈ dimensions PathD c -> ~ name dim ∈ map name old ->
     hasTypeObjective dim = false) ->
  snd (updateAxes d3_scale PathD pathIntersection old c) = Ok tt.
Proof.
  intros Hdata Hold Hobj Hdom Hnew.
  set (dims := dimensions PathD c) in *.
  set (c0 := set_xScale_domain PathD (map name dims) c).
  unfold updateAxes.
  unfold bind at 1. unfold modify at 1. unfold bind at 1. cbn [get].
  change (dimensions PathD (set_xScale_domain PathD
            (map name (dimensions PathD c)) c)) with dims.
  fold dims. fold c0.
  set (R := List.filter (fun oldDim => negb (has_name (name oldDim) dims)) old).
  set (A := List.filter (fun dim => negb (has_name (name dim) old)) dims).
  set (M := List.filter (fun dim => has_name (name dim) old) dims).
  unfold bind at 1. unfold lift at 1.
  rewrite regroup_same
    by (intros dim o [Hd _]%elem_of_filter_iff; now apply Hobj).
  cbv beta iota.
  (* the loop over toBeRemoved *)
  unfold bind at 1.
  match goal with
  | |- context [forEach PathD ?f R c0] =>
      pose proof (forEach_post f (fun _ => True)
                    (fun done c1 =>
                       same_frame PathD c0 c1 /\
                       forall k, ~ k ∈ map name done ->
                                 axes PathD c1 !! k = axes PathD c !! k)
                    (fun _ _ => False) R) as H1
  end.
  specialize (H1 ltac:(
    intros done x c1 _ [Hf Hk]; cbn; split;
      [eapply same_frame_trans; [exact Hf | apply same_frame_set_axes]|];
      intros k; rewrite map_app, elem_of_app; cbn [map];
      rewrite list_elem_of_singleton; intros Hn;
      rewrite lookup_delete_ne by (intros E; apply Hn; right; now symmetry);
      apply Hk; tauto)).
  specialize (H1 ltac:(apply Forall_forall; auto) [] c0
                 ltac:(split; [apply same_frame_refl | reflexivity])).
  cbn [app] in H1.
  destruct (forEach PathD _ R c0) as [c1 [[]|e1]]; [|contradiction].
  destruct H1 as [Hf1 Hk1].
  assert (Hdata1 : forall c2, same_frame PathD c0 c2 -> is_Some (data PathD c2)).
  { intros c2 (-> & _). exact Hdata. }
  (* the loop over toBeModified *)
  unfold bind at 1.
  match goal with
  | |- context [forEach PathD ?f M c1] =>
      pose proof (forEach_post f
                    (fun y => y ∈ dims /\ is_Some (axes PathD c1 !! name y))
                    (fun done c2 =>
                       same_frame PathD c0 c2 /\
                       forall k, is_Some (axes PathD c1 !! k) ->
                                 is_Some (axes PathD c2 !! k))
                    (fun _ _ => False) M) as H2
  end.
  specialize (H2 ltac:(
    intros done x c2 [Hx Hsome] [Hf Hk];
    pose proof (modify_body_post dims c0 x c2 Hx Hf) as Hb;
    match goal with |- match ?t with _ => _ end =>
      change t with (bind PathD (get PathD) (fun c1 =>
        match axes PathD c1 !! name x with
        | None => throw PathD ErrTypeError
        | Some ax =>
            let '(ax', invs) := clearBrush (clock PathD c1) (setDimension ax x) in
            bind PathD
              (modify PathD (fun c2 =>
                 run_invocations d3_scale PathD pathIntersection invs
                   (set_axes PathD (<[name x := ax']> (axes PathD c2)) c2)))
              (fun _ => updateAxis PathD ax')
        end) c2) in *
    end;
    assert (Hok : snd (bind PathD (get PathD) (fun c1 =>
        match axes PathD c1 !! name x with
        | None => throw PathD ErrTypeError
        | Some ax =>
            let '(ax', invs) := clearBrush (clock PathD c1) (setDimension ax x) in
            bind PathD
              (modify PathD (fun c2 =>
                 run_invocations d3_scale PathD pathIntersection invs
                   (set_axes PathD (<[name x := ax']> (axes PathD c2)) c2)))
              (fun _ => updateAxis PathD ax')
        end) c2) = Ok tt);
    [ unfold bind at 1; cbn [get];
      destruct (Hk _ Hsome) as [ax ->];
      pose proof (clearBrush_keeps (clock PathD c2) (setDimension ax x))
        as (Hd & _ & _);
      destruct (clearBrush (clock PathD c2) (setDimension ax x)) as [ax' invs];
      cbn [fst] in Hd; unfold bind, modify;
      apply updateAxis_ok;
      [ apply Hdata1; eapply same_frame_trans; [exact Hf|];
        eapply same_frame_trans;
          [apply same_frame_set_axes | apply run_invocations_keeps]
      | rewrite Hd; cbn [setDimension dimension]; now apply Hdom ]
    | destruct (bind PathD (get PathD) _ c2) as [c3 [[]|e]];
      [ destruct Hb as (Hf3 & ax2 & Ha3 & _); split; [exact Hf3|];
        intros k Hk0; rewrite Ha3; apply lookup_insert_is_Some'; right; auto
      | discriminate ] ])).
  assert (HM : Forall (fun y => y ∈ dims /\ is_Some (axes PathD c1 !! name y)) M).
  { apply Forall_forall. intros y [Hy Hn]%elem_of_filter_iff.
    split; [exact Hy|]. apply has_name_iff in Hn.
    rewrite Hk1.
    - destruct (find_dim_Some _ _ Hn) as [o Ho].
      destruct (find_dim_name _ _ _ Ho) as [Hoin <-]. now apply Hold.
    - intros Hk. apply list_elem_of_In, in_map_iff in Hk as (o & Hno & Ho).
      apply list_elem_of_In, elem_of_filter_iff in Ho as [_ Ho].
      apply negb_true_iff in Ho.
      assert (Hyes : has_name (name o) dims = true).
      { apply has_name_iff. rewrite Hno. now apply elem_of_names. }
      congruence. }
  specialize (H2 HM [] c1 ltac:(split; [exact Hf1 | auto])).
  cbn [app] in H2.
  destruct (forEach PathD _ M c1) as [c2 [[]|e2]]; [|contradiction].
  destruct H2 as [Hf2 _].
  (* the loop over toBeAdded *)
  match goal with
  | |- context [forEach PathD ?f A c2] =>
      pose proof (forEach_post f
                    (fun y => y ∈ dims /\ hasTypeObjective y = false)
                    (fun done c3 => same_frame PathD c0 c3)
                    (fun _ _ => False) A) as H3
  end.
  specialize (H3 ltac:(
    intros done x c3 [Hx Hno] Hf;
    pose proof (add_body_post dims c0 x c3 Hx Hf) as Hb;
    match goal with |- match ?t with _ => _ end =>
      change t with (bind PathD (get PathD) (fun c1 =>
        bind PathD (lift PathD (generateAxis PathD c1 x)) (fun ax =>
          updateAxis PathD (setBrushHandler ax))) c3) in *
    end;
    assert (Hok : snd (bind PathD (get PathD) (fun c1 =>
        bind PathD (lift PathD (generateAxis PathD c1 x)) (fun ax =>
          updateAxis PathD (setBrushHandler ax))) c3) = Ok tt);
    [ unfold bind at 1; cbn [get]; unfold bind, lift;
      pose proof (generateAxis_post c3 x) as Hg;
      assert (Hgen : exists ax, generateAxis PathD c3 x = Ok ax);
      [ unfold generateAxis, new_ObjectiveAxis, new_axis; rewrite Hno;
        specialize (Hdom x Hx); unfold axis_domain in Hdom;
        destruct (lineBrush PathD c3), (attr_type x); try destruct (statistics x);
        try contradiction; eauto
      | destruct Hgen as [ax Hax]; rewrite Hax in Hg |- *;
        destruct Hg as [Hd _];
        apply updateAxis_ok;
        [ now apply Hdata1
        | cbn [setBrushHandler dimension]; rewrite Hd; now apply Hdom ] ]
    | destruct (bind PathD (get PathD) _ c3) as [c4 [[]|e]];
      [ now destruct Hb | discriminate ] ])).
  assert (HA : Forall (fun y => y ∈ dims /\ hasTypeObjective y = false) A).
  { apply Forall_forall. intros y [Hy Hn]%elem_of_filter_iff.
    split; [exact Hy|]. apply Hnew; [exact Hy|].
    intros Hk. apply has_name_iff in Hk. rewrite Hk in Hn. discriminate. }
  specialize (H3 HA [] c2 Hf2). cbn [app] in H3.
  destruct (forEach PathD _ A c2) as [c3 [[]|e3]]; [reflexivity | contradiction].
Qed.

Lemma setDimensions_Ok (dims : list Dimension) (c c' : Chart PathD) :
  setDimensions d3_scale PathD pathIntersection dims c = (c', Ok tt) ->
  same_frame PathD
    (set_xScale_domain PathD (map name dims) (set_dimensions PathD dims c)) c' /\
  (forall dim, dim ∈ dims ->
     exists ax, axes PathD c' !! name dim = Some ax /\
                axis_updated PathD c dims (name dim) ax) /\
  (forall o, o ∈ dimensions PathD c -> ~ name o ∈ map name dims ->
     axes PathD c' !! name o = None).
Proof.
  rewrite setDimensions_unfold.
  destruct (isSubset PathD c dims) as [[|]|e]; try discriminate.
  pose proof (updateAxes_post (dimensions PathD c) (set_dimensions PathD dims c))
    as Hpost.
  cbn [dimensions set_dimensions] in Hpost.
  destruct (updateAxes d3_scale PathD pathIntersection (dimensions PathD c)
              (set_dimensions PathD dims c)) as [c1 r].
  intros [= -> ->]. destruct Hpost as (Hf & Hax & Hrem & _). auto.
Qed.

Lemma axis_updated_frame (c c' : Chart PathD) (dims : list Dimension)
  (k : string) (ax : Axis) :
  canvasHeight PathD c' = canvasHeight PathD c -> data PathD c' = data PathD c ->
  axis_updated PathD c dims k ax -> axis_updated PathD c' dims k ax.
Proof. unfold axis_updated. intros -> ->. auto. Qed.

(** *** [setRows] *)

Lemma setRows_unfold (rows : DataRows) (c : Chart PathD) :
  setRows d3_scale PathD pathIntersection rows c =
  match Data.prepareData rows with
  | Throw e => (c, Throw e)
  | Ok (columns, modifiedRows) =>
      match merge_columns (dimensions PathD c) columns with
      | Throw e => (set_data PathD (Some modifiedRows) c, Throw e)
      | Ok columns' =>
          setDimensions d3_scale PathD pathIntersection columns'
            (set_data PathD (Some modifiedRows) c)
      end
  end.
Proof.
  unfold setRows. unfold bind at 1, lift at 1.
  destruct (Data.prepareData rows) as [[columns modifiedRows]|e]; [|reflexivity].
  unfold bind at 1, modify at 1. unfold bind at 1. cbn [get].
  unfold bind at 1, lift at 1. cbn [dimensions set_data].
  destruct (merge_columns (dimensions PathD c) columns); reflexivity.
Qed.

Lemma merge_column_Ok (old : list Dimension) (col col' : Dimension) :
  merge_column old col = Ok col' ->
  name col' = name col /\ attr_type col' = attr_type col /\
  statistics col' = statistics col /\
  match find_dim (name col) old with
  | Some o =>
      attr_type col = attr_type o /\
      unit col' = match unit col with Some u => Some u | None => unit o end /\
      color col' = match color col with Some x => Some x | None => color o end /\
      obj col' = match obj col with Some x => Some x | None => obj o end
  | None => col' = col
  end.
Proof.
  unfold merge_column. destruct (find_dim (name col) old) as [o|].
  - case_bool_decide; [|discriminate]. intros [= <-]. cbn. repeat split; auto.
  - intros [= <-]. repeat split; auto.
Qed.

Lemma merge_columns_Ok (old columns columns' : list Dimension) :
  merge_columns old columns = Ok columns' ->
  Forall2 (fun col col' => merge_column old col = Ok col') columns columns'.
Proof.
  revert columns'. induction columns as [|col columns IH]; intros columns'; cbn.
  - intros [= <-]. constructor.
  - destruct (merge_column old col) as [col'|] eqn:E; [|discriminate].
    destruct (merge_columns old columns) as [rest|]; [|discriminate].
    intros [= <-]. constructor; auto.
Qed.

Lemma merge_columns_Throw (old columns : list Dimension) (e : error) :
  merge_columns old columns = Throw e -> exists n, e = ErrTypeChanged n.
Proof.
  induction columns as [|col columns IH]; cbn; [discriminate|].
  destruct (merge_column old col) as [col'|e'] eqn:E.
  - destruct (merge_columns old columns); [discriminate|].
    intros [= <-]. now apply IH.
  - intros [= <-]. unfold merge_column in E.
    destruct (find_dim (name col) old); [|discriminate].
    case_bool_decide; [discriminate|]. injection E as <-. eauto.
Qed.

Lemma prepareData_Throw (rows : DataRows) (e : error) :
  Data.prepareData rows = Throw e -> exists n, e = ErrAmbiguousColumn n.
Proof.
  unfold Data.prepareData. destruct (Data.insertIDs rows) as [g rows'].
  destruct (Data.deriveColumnMetaData _ rows') as [cols|e'] eqn:E; [discriminate|].
  intros [= <-]. apply deriveColumnMetaData_Throw in E as (_ & attr & _ & _ & _ & E).
  unfold Data.deriveColumn in E. repeat case_match; try discriminate.
  injection E as <-. eauto.
Qed.

Lemma deriveColumn_domain (attr : DimensionPreview) (rows : DataRows)
  (dim : Dimension) :
  Data.deriveColumn attr rows = Ok dim -> axis_domain dim <> DomObject.
Proof.
  unfold Data.deriveColumn. repeat case_match; try discriminate;
    intros [= <-]; unfold axis_domain; cbn; discriminate.
Qed.

(** The columns that [setRows] passes to [setDimensions]. *)
Lemma merged_columns (rows : DataRows) (old columns columns' : list Dimension)
  (modifiedRows : DataRows) :
  Data.prepareData rows = Ok (columns, modifiedRows) ->
  merge_columns old columns = Ok columns' ->
  forall col', col' ∈ columns' ->
    Forall (fun row => has_key (name col') row = true) modifiedRows /\
    axis_domain col' <> DomObject /\
    (exists derived,
       Data.deriveColumn (mkPreview (name col')) modifiedRows = Ok derived /\
       attr_type col' = attr_type derived /\
       statistics col' = statistics derived) /\
    match find_dim (name col') old with
    | Some o => attr_type col' = attr_type o /\ unit col' = unit o /\
                color col' = color o /\ obj col' = obj o
    | None => unit col' = None /\ color col' = None /\ obj col' = None
    end.
Proof.
  unfold Data.prepareData. destruct (Data.insertIDs rows) as [g rows'].
  destruct (Data.deriveColumnMetaData _ rows') as [cols|] eqn:Eder; [|discriminate].
  intros [= -> ->] Hm%merge_columns_Ok col' Hin.
  apply deriveColumnMetaData_Ok in Eder.
  revert Eder. generalize (if g then mkPreview "ID" :: Data.initColumnsFromRows rows
                           else Data.initColumnsFromRows rows) as previews.
  induction Hm as [|col c' columns columns' Hc _ IH]; intros previews Hder;
    [now apply elem_of_nil in Hin|].
  inversion Hder as [|attr ? previews' ? Hd Hrest]; subst.
  apply elem_of_cons in Hin as [->|Hin]; [|now apply (IH Hin previews')].
  destruct (deriveColumn_Ok_inv _ _ _ Hd) as (N & U & C & O & K).
  pose proof (deriveColumn_domain _ _ _ Hd) as Hdom.
  destruct (merge_column_Ok _ _ _ Hc) as (Hn & Ht & Hs & Hmeta).
  rewrite Hn. split; [now rewrite N|]. split.
  - unfold axis_domain in *. now rewrite Ht, Hs.
  - split.
    + exists col. rewrite N. destruct attr as [n]. cbn. auto.
    + destruct (find_dim (name col) old) as [o|].
      * destruct Hmeta as (Hto & -> & -> & ->). rewrite U, C, O, Ht. auto.
      * subst c'. auto.
Qed.

(** X16.  On a chart that has an axis for each of its dimensions,
    [setRows] can fail in two ways only: with the error of
    [deriveColumnMetaData] for a column of mixed or invalid values, which
    leaves the chart untouched, and with the error for an attribute that
    changed its type, which leaves the new rows in the chart.  It never
    fails with the mismatch error of [setDimensions], a TypeError or the
    error of [ObjectiveAxis].  When it returns, the chart holds the
    prepared rows and the merged columns and has again an axis for each
    dimension, scaled to the new statistics. *)
Theorem setRows_total (rows : DataRows) (c : Chart PathD) :
  (forall o, o ∈ dimensions PathD c -> is_Some (axes PathD c !! name o)) ->
  match setRows d3_scale PathD pathIntersection rows c with
  | (c', Ok _) =>
      exists columns modifiedRows,
        Data.prepareData rows = Ok (columns, modifiedRows) /\
        merge_columns (dimensions PathD c) columns = Ok (dimensions PathD c') /\
        data PathD c' = Some modifiedRows /\
        xScale_domain PathD c' = map name (dimensions PathD c') /\
        forall dim, dim ∈ dimensions PathD c' ->
          exists ax, axes PathD c' !! name dim = Some ax /\
                     axis_updated PathD c' (dimensions PathD c') (name dim) ax
  | (c', Throw e) =>
      (exists n, e = ErrAmbiguousColumn n /\ c' = c /\
                 Data.prepareData rows = Throw e) \/
      (exists n columns modifiedRows,
         e = ErrTypeChanged n /\
         Data.prepareData rows = Ok (columns, modifiedRows) /\
         merge_columns (dimensions PathD c) columns = Throw e /\
         c' = set_data PathD (Some modifiedRows) c)
  end.
Proof.
  intros Hwf. rewrite setRows_unfold.
  destruct (Data.prepareData rows) as [[columns modifiedRows]|e] eqn:Eprep.
  2:{ left. destruct (prepareData_Throw _ _ Eprep) as [n ->]. eauto. }
  destruct (merge_columns (dimensions PathD c) columns) as [columns'|e] eqn:Emerge.
  2:{ right. destruct (merge_columns_Throw _ _ _ Emerge) as [n ->].
      exists n, columns, modifiedRows. auto. }
  pose proof (merged_columns _ _ _ _ _ Eprep Emerge) as Hcols.
  set (c1 := set_data PathD (Some modifiedRows) c).
  assert (Hsub : isSubset PathD c1 columns' = Ok true).
  { unfold isSubset. destruct columns' as [|col0 cols0] eqn:E; [reflexivity|].
    rewrite <- E in *. cbn [data c1 set_data]. f_equal.
    apply forallb_forall. intros col Hcol. apply list_elem_of_In in Hcol.
    destruct (Hcols col Hcol) as (Hk & _). apply forallb_forall.
    intros row Hrow. rewrite Forall_forall in Hk.
    apply Hk. now apply list_elem_of_In. }
  assert (Hok : snd (updateAxes d3_scale PathD pathIntersection
                       (dimensions PathD c1) (set_dimensions PathD columns' c1))
                = Ok tt).
  { apply updateAxes_succeeds.
    - cbn. eauto.
    - exact Hwf.
    - cbn [dimensions set_dimensions]. intros dim o Hdim Ho.
      destruct (Hcols dim Hdim) as (_ & _ & _ & Hmeta).
      cbn [dimensions c1 set_data] in Ho. rewrite Ho in Hmeta.
      destruct Hmeta as (_ & _ & _ & Hobj). unfold hasTypeObjective. now rewrite Hobj.
    - cbn [dimensions set_dimensions]. intros dim Hdim.
      now destruct (Hcols dim Hdim) as (_ & Hdom & _).
    - cbn [dimensions set_dimensions]. intros dim Hdim Hnew.
      destruct (Hcols dim Hdim) as (_ & _ & _ & Hmeta).
      destruct (find_dim (name dim) (dimensions PathD c)) as [o|] eqn:Ef.
      + exfalso. apply Hnew. destruct (find_dim_name _ _ _ Ef) as [Ho <-].
        now apply elem_of_names.
      + destruct Hmeta as (_ & _ & Hobj). unfold hasTypeObjective.
        now rewrite Hobj. }
  pose proof (setDimensions_unfold columns' c1) as Hunf. rewrite Hsub in Hunf.
  destruct (setDimensions d3_scale PathD pathIntersection columns' c1)
    as [c' r] eqn:Eset.
  rewrite <- Hunf in Hok. cbn [snd] in Hok. subst r.
  destruct (setDimensions_Ok _ _ _ Eset) as (Hf & Hax & _).
  destruct Hf as (Hdata & Hdims & _ & Hh & _ & Hxs & _).
  cbn in Hdata, Hdims, Hh, Hxs.
  exists columns, modifiedRows. rewrite Hdims, Hxs.
  repeat split; auto.
  intros dim Hdim. destruct (Hax dim Hdim) as (ax & Hk & Hup).
  exists ax. split; [exact Hk|].
  apply (axis_updated_frame c1); auto.
Qed.

(** X17.  When [setRows] returns, every dimension of the chart has the
    attribute type and the statistics derived from the new rows.  A
    dimension whose name the chart had before keeps the type, the unit,
    the colour and the optimization direction of the old dimension of that
    name; a dimension with a new name has none of the three. *)
Theorem setRows_keeps_metadata (rows : DataRows) (c c' : Chart PathD) :
  setRows d3_scale PathD pathIntersection rows c = (c', Ok tt) ->
  exists modifiedRows,
    data PathD c' = Some modifiedRows /\
    forall col, col ∈ dimensions PathD c' ->
      (exists derived,
         Data.deriveColumn (mkPreview (name col)) modifiedRows = Ok derived /\
         attr_type col = attr_type derived /\
         statistics col = statistics derived) /\
      match find_dim (name col) (dimensions PathD c) with
      | Some o => attr_type col = attr_type o /\ unit col = unit o /\
                  color col = color o /\ obj col = obj o
      | None => unit col = None /\ color col = None /\ obj col = None
      end.
Proof.
  rewrite setRows_unfold.
  destruct (Data.prepareData rows) as [[columns modifiedRows]|e] eqn:Eprep;
    [|discriminate].
  destruct (merge_columns (dimensions PathD c) columns) as [columns'|e] eqn:Emerge;
    [|discriminate].
  intros Eset. destruct (setDimensions_Ok _ _ _ Eset) as (Hf & _).
  destruct Hf as (Hdata & Hdims & _). cbn in Hdata, Hdims.
  exists modifiedRows. split; [exact Hdata|]. rewrite Hdims.
  intros col Hcol.
  destruct (merged_columns _ _ _ _ _ Eprep Emerge col Hcol) as (_ & _ & Hd & Hm).
  split; assumption.
Qed.

(** *** [setDimensionSubset] *)

(** X18.  When [setDimensionSubset] returns, the dimensions of the chart
    are the old ones whose names were given, in their old order, and the
    horizontal scale has their names as its domain; the axes of the other
    dimensions are deleted; and every remaining dimension has its axis,
    whose brush selection is gone unless it is an objective axis: hiding a
    dimension clears the range brushes of those that stay. *)
Theorem setDimensionSubset_spec (names : list string) (c c' : Chart PathD) :
  setDimensionSubset d3_scale PathD pathIntersection names c = (c', Ok tt) ->
  dimensions PathD c' =
    List.filter (fun dim => bool_decide (name dim ∈ names)) (dimensions PathD c) /\
  sublist (dimensions PathD c') (dimensions PathD c) /\
  (forall dim, dim ∈ dimensions PathD c' <->
               dim ∈ dimensions PathD c /\ name dim ∈ names) /\
  xScale_domain PathD c' = map name (dimensions PathD c') /\
  (forall o, o ∈ dimensions PathD c -> ~ name o ∈ names ->
     axes PathD c' !! name o = None) /\
  (forall dim, dim ∈ dimensions PathD c' ->
     exists ax, axes PathD c' !! name dim = Some ax /\
                axis_updated PathD c (dimensions PathD c') (name dim) ax).
Proof.
  unfold setDimensionSubset. unfold bind at 1. cbn [get].
  set (dims := List.filter (fun dim => bool_decide (name dim ∈ names))
                 (dimensions PathD c)).
  intros Eset. destruct (setDimensions_Ok _ _ _ Eset) as (Hf & Hax & Hrem).
  destruct Hf as (_ & Hdims & _ & _ & _ & Hxs & _). cbn in Hdims, Hxs.
  assert (Hel : forall dim, dim ∈ dims <->
                            dim ∈ dimensions PathD c /\ name dim ∈ names).
  { intros dim. unfold dims. rewrite elem_of_filter_iff, bool_decide_eq_true.
    reflexivity. }
  rewrite Hdims, Hxs. split; [reflexivity|]. split; [|split; [exact Hel|]].
  - unfold dims. clear. induction (dimensions PathD c) as [|dim l IH]; cbn.
    + constructor.
    + destruct (bool_decide (name dim ∈ names)); now constructor.
  - split; [reflexivity|]. split; [|exact Hax].
    intros o Ho Hno. apply Hrem; [exact Ho|].
    intros Hk. apply list_elem_of_In, in_map_iff in Hk as (y & Hn & Hy).
    apply list_elem_of_In, Hel in Hy as [_ Hy]. apply Hno. now rewrite <- Hn.
Qed.

End WithLibraries.

End UpdateFacts.

(** ** Scenarios on the concrete chart *)

Module ScenarioFacts.

Import Axis Chart ChartSpec ChartFacts BrushFacts Scenario.

(** With the pixel range [300, 0] the selection [0, 150] holds the values
    from 50 to 100. *)
Example chart_full_pass :
  map (brushed PathD)
    (polylines PathD
       (brush AxisSpec.linear_example PathD LineBrushSpec.polyline_intersection
          None (chart (Some (0%Q, 150%Q)) [true; true; false])))
  = [false; true; true].
Proof. vm_compute. reflexivity. Qed.




(** The pass of the witness selects all three items. *)
Example chart_extend_pass :
  map (brushed PathD)
    (polylines PathD
       (brush AxisSpec.linear_example PathD LineBrushSpec.polyline_intersection
          (Some EXTEND) (chart (Some (0%Q, 280%Q)) [false; true; true])))
  = [true; true; true].
Proof. vm_compute. reflexivity. Qed.

(** C5, an update on which the theorem applies. *)
Lemma setRows_type_change_spec_witness :
  let c := chart None [true; true; true] in
  exists n,
    setRows AxisSpec.linear_example PathD LineBrushSpec.polyline_intersection
      rows_A_as_strings c
      = (set_data PathD (Some rows_A_as_strings) c, Throw (ErrTypeChanged n)) /\
    (exists col' existingDim',
       In col' columns_A_as_strings /\ name col' = n /\
       find_dim n (dimensions PathD c) = Some existingDim' /\
       attr_type col' <> attr_type existingDim') /\
    let c' := fst (setRows AxisSpec.linear_example PathD
                     LineBrushSpec.polyline_intersection rows_A_as_strings c) in
    dimensions PathD c' = dimensions PathD c /\
    xScale_domain PathD c' = xScale_domain PathD c /\
    axes PathD c' = axes PathD c /\
    dragging PathD c' = dragging PathD c /\
    polylines PathD c' = polylines PathD c /\
    lineBrush PathD c' = lineBrush PathD c.
Proof.
  apply (setRows_type_change_spec AxisSpec.linear_example PathD
           LineBrushSpec.polyline_intersection
           (chart None [true; true; true]) rows_A_as_strings
           columns_A_as_strings rows_A_as_strings
           (mkDimension "A" None NOMINAL None (StatCategories ["low"; "high"]) None)
           (numerical "A")).
  - reflexivity.
  - right. now left.
  - reflexivity.
  - discriminate.
Defined.

(** C5, the claim as stated fails: the failed update has replaced the
    stored rows, while the dimensions are still the old ones. *)
Lemma setRows_type_change_replaces_rows :
  let c := chart None [true; true; true] in
  let result := setRows AxisSpec.linear_example PathD
                  LineBrushSpec.polyline_intersection rows_A_as_strings c in
  snd result = Throw (ErrTypeChanged "A") /\
  data PathD c = Some items /\
  data PathD (fst result) = Some rows_A_as_strings /\
  data PathD (fst result) <> data PathD c /\
  dimensions PathD (fst result) = dimensions PathD c.
Proof.
  cbn zeta. split; [reflexivity|]. split; [reflexivity|]. split; [reflexivity|].
  split; [discriminate | reflexivity].
Qed.

(** The positions of the three axes: 0, 495 and 990. *)
Example chart_positions :
  map (position point_example PathD (chart None [true; true; true]))
    ["A"; "B"; "Speed"]
  = [Some 0%Q; Some 495%Q; Some 990%Q].
Proof. vm_compute. reflexivity. Qed.

(** C7, a drag on which the theorem applies: Speed is dragged to x = 100,
    between A and B. *)
Lemma drag_move_spec_witness :
  let c := chart None [true; true; true] in
  let dim := numerical "Speed" in
  let c1 :=
    set_dragging PathD
      (<[name dim := Some (clamp_pointer PathD c 100)]> (dragging PathD c)) c in
  let c' := fst (drag_move AxisSpec.linear_example point_example PathD
                   line_example dim 100 c) in
  (forall (c2 : Chart PathD) (n : string),
     position point_example PathD c2 n =
       match dragging PathD c2 !! n with
       | Some x => x
       | None => xScale point_example PathD c2 n
       end) /\
  dragging PathD c' =
    <[name dim := Some (clamp_pointer PathD c 100)]> (dragging PathD c) /\
  position point_example PathD c' (name dim) = Some (clamp_pointer PathD c 100) /\
  ((0 <= width (options PathD c))%Q ->
     (0 <= clamp_pointer PathD c 100)%Q /\
     (clamp_pointer PathD c 100 <= width (options PathD c))%Q) /\
  dimensions PathD c' = sort_by_position point_example PathD c1 (dimensions PathD c) /\
  Permutation (dimensions PathD c') (dimensions PathD c) /\
  StronglySorted (pos_le point_example PathD c1) (dimensions PathD c') /\
  xScale_domain PathD c' = map name (dimensions PathD c') /\
  (forall n, dragging PathD c' !! n = None ->
     position point_example PathD c' n =
       point_example (canvasWidth PathD c) (map name (dimensions PathD c')) n).
Proof.
  apply (drag_move_spec AxisSpec.linear_example point_example PathD line_example
           (chart None [true; true; true]) (numerical "Speed") 100).
  intros other [<-|[<-|[<-|[]]]]; vm_compute; eexists; reflexivity.
Defined.

(** The drag of the witness puts Speed between A and B. *)
Example drag_move_reorders :
  let c' := fst (drag_move AxisSpec.linear_example point_example PathD
                   line_example (numerical "Speed") 100
                   (chart None [true; true; true])) in
  map name (dimensions PathD c') = ["A"; "Speed"; "B"] /\
  xScale_domain PathD c' = ["A"; "Speed"; "B"] /\
  map (position point_example PathD c') ["A"; "Speed"; "B"]
  = [Some 0%Q; Some 100%Q; Some 990%Q].
Proof. vm_compute. repeat split. Qed.

(** C7, the claim as stated fails: the canvas is 990 wide, the chart 1100;
    a pointer at x = 1050 is beyond the canvas and is kept as it is. *)
Lemma drag_move_beyond_canvas :
  let c := chart None [true; true; true] in
  let c' := fst (drag_move AxisSpec.linear_example point_example PathD
                   line_example (numerical "Speed") 1050 c) in
  canvasWidth PathD c = 990%Q /\ width (options PathD c) = 1100%Q /\
  position point_example PathD c' "Speed" = Some 1050%Q /\
  ~ (1050 <= canvasWidth PathD c)%Q.
Proof.
  cbn zeta. split; [reflexivity|]. split; [reflexivity|].
  split; [reflexivity|]. intros H. vm_compute in H. now apply H.
Qed.


(** Clearing the brushes of an objective and of a parameter axis that
    both select [100, 300]: the objective axis still excludes ["NaN"]. *)
Example clearBrush_objective_and_parameter :
  let cost := mkDimension "Cost" None NUMERICAL None
                (StatMinMax (JFin 0) (JFin 100)) (Some (ObjDir MIN)) in
  let objective := fst (clearBrush 0
                          (axis_of ObjectiveAxisC cost (Some (100%Q, 300%Q)))) in
  let parameter := fst (clearBrush 0
                          (axis_of ParameterAxisC cost (Some (100%Q, 300%Q)))) in
  active_selection objective = Some (0%Q, 300%Q) /\
  Axis.isBrushed AxisSpec.linear_example objective NaN_marker = false /\
  Axis.isBrushed AxisSpec.linear_example objective (VNum (JFin 50)) = true /\
  active_selection parameter = None /\
  Axis.isBrushed AxisSpec.linear_example parameter NaN_marker = true.
Proof. vm_compute. repeat split. Qed.

(** *** Brush events *)





(** X13, the chart with a brush on Speed that leaves one polyline out. *)
Lemma clearBrushes_selects_all_witness :
  let c := chart (Some (0%Q, 150%Q)) [false; true; true] in
  exists c',
    clearBrushes AxisSpec.linear_example PathD LineBrushSpec.polyline_intersection c
      = (c', Ok tt) /\
    (forall key ax, axes PathD c' !! key = Some ax -> active_selection ax = None) /\
    Forall (fun node => brushed PathD node = true) (polylines PathD c') /\
    consistent AxisSpec.linear_example PathD LineBrushSpec.polyline_intersection
      c' (polylines PathD c') /\
    map (datum PathD) (polylines PathD c') = map (datum PathD) (polylines PathD c) /\
    dimensions PathD c' = dimensions PathD c.
Proof.
  intros c. apply clearBrushes_selects_all.
  - reflexivity.
  - discriminate.
  - intros key ax H. unfold c, chart in H. cbn [axes] in H.
    repeat (apply lookup_insert_Some in H as [[<- <-]|[_ H]];
            [split; [repeat split; [discriminate | eexists; reflexivity]
                    | cbn; set_solver]|]).
    now rewrite lookup_empty in H.
  - intros dim H. unfold c, chart in H. cbn [dimensions] in H.
    repeat (apply elem_of_cons in H as [->|H]; [eexists; reflexivity|]).
    now apply elem_of_nil in H.
Defined.

End ScenarioFacts.
